(** * Streaming chat completion: the orchestrator, its entities and the
      wire formatter

    A shallow embedding of

    - [api/domain/entities/tool.py]      ([ToolCall], [ToolResult], [ITool]),
    - [api/domain/entities/events.py]    (the [StreamEvent] variants, [UsageStats]),
    - [api/domain/ports/llm_provider.py] (the [LLMEvent] variants),
    - [api/infrastructure/tools/tool_executor.py] ([ToolExecutor]),
    - [api/application/use_cases/stream_chat_completion.py]
      ([StreamChatCompletionUseCase.execute]),
    - [api/infrastructure/protocol/vercel_stream.py]
      ([VercelStreamProtocolAdapter.format_event]),
    - [api/domain/entities/message.py]   ([MessageRole], [Attachment], [Message]),
    - [api/web/dtos/client_messages.py]  (the client message records),
    - [api/web/mappers/message_mapper.py] ([MessageMapper.to_domain]),
    - [api/infrastructure/llm/openai_adapter.py]
      ([OpenAILLMAdapter._convert_messages]),
    - [api/web/routers/chat.py]          ([handle_chat], [stream_events]).

    Conventions.

    - A Python [int] is a [Z]; a Python [str] handed to the program is a
      [string] whose characters are read as code points 0..255.  Strings
      inside decoded JSON values are lists of code points ([pystr]), because
      a [\uXXXX] escape can denote any code point.
    - A Python [dict] keeps insertion order and re-assigning an existing key
      keeps the key's place; it is an association list driven by
      [dict_set] / [dict_get].
    - The async generator [execute] is run to exhaustion: its meaning is the
      trace of what it did (events yielded, tool executions awaited) together
      with how it ended (returned, or an exception propagated).  This is the
      [Gen] monad below. *)

From Stdlib Require Import List String Ascii ZArith NArith Bool Lia.
From Stdlib Require Import DecimalString.
From Stdlib Require DecimalFacts DecimalZ.
Import ListNotations.
Local Open Scope string_scope.
Local Open Scope list_scope.
Local Open Scope Z_scope.

Set Implicit Arguments.
Set Warnings "-register-all,-notation-for-abbreviation".

(* ================================================================== *)
(** * Python values *)

(** Code points of a Python [str]. *)
Definition pystr := list N.

Definition py (s : string) : pystr := map N_of_ascii (list_ascii_of_string s).

Fixpoint pystr_eqb (a b : pystr) : bool :=
  match a, b with
  | [], [] => true
  | x :: a', y :: b' => N.eqb x y && pystr_eqb a' b'
  | _, _ => false
  end.

(** What [json.loads] produces and [json.dumps] consumes.  A float is kept
    as the text it was written with: its numeric value is not interpreted. *)
Inductive JSON : Type :=
| JNull
| JBool (b : bool)
| JInt (z : Z)
| JFloat (lexeme : string)
| JStr (s : pystr)
| JArr (items : list JSON)
| JObj (members : list (pystr * JSON)).

(** Exceptions that can leave the modelled code.  They stand for instances
    of [Exception]: what is raised outside that class (the cancellation of
    a coroutine, a keyboard interrupt) is not modelled, and [except
    Exception] catches every value of this type. *)
Inductive Exn : Type :=
| KeyError (key : Z)
| ValueError (msg : string)
| JSONDecodeError (doc : string)
| TypeError (msg : string)
| ToolNotFoundError (msg : string)
| ToolExecutionError (tool_name : string) (original_error : Exn)
| OtherError (msg : string).

(** Result of a call that may raise. *)
Inductive Outcome (A : Type) : Type :=
| Returned (a : A)
| Raised (e : Exn).
Arguments Returned {A} a.
Arguments Raised {A} e.

(** [bool(s)] for a [str]: the empty string is falsy. *)
Definition str_truthy (s : string) : bool :=
  match s with EmptyString => false | String _ _ => true end.

(** [bool(x)] for an [Optional[str]]. *)
Definition opt_truthy (o : option string) : bool :=
  match o with None => false | Some s => str_truthy s end.

(** [x or ''] for an [Optional[str]]. *)
Definition or_empty (o : option string) : string :=
  match o with
  | None => EmptyString
  | Some s => if str_truthy s then s else EmptyString
  end.

(* ------------------------------------------------------------------ *)
(** ** Insertion-ordered dictionaries *)

Section PyDict.
Variables K V : Type.
Variable eqb : K -> K -> bool.

Definition dict := list (K * V).

(** [d.get(k)]; [d[k]] raises [KeyError] exactly when this is [None]. *)
Fixpoint dict_get (k : K) (d : dict) : option V :=
  match d with
  | [] => None
  | (k', v) :: rest => if eqb k k' then Some v else dict_get k rest
  end.

(** [d[k] = v]: an existing key keeps its place, a new key goes last. *)
Fixpoint dict_set (k : K) (v : V) (d : dict) : dict :=
  match d with
  | [] => [(k, v)]
  | (k', v') :: rest =>
      if eqb k k' then (k', v) :: rest else (k', v') :: dict_set k v rest
  end.

Definition dict_keys (d : dict) : list K := map fst d.
Definition dict_values (d : dict) : list V := map snd d.

(** [k in d]. *)
Definition dict_mem (k : K) (d : dict) : bool :=
  match dict_get k d with Some _ => true | None => false end.

(** [dict(pairs)]. *)
Definition dict_of_pairs (pairs : list (K * V)) : dict :=
  fold_left (fun d kv => dict_set (fst kv) (snd kv) d) pairs [].
End PyDict.

(* ================================================================== *)
(** * Domain entities ([tool.py], [events.py]) *)

Module ToolCall.
Record t : Type := mk { id : string; name : string; arguments : JSON }.

(** The dataclass constructor followed by [__post_init__]. *)
Definition new (id name : string) (arguments : JSON) : Outcome t :=
  if negb (str_truthy id) then
    Raised (ValueError "ToolCall id cannot be empty")
  else if negb (str_truthy name) then
    Raised (ValueError "ToolCall name cannot be empty")
  else Returned (mk id name arguments).
End ToolCall.

Module ToolResult.
Record t : Type := mk { call_id : string; name : string; result : JSON }.

Definition new (call_id name : string) (result : JSON) : Outcome t :=
  if negb (str_truthy call_id) then
    Raised (ValueError "ToolResult call_id cannot be empty")
  else Returned (mk call_id name result).
End ToolResult.

Module UsageStats.
Record t : Type :=
  mk { prompt_tokens : Z; completion_tokens : Z; total_tokens : Z }.

(** A frozen dataclass without [__post_init__]: construction only stores
    the three fields. *)
Definition new (prompt_tokens completion_tokens total_tokens : Z) : Outcome t :=
  Returned (mk prompt_tokens completion_tokens total_tokens).
End UsageStats.

Inductive StreamEvent : Type :=
| TextDelta (content : string)
| ToolCallStarted (call_id : string) (tool_name : string)
| ToolCallArgumentChunk (call_id : string) (arguments_chunk : string)
| ToolCallCompleted (tool_call : ToolCall.t)
| ToolResultAvailable (tool_result : ToolResult.t)
| CompletionFinished (finish_reason : string) (usage : UsageStats.t).

(** [llm_provider.py]: what the provider stream yields. *)
Inductive LLMEvent : Type :=
| LLMTextDelta (content : string)
| LLMToolCallDelta (index : Z) (id : option string) (name : option string)
                   (arguments_chunk : option string)
| LLMFinished (finish_reason : string) (prompt_tokens : Z) (completion_tokens : Z).

(* ================================================================== *)
(** * The tool executor ([tool_executor.py]) *)

Module ITool.
(** [input_schema] stands for [tool.input_schema( **arguments )], the
    Pydantic validation of the call's arguments, the unpacking included
    (which raises [TypeError] when the arguments are not an object);
    [execute] for the tool's own coroutine.  Either may raise. *)
Record t : Type :=
  mk { name : string;
       description : string;
       input_schema : JSON -> Outcome JSON;
       execute : JSON -> Outcome JSON }.
End ITool.

Module ToolExecutor.
(** [self._tools]. *)
Definition registry := dict string ITool.t.

Definition register_tool (tool : ITool.t) (tools : registry) : registry :=
  dict_set String.eqb (ITool.name tool) tool tools.

Definition get_registered_tools (tools : registry) : list ITool.t :=
  dict_values tools.

(** The body of the [try] block. *)
Definition try_body (tool : ITool.t) (tool_call : ToolCall.t) : Outcome ToolResult.t :=
  match ITool.input_schema tool (ToolCall.arguments tool_call) with
  | Raised e => Raised e
  | Returned tool_input =>
      match ITool.execute tool tool_input with
      | Raised e => Raised e
      | Returned result =>
          ToolResult.new (ToolCall.id tool_call) (ToolCall.name tool_call) result
      end
  end.

Definition execute (tools : registry) (tool_call : ToolCall.t) : Outcome ToolResult.t :=
  match dict_get String.eqb (ToolCall.name tool_call) tools with
  | None =>
      Raised (ToolNotFoundError
                ("Tool '" ++ ToolCall.name tool_call ++ "' not registered"))
  | Some tool =>
      match try_body tool tool_call with
      | Returned r => Returned r
      | Raised e => Raised (ToolExecutionError (ToolCall.name tool_call) e)
      end
  end.
End ToolExecutor.

(* ================================================================== *)
(** * The generator monad *)

(** What an observer of one run of [execute] sees, in order: an event
    handed to the consumer, or the start of an awaited tool execution. *)
Inductive Action : Type :=
| Yield (event : StreamEvent)
| Invoke (tool_call : ToolCall.t).

(** A piece of generator body: what it did and how it ended. *)
Definition Gen (A : Type) : Type := (list Action * Outcome A)%type.

Definition ret {A} (a : A) : Gen A := ([], Returned a).

Definition bind {A B} (m : Gen A) (k : A -> Gen B) : Gen B :=
  match snd m with
  | Raised e => (fst m, Raised e)
  | Returned a => (fst m ++ fst (k a), snd (k a))
  end.

Definition yield (event : StreamEvent) : Gen unit := ([Yield event], Returned tt).

Definition raise {A} (e : Exn) : Gen A := ([], Raised e).

Definition lift {A} (o : Outcome A) : Gen A := ([], o).

Declare Scope gen_scope.
Delimit Scope gen_scope with gen.
Notation "x <- m ;; k" := (bind m (fun x => k))
  (at level 100, m at next level, right associativity) : gen_scope.
Notation "m ;; k" := (bind m (fun _ => k))
  (at level 100, right associativity) : gen_scope.

Definition trace {A} (g : Gen A) : list Action := fst g.
Definition outcome {A} (g : Gen A) : Outcome A := snd g.

(** The events the consumer receives. *)
Fixpoint events_of (tr : list Action) : list StreamEvent :=
  match tr with
  | [] => []
  | Yield e :: rest => e :: events_of rest
  | Invoke _ :: rest => events_of rest
  end.

(* ================================================================== *)
(** * The use case ([stream_chat_completion.py]) *)

(** One value of [tool_calls_in_progress]: the dict with the keys
    ['id'], ['name'] and ['arguments']. *)
Module ToolData.
Record t : Type := mk { id : string; name : string; arguments : string }.
End ToolData.

Section StreamChatCompletionUseCase.
Local Open Scope gen_scope.

(** [json.loads]: [None] when it raises [JSONDecodeError]. *)
Variable json_loads : string -> option JSON.
(** [self._tool_executor.execute], the injected port. *)
Variable tool_executor : ToolCall.t -> Outcome ToolResult.t.

Definition in_progress := dict Z ToolData.t.

(** [await self._tool_executor.execute(tool_call)]. *)
Definition await_execute (tool_call : ToolCall.t) : Gen ToolResult.t :=
  ([Invoke tool_call], tool_executor tool_call).

(** The [LLMToolCallDelta] branch. *)
Definition on_tool_call_delta (acc : in_progress) (index : Z)
    (id name arguments_chunk : option string) : Gen in_progress :=
  acc1 <- match id with
          | Some i =>
              yield (ToolCallStarted i (or_empty name)) ;;
              ret (dict_set Z.eqb index (ToolData.mk i (or_empty name) EmptyString) acc)
          | None => ret acc
          end ;;
  if opt_truthy arguments_chunk then
    let chunk := or_empty arguments_chunk in
    match dict_get Z.eqb index acc1 with
    | None => raise (KeyError index)
    | Some d =>
        let acc2 :=
          dict_set Z.eqb index
            (ToolData.mk (ToolData.id d) (ToolData.name d)
                         (ToolData.arguments d ++ chunk)) acc1 in
        yield (ToolCallArgumentChunk (ToolData.id d) chunk) ;;
        ret acc2
    end
  else ret acc1.

(** One iteration of [for tool_data in tool_calls_in_progress.values()]. *)
Definition resolve_one (tool_data : ToolData.t) : Gen unit :=
  match json_loads (ToolData.arguments tool_data) with
  | None => raise (JSONDecodeError (ToolData.arguments tool_data))
  | Some arguments =>
      tool_call <- lift (ToolCall.new (ToolData.id tool_data)
                                      (ToolData.name tool_data) arguments) ;;
      yield (ToolCallCompleted tool_call) ;;
      tool_result <- await_execute tool_call ;;
      yield (ToolResultAvailable tool_result)
  end.

Fixpoint resolve_all (values : list ToolData.t) : Gen unit :=
  match values with
  | [] => ret tt
  | tool_data :: rest => resolve_one tool_data ;; resolve_all rest
  end.

(** The [LLMFinished] branch; an empty dict is falsy. *)
Definition on_finished (acc : in_progress) (finish_reason : string)
    (prompt_tokens completion_tokens : Z) : Gen in_progress :=
  match acc with
  | [] => ret tt
  | _ :: _ => resolve_all (dict_values acc)
  end ;;
  usage <- lift (UsageStats.new prompt_tokens completion_tokens
                                (prompt_tokens + completion_tokens)) ;;
  yield (CompletionFinished finish_reason usage) ;;
  ret acc.

(** The body of the [async for] loop. *)
Definition step (acc : in_progress) (event : LLMEvent) : Gen in_progress :=
  match event with
  | LLMTextDelta content => yield (TextDelta content) ;; ret acc
  | LLMToolCallDelta index id name arguments_chunk =>
      on_tool_call_delta acc index id name arguments_chunk
  | LLMFinished finish_reason prompt_tokens completion_tokens =>
      on_finished acc finish_reason prompt_tokens completion_tokens
  end.

Fixpoint run (acc : in_progress) (stream : list LLMEvent) : Gen in_progress :=
  match stream with
  | [] => ret acc
  | event :: rest => acc' <- step acc event ;; run acc' rest
  end.

(** [execute].  The messages and the registered tools only travel to the
    provider; [stream] is what [stream_completion(messages, tools)] yields
    in answer, a stream that ends without raising.  The result is the trace
    of a consumer that reads the generator to its end. *)
Definition execute (stream : list LLMEvent) : Gen unit :=
  run [] stream ;; ret tt.
End StreamChatCompletionUseCase.

(* ================================================================== *)
(** * The [json] module of the Python standard library

    [json.loads] and [json.dumps] are not part of the repository; they are
    written here after the reference implementation ([json/decoder.py],
    [json/scanner.py], [json/encoder.py]) with the default settings
    ([strict=True], [ensure_ascii=True], a comma and a space between items,
    a colon and a space after a key).
    Outside the model: the numeric value of floats, the recursion limit and
    the digit limit of [int]. *)

Module Json.
Local Open Scope char_scope.

(** The double-quote character. *)
Definition dquote : ascii := "034".

(** Result of scanning at the head of the input: a value and the input
    left, or a decoding error; [OutOfFuel] is the model's own and never
    the answer of [decode] (lemma [decode_fuel]). *)
Inductive Scan (A : Type) : Type :=
| Match (a : A) (rest : list ascii)
| NoMatch
| OutOfFuel.
Arguments Match {A} a rest.
Arguments NoMatch {A}.
Arguments OutOfFuel {A}.

Definition is_ws (c : ascii) : bool :=
  Ascii.eqb c " " || Ascii.eqb c "009" || Ascii.eqb c "010" || Ascii.eqb c "013".

Fixpoint skip_ws (s : list ascii) : list ascii :=
  match s with
  | c :: rest => if is_ws c then skip_ws rest else s
  | [] => []
  end.

Definition is_digit (c : ascii) : bool :=
  let n := N_of_ascii c in (48 <=? n)%N && (n <=? 57)%N.

Definition digit_val (c : ascii) : Z := Z.of_N (N_of_ascii c) - 48.

(** The longest prefix of digits, and what follows it. *)
Fixpoint span_digits (s : list ascii) : list ascii * list ascii :=
  match s with
  | c :: rest =>
      if is_digit c then
        let (ds, r) := span_digits rest in (c :: ds, r)
      else ([], s)
  | [] => ([], [])
  end.

Definition int_of_digits (ds : list ascii) : Z :=
  fold_left (fun n c => 10 * n + digit_val c) ds 0.

Definition hex_val (c : ascii) : option N :=
  let n := N_of_ascii c in
  if (48 <=? n)%N && (n <=? 57)%N then Some (n - 48)%N
  else if (97 <=? n)%N && (n <=? 102)%N then Some (n - 87)%N
  else if (65 <=? n)%N && (n <=? 70)%N then Some (n - 55)%N
  else None.

(** Four hexadecimal digits at the head of [s]. *)
Definition decode_uXXXX (s : list ascii) : option (N * list ascii) :=
  match s with
  | h1 :: h2 :: h3 :: h4 :: rest =>
      match hex_val h1, hex_val h2, hex_val h3, hex_val h4 with
      | Some a, Some b, Some c, Some d =>
          Some (((a * 16 + b) * 16 + c) * 16 + d, rest)%N
      | _, _, _, _ => None
      end
  | _ => None
  end.

Definition is_high_surrogate (u : N) : bool := (55296 <=? u)%N && (u <=? 56319)%N.
Definition is_low_surrogate (u : N) : bool := (56320 <=? u)%N && (u <=? 57343)%N.

(** The character after a backslash, with the input after the escape. *)
Definition scan_escape (s : list ascii) : option (N * list ascii) :=
  match s with
  | [] => None
  | e :: rest =>
      if Ascii.eqb e dquote then Some (34%N, rest)
      else if Ascii.eqb e "\" then Some (92%N, rest)
      else if Ascii.eqb e "/" then Some (47%N, rest)
      else if Ascii.eqb e "b" then Some (8%N, rest)
      else if Ascii.eqb e "f" then Some (12%N, rest)
      else if Ascii.eqb e "n" then Some (10%N, rest)
      else if Ascii.eqb e "r" then Some (13%N, rest)
      else if Ascii.eqb e "t" then Some (9%N, rest)
      else if Ascii.eqb e "u" then
        match decode_uXXXX rest with
        | None => None
        | Some (uni, rest1) =>
            if is_high_surrogate uni then
              match rest1 with
              | b :: u :: rest2 =>
                  if Ascii.eqb b "\" && Ascii.eqb u "u" then
                    match decode_uXXXX rest2 with
                    | None => None
                    | Some (uni2, rest3) =>
                        if is_low_surrogate uni2 then
                          Some (65536 + ((uni - 55296) * 1024 + (uni2 - 56320)), rest3)%N
                        else Some (uni, rest1)
                    end
                  else Some (uni, rest1)
              | _ => Some (uni, rest1)
              end
            else Some (uni, rest1)
        end
      else None
  end.

(** [scanstring]: [s] starts just after the opening quote. *)
Fixpoint scanstring (fuel : nat) (s : list ascii) : Scan pystr :=
  match fuel with
  | O => OutOfFuel
  | S fuel' =>
      match s with
      | [] => NoMatch
      | c :: rest =>
          if Ascii.eqb c dquote then Match [] rest
          else if Ascii.eqb c "\" then
            match scan_escape rest with
            | None => NoMatch
            | Some (ch, rest1) =>
                match scanstring fuel' rest1 with
                | Match chars rest2 => Match (ch :: chars) rest2
                | other => other
                end
            end
          else if (N_of_ascii c <? 32)%N then NoMatch
          else
            match scanstring fuel' rest with
            | Match chars rest2 => Match (N_of_ascii c :: chars) rest2
            | other => other
            end
      end
  end.

Fixpoint starts_with (p s : list ascii) : option (list ascii) :=
  match p, s with
  | [], _ => Some s
  | a :: p', b :: s' => if Ascii.eqb a b then starts_with p' s' else None
  | _ :: _, [] => None
  end.

(** [NUMBER_RE] has three groups.  The integer part: an optional minus
    sign, then either a single zero or a non-zero digit followed by digits. *)
Definition scan_sign (s : list ascii) : list ascii * list ascii :=
  match s with
  | c :: r => if Ascii.eqb c "-" then ([c], r) else ([], s)
  | [] => ([], s)
  end.

Definition scan_integer (s : list ascii) : option (list ascii * list ascii) :=
  match s with
  | c :: r =>
      if Ascii.eqb c "0" then Some ([c], r)
      else if is_digit c then Some (span_digits s)
      else None
  | [] => None
  end.

(** The fraction, optional: a dot and at least one digit. *)
Definition scan_frac (s : list ascii) : list ascii * list ascii :=
  match s with
  | dot :: r =>
      if Ascii.eqb dot "." then
        match span_digits r with
        | ([], _) => ([], s)
        | (fs, r') => (dot :: fs, r')
        end
      else ([], s)
  | [] => ([], s)
  end.

(** The exponent, optional: [e] or [E], an optional sign and at least one
    digit. *)
Definition scan_exp (s : list ascii) : list ascii * list ascii :=
  match s with
  | e :: r =>
      if Ascii.eqb e "e" || Ascii.eqb e "E" then
        let (sg, r1) :=
          match r with
          | c :: r' =>
              if Ascii.eqb c "-" || Ascii.eqb c "+" then ([c], r') else ([], r)
          | [] => ([], r)
          end in
        match span_digits r1 with
        | ([], _) => ([], s)
        | (es, r2) => (e :: sg ++ es, r2)
        end
      else ([], s)
  | [] => ([], s)
  end.

(** [match_number] and the branch of [_scan_once] that follows it: a
    fraction or an exponent makes the number a float. *)
Definition match_number (s : list ascii) : option (JSON * list ascii) :=
  let (sign, s1) := scan_sign s in
  match scan_integer s1 with
  | None => None
  | Some (ds, s2) =>
      let (frac, s3) := scan_frac s2 in
      let (exp, s4) := scan_exp s3 in
      match frac, exp with
      | [], [] =>
          Some (JInt (match sign with
                      | [] => int_of_digits ds
                      | _ => - int_of_digits ds
                      end), s4)
      | _, _ => Some (JFloat (string_of_list_ascii (sign ++ ds ++ frac ++ exp)), s4)
      end
  end.

Definition literal (name : string) (v : JSON) (s : list ascii)
  : option (JSON * list ascii) :=
  match starts_with (list_ascii_of_string name) s with
  | Some rest => Some (v, rest)
  | None => None
  end.

Definition orelse {A} (a b : option A) : option A :=
  match a with Some _ => a | None => b end.

(** The branches of [_scan_once] that do not go down into a container. *)
Definition scan_atom (s : list ascii) : Scan JSON :=
  match orelse (literal "null" JNull s)
        (orelse (literal "true" (JBool true) s)
        (orelse (literal "false" (JBool false) s)
        (orelse (match_number s)
        (orelse (literal "NaN" (JFloat "NaN") s)
        (orelse (literal "Infinity" (JFloat "Infinity") s)
                (literal "-Infinity" (JFloat "-Infinity") s)))))) with
  | Some (v, rest) => Match v rest
  | None => NoMatch
  end.

(** [_scan_once] with the loops of [JSONObject] and [JSONArray]. *)
Fixpoint scan_once (fuel : nat) (s : list ascii) {struct fuel} : Scan JSON :=
  match fuel with
  | O => OutOfFuel
  | S fuel' =>
      match s with
      | [] => NoMatch
      | c :: rest =>
          if Ascii.eqb c dquote then
            match scanstring (List.length s) rest with
            | Match chars r => Match (JStr chars) r
            | NoMatch => NoMatch
            | OutOfFuel => OutOfFuel
            end
          else if Ascii.eqb c "{" then
            match skip_ws rest with
            | c1 :: r1 =>
                if Ascii.eqb c1 "}" then Match (JObj []) r1
                else if Ascii.eqb c1 dquote then object_members fuel' r1 []
                else NoMatch
            | [] => NoMatch
            end
          else if Ascii.eqb c "[" then
            match skip_ws rest with
            | c1 :: r1 =>
                if Ascii.eqb c1 "]" then Match (JArr []) r1
                else array_items fuel' (c1 :: r1) []
            | [] => NoMatch
            end
          else scan_atom s
      end
  end

(** The loop of [JSONObject]: [s] starts just after the opening quote of
    a key, [pairs] are the members read so far. *)
with object_members (fuel : nat) (s : list ascii) (pairs : list (pystr * JSON))
     {struct fuel} : Scan JSON :=
  match fuel with
  | O => OutOfFuel
  | S fuel' =>
      match scanstring (S (List.length s)) s with
      | OutOfFuel => OutOfFuel
      | NoMatch => NoMatch
      | Match key r =>
          match skip_ws r with
          | colon :: r1 =>
              if Ascii.eqb colon ":" then
                match scan_once fuel' (skip_ws r1) with
                | OutOfFuel => OutOfFuel
                | NoMatch => NoMatch
                | Match value r2 =>
                    let pairs' := pairs ++ [(key, value)] in
                    match skip_ws r2 with
                    | c :: r3 =>
                        if Ascii.eqb c "}" then
                          Match (JObj (dict_of_pairs pystr_eqb pairs')) r3
                        else if Ascii.eqb c "," then
                          match skip_ws r3 with
                          | q :: r4 =>
                              if Ascii.eqb q dquote then object_members fuel' r4 pairs'
                              else NoMatch
                          | [] => NoMatch
                          end
                        else NoMatch
                    | [] => NoMatch
                    end
                end
              else NoMatch
          | [] => NoMatch
          end
      end
  end

(** The loop of [JSONArray]: [s] starts at a value. *)
with array_items (fuel : nat) (s : list ascii) (values : list JSON)
     {struct fuel} : Scan JSON :=
  match fuel with
  | O => OutOfFuel
  | S fuel' =>
      match scan_once fuel' s with
      | OutOfFuel => OutOfFuel
      | NoMatch => NoMatch
      | Match value r =>
          let values' := values ++ [value] in
          match skip_ws r with
          | c :: r1 =>
              if Ascii.eqb c "]" then Match (JArr values') r1
              else if Ascii.eqb c "," then array_items fuel' (skip_ws r1) values'
              else NoMatch
          | [] => NoMatch
          end
      end
  end.

(** [JSONDecoder.decode]: leading white space, one value, trailing white
    space, end of input.  Two units of fuel per character are enough. *)
Definition decode (doc : string) : Scan JSON :=
  let s := skip_ws (list_ascii_of_string doc) in
  match scan_once (2 * List.length s + 1) s with
  | Match v rest =>
      match skip_ws rest with
      | [] => Match v []
      | _ :: _ => NoMatch
      end
  | other => other
  end.

(** [json.loads(doc)]; [None] when it raises [JSONDecodeError]. *)
Definition loads (doc : string) : option JSON :=
  match decode doc with
  | Match v _ => Some v
  | _ => None
  end.

(* ---------------------------------------------------------------- *)
(** ** Encoding *)

Definition hex_digit (n : N) : ascii :=
  if (n <? 10)%N then ascii_of_N (48 + n) else ascii_of_N (87 + n).

(** [format(n, '04x')] for [n < 0x10000]. *)
Definition hex4 (n : N) : string :=
  String (hex_digit (N.modulo (N.div n 4096) 16))
 (String (hex_digit (N.modulo (N.div n 256) 16))
 (String (hex_digit (N.modulo (N.div n 16) 16))
 (String (hex_digit (N.modulo n 16)) EmptyString))).

(** The replacement of one code point in [encode_basestring_ascii]. *)
Definition escape_char (c : N) : string :=
  let bs := String "\" EmptyString in
  if (c =? 34)%N then bs ++ String dquote EmptyString
  else if (c =? 92)%N then bs ++ bs
  else if (c =? 10)%N then bs ++ "n"
  else if (c =? 13)%N then bs ++ "r"
  else if (c =? 9)%N then bs ++ "t"
  else if (c =? 12)%N then bs ++ "f"
  else if (c =? 8)%N then bs ++ "b"
  else if (32 <=? c)%N && (c <=? 126)%N then String (ascii_of_N c) EmptyString
  else if (c <? 65536)%N then bs ++ "u" ++ hex4 c
  else
    let n := (c - 65536)%N in
    let s1 := (55296 + N.modulo (N.div n 1024) 1024)%N in
    let s2 := (56320 + N.modulo n 1024)%N in
    bs ++ "u" ++ hex4 s1 ++ bs ++ "u" ++ hex4 s2.

Definition encode_basestring_ascii (s : pystr) : string :=
  (String dquote (fold_right (fun c out => escape_char c ++ out) EmptyString s)
   ++ String dquote EmptyString)%string.

Definition string_of_Z (z : Z) : string := NilZero.string_of_int (Z.to_int z).

Fixpoint join (sep : string) (parts : list string) : string :=
  match parts with
  | [] => EmptyString
  | [p] => p
  | p :: rest => p ++ sep ++ join sep rest
  end.

(** [json.dumps(v)] for a value whose dict keys are strings.  A float is
    written as its lexeme, which is what Python writes only when the lexeme
    is the shortest representation of the value. *)
Fixpoint dumps (v : JSON) : string :=
  match v with
  | JNull => "null"
  | JBool true => "true"
  | JBool false => "false"
  | JInt z => string_of_Z z
  | JFloat lexeme => lexeme
  | JStr s => encode_basestring_ascii s
  | JArr items => ("[" ++ join ", " (map dumps items) ++ "]")%string
  | JObj members =>
      ("{" ++ join ", "
                (map (fun kv => encode_basestring_ascii (fst kv) ++ ": " ++ dumps (snd kv))
                     members)
           ++ "}")%string
  end.
End Json.

(* ================================================================== *)
(** * The protocol formatter ([vercel_stream.py]) *)

(** Writes a literal that contains double quotes: every apostrophe of the
    argument stands for a double quote. *)
Fixpoint q (s : string) : string :=
  match s with
  | EmptyString => EmptyString
  | String c rest => String (if Ascii.eqb c "'" then Json.dquote else c) (q rest)
  end.

Module VercelStreamProtocolAdapter.
Definition newline : string := String "010" EmptyString.

Definition format_event (event : StreamEvent) : string :=
  match event with
  | TextDelta content =>
      "0:" ++ Json.dumps (JStr (py content)) ++ newline
  | ToolCallCompleted tool_call =>
      q "9:{'toolCallId':'" ++ ToolCall.id tool_call ++
      q "','toolName':'" ++ ToolCall.name tool_call ++
      q "','args':" ++ Json.dumps (ToolCall.arguments tool_call) ++ "}" ++ newline
  | ToolResultAvailable tool_result =>
      q "a:{'toolCallId':'" ++ ToolResult.call_id tool_result ++
      q "','toolName':'" ++ ToolResult.name tool_result ++
      q "','result':" ++ Json.dumps (ToolResult.result tool_result) ++ "}" ++ newline
  | CompletionFinished finish_reason usage =>
      q "e:{'finishReason':'" ++ finish_reason ++
      q "','usage':{'promptTokens':" ++
      Json.string_of_Z (UsageStats.prompt_tokens usage) ++
      q ",'completionTokens':" ++
      Json.string_of_Z (UsageStats.completion_tokens usage) ++
      q "},'isContinued':false}" ++ newline
  | ToolCallStarted _ _ => EmptyString
  | ToolCallArgumentChunk _ _ => EmptyString
  end.

(** What a client does with a line of kind [tag]: drop the two-character
    tag and the final newline, and decode the rest ([json.loads(line[2:-1])],
    as the repository's tests do). *)
Definition payload (line : string) : string :=
  substring 2 (String.length line - 3)%nat line.

Definition decode_line (line : string) : option JSON :=
  Json.loads (payload line).
End VercelStreamProtocolAdapter.

(* ================================================================== *)
(** * Vocabulary of the statements *)

(** The tool calls whose [ToolCallCompleted] was yielded, in order. *)
Fixpoint completed_of (tr : list Action) : list ToolCall.t :=
  match tr with
  | Yield (ToolCallCompleted tc) :: rest => tc :: completed_of rest
  | _ :: rest => completed_of rest
  | [] => []
  end.

(** The tool calls handed to the executor, in order. *)
Fixpoint invoked_of (tr : list Action) : list ToolCall.t :=
  match tr with
  | Invoke tc :: rest => tc :: invoked_of rest
  | _ :: rest => invoked_of rest
  | [] => []
  end.

(** An action of the streaming phase: a text delta, a tool-call start or an
    argument chunk is yielded. *)
Definition streaming_action (a : Action) : Prop :=
  match a with
  | Yield (TextDelta _) | Yield (ToolCallStarted _ _)
  | Yield (ToolCallArgumentChunk _ _) => True
  | _ => False
  end.

Definition is_terminal (event : LLMEvent) : bool :=
  match event with LLMFinished _ _ _ => true | _ => false end.

Definition mem_Z (k : Z) (ks : list Z) : bool := existsb (Z.eqb k) ks.

(** The positions that received a start fragment (a fragment with an id),
    in the order of their first start, continuing from [seen]. *)
Fixpoint first_starts_from (seen : list Z) (stream : list LLMEvent) : list Z :=
  match stream with
  | [] => seen
  | LLMToolCallDelta index (Some _) _ _ :: rest =>
      first_starts_from (if mem_Z index seen then seen else seen ++ [index]) rest
  | _ :: rest => first_starts_from seen rest
  end.

Definition first_starts (stream : list LLMEvent) : list Z :=
  first_starts_from [] stream.

(** [tc] is the tool call built from the accumulator entry [d] with the
    parser [loads]. *)
Definition completes (loads : string -> option JSON)
    (d : ToolData.t) (tc : ToolCall.t) : Prop :=
  ToolCall.id tc = ToolData.id d /\
  ToolCall.name tc = ToolData.name d /\
  loads (ToolData.arguments d) = Some (ToolCall.arguments tc).

(** A fragment that only carries argument text for [index]. *)
Definition chunk_fragment (index : Z) (chunk : string) : LLMEvent :=
  LLMToolCallDelta index None None (Some chunk).

(** [''.join(chunks)]. *)
Definition concat_chunks (chunks : list string) : string :=
  fold_right String.append EmptyString chunks.

(** What one fully resolved tool call leaves in the trace. *)
Definition pair_trace (tc : ToolCall.t) (r : ToolResult.t) : list Action :=
  [Yield (ToolCallCompleted tc); Invoke tc; Yield (ToolResultAvailable r)].

(** An action of terminal handling: a completed call or a result is
    yielded, or the executor is invoked. *)
Definition resolving_action (a : Action) : Prop :=
  match a with
  | Yield (ToolCallCompleted _) | Yield (ToolResultAvailable _) | Invoke _ => True
  | _ => False
  end.


Section Resolution.
Variable json_loads : string -> option JSON.
Variable tool_executor : ToolCall.t -> Outcome ToolResult.t.

(** The four ways the resolution of one entry can go. *)
Inductive resolution (d : ToolData.t) : Gen unit -> Prop :=
| res_malformed :
    json_loads (ToolData.arguments d) = None ->
    resolution d ([], Raised (JSONDecodeError (ToolData.arguments d)))
| res_invalid args e :
    json_loads (ToolData.arguments d) = Some args ->
    ToolCall.new (ToolData.id d) (ToolData.name d) args = Raised e ->
    resolution d ([], Raised e)
| res_exec_fails tc e :
    completes json_loads d tc ->
    tool_executor tc = Raised e ->
    resolution d ([Yield (ToolCallCompleted tc); Invoke tc], Raised e)
| res_ok tc r :
    completes json_loads d tc ->
    tool_executor tc = Returned r ->
    resolution d (pair_trace tc r, Returned tt).
End Resolution.

(** A character that a JSON string literal may hold as it is. *)
Definition plain_char (c : ascii) : bool :=
  negb (Ascii.eqb c Json.dquote) && negb (Ascii.eqb c "\"%char) &&
  negb (N_of_ascii c <? 32)%N.

Fixpoint plain (s : string) : bool :=
  match s with
  | EmptyString => true
  | String c rest => plain_char c && plain rest
  end.

(** [v] is read back from its own encoding when a closing brace follows. *)
Definition reads_back (v : JSON) : Prop :=
  exists n, Json.scan_once n (list_ascii_of_string (Json.dumps v) ++ ["}"%char]) =
            Json.Match v ["}"%char].

(** The payload of the line of a completed call. *)
Definition tool_call_payload (tc : ToolCall.t) : string :=
  q "{'toolCallId':'" ++ ToolCall.id tc ++
  q "','toolName':'" ++ ToolCall.name tc ++
  q "','args':" ++ Json.dumps (ToolCall.arguments tc) ++ "}".

(* ================================================================== *)
(** * Data of the repository's tests *)

Module Sample.
(** A tool in the style of the tests: any arguments validate, and the tool
    returns a fixed reading. *)
Definition get_weather : ITool.t :=
  ITool.mk "get_weather" "Get the current weather"
           (fun arguments => Returned arguments)
           (fun _ => Returned (JObj [(py "temp", JInt 72)])).

(** A tool whose execution raises. *)
Definition broken_tool : ITool.t :=
  ITool.mk "broken" "Always fails"
           (fun arguments => Returned arguments)
           (fun _ => Raised (OtherError "API error")).

Definition tools : ToolExecutor.registry :=
  ToolExecutor.register_tool broken_tool
    (ToolExecutor.register_tool get_weather []).

Definition executor := ToolExecutor.execute tools.

Definition sf : JSON := JObj [(py "city", JStr (py "SF"))].
Definition nyc : JSON := JObj [(py "city", JStr (py "NYC"))].
Definition reading : JSON := JObj [(py "temp", JInt 72)].

(** [test_execute_with_multiple_tool_calls], with the fragments of the two
    calls interleaved. *)
Definition two_calls : list LLMEvent :=
  [LLMToolCallDelta 0 (Some "call_1") (Some "get_weather") None;
   chunk_fragment 0 (q "{'city':");
   LLMToolCallDelta 1 (Some "call_2") (Some "get_weather") None;
   chunk_fragment 1 (q "{'city':'NYC'}");
   chunk_fragment 0 (q "'SF'}")].

(** A call that is started and receives no argument text. *)
Definition start_only : list LLMEvent :=
  [LLMToolCallDelta 0 (Some "call_1") (Some "get_weather") None].

(** [test_execute_handles_malformed_tool_arguments], after a first call
    that resolves. *)
Definition second_malformed : list LLMEvent :=
  [LLMToolCallDelta 0 (Some "call_1") (Some "get_weather") None;
   chunk_fragment 0 (q "{'city':'SF'}");
   LLMToolCallDelta 1 (Some "call_2") (Some "get_weather") None;
   chunk_fragment 1 (q "{'invalid':")].

(** A call to a tool that is not registered, between two sound calls. *)
Definition second_unregistered : list LLMEvent :=
  [LLMToolCallDelta 0 (Some "call_1") (Some "get_weather") None;
   chunk_fragment 0 (q "{'city':'SF'}");
   LLMToolCallDelta 1 (Some "call_2") (Some "get_time") None;
   chunk_fragment 1 (q "{}");
   LLMToolCallDelta 2 (Some "call_3") (Some "get_weather") None;
   chunk_fragment 2 (q "{'city':'NYC'}")].

(** An accumulator with two entries in progress. *)
Definition two_entries : dict Z ToolData.t :=
  [(0, ToolData.mk "call_1" "get_weather" (q "{'city':"));
   (1, ToolData.mk "call_2" "get_weather" (q "{'city':'NYC'}"))].

(** A tool call whose id contains a double quote. *)
Definition quoted_id_call : ToolCall.t :=
  ToolCall.mk (q "a'b") "get_weather" (JObj []).
End Sample.

(* ================================================================== *)
(** * Code that raises without yielding *)

(** Sequencing of calls that may raise: the first exception wins. *)
Definition and_then {A B} (o : Outcome A) (k : A -> Outcome B) : Outcome B :=
  match o with
  | Returned a => k a
  | Raised e => Raised e
  end.

(** A [for] loop that appends one constructed value per item. *)
Fixpoint for_each {A B} (f : A -> Outcome B) (items : list A) : Outcome (list B) :=
  match items with
  | [] => Returned []
  | x :: rest =>
      and_then (f x) (fun y =>
      and_then (for_each f rest) (fun ys => Returned (y :: ys)))
  end.

(** An [Optional[List]] used as a loop source behind a truthiness guard:
    absent and empty lists alike give no iteration. *)
Definition items_of {A} (o : option (list A)) : list A :=
  match o with Some l => l | None => [] end.

(** [bool(l)] for an [Optional[List]]. *)
Definition list_truthy {A} (o : option (list A)) : bool :=
  match o with Some (_ :: _) => true | _ => false end.

(** [repr(s)] for a [str] of code points below 256: the quote is an
    apostrophe unless the text holds apostrophes and no double quote; the
    quote and the backslash are escaped, tab, line feed and carriage return
    have their letter, and every other character that is not printable is
    written with two hexadecimal digits. *)
Definition contains (c : ascii) (s : string) : bool :=
  existsb (Ascii.eqb c) (list_ascii_of_string s).

Definition hex2 (n : N) : string :=
  String (Json.hex_digit (N.div n 16))
         (String (Json.hex_digit (N.modulo n 16)) EmptyString).

(** [str.isprintable] below 256: the controls, the no-break space and the
    soft hyphen are not printable. *)
Definition printable (n : N) : bool :=
  ((32 <=? n)%N && (n <? 127)%N) || ((161 <=? n)%N && negb (n =? 173)%N).

Definition repr_char (quote c : ascii) : string :=
  let n := N_of_ascii c in
  let bs := String "\" EmptyString in
  if Ascii.eqb c quote || Ascii.eqb c "\"%char then bs ++ String c EmptyString
  else if (n =? 9)%N then bs ++ "t"
  else if (n =? 10)%N then bs ++ "n"
  else if (n =? 13)%N then bs ++ "r"
  else if printable n then String c EmptyString
  else bs ++ "x" ++ hex2 n.

Definition repr (s : string) : string :=
  let quote :=
    if contains "'"%char s && negb (contains Json.dquote s)
    then Json.dquote else "'"%char in
  (String quote
     (fold_right (fun c out => repr_char quote c ++ out) EmptyString
                 (list_ascii_of_string s)) ++
   String quote EmptyString)%string.

(* ================================================================== *)
(** * Messages ([message.py]) *)

Module MessageRole.
Inductive t : Type := USER | ASSISTANT | SYSTEM | TOOL.

Definition value (r : t) : string :=
  match r with
  | USER => "user"
  | ASSISTANT => "assistant"
  | SYSTEM => "system"
  | TOOL => "tool"
  end.

Definition eqb (a b : t) : bool :=
  match a, b with
  | USER, USER | ASSISTANT, ASSISTANT | SYSTEM, SYSTEM | TOOL, TOOL => true
  | _, _ => false
  end.

(** [MessageRole(s)]: the member with that value, or [ValueError]. *)
Definition of_value (s : string) : Outcome t :=
  if String.eqb s "user" then Returned USER
  else if String.eqb s "assistant" then Returned ASSISTANT
  else if String.eqb s "system" then Returned SYSTEM
  else if String.eqb s "tool" then Returned TOOL
  else Raised (ValueError (repr s ++ " is not a valid MessageRole")).
End MessageRole.

Module Attachment.
Record t : Type := mk { content_type : string; url : string }.

Definition new (content_type url : string) : Outcome t :=
  if negb (str_truthy content_type) then
    Raised (ValueError "content_type cannot be empty")
  else if negb (str_truthy url) then
    Raised (ValueError "url cannot be empty")
  else Returned (mk content_type url).
End Attachment.

Module Message.
Record t : Type :=
  mk { role : MessageRole.t;
       content : string;
       attachments : list Attachment.t;
       tool_call_id : option string;
       tool_calls : option (list ToolCall.t) }.

(** The dataclass constructor followed by [__post_init__]. *)
Definition new (role : MessageRole.t) (content : string)
    (attachments : list Attachment.t) (tool_call_id : option string)
    (tool_calls : option (list ToolCall.t)) : Outcome t :=
  if negb (str_truthy content) && negb (MessageRole.eqb role MessageRole.ASSISTANT) then
    Raised (ValueError "Message content cannot be empty")
  else if MessageRole.eqb role MessageRole.TOOL && negb (opt_truthy tool_call_id) then
    Raised (ValueError "Tool messages must have tool_call_id")
  else Returned (mk role content attachments tool_call_id tool_calls).

Definition is_tool_response (m : t) : bool :=
  MessageRole.eqb (role m) MessageRole.TOOL.

Definition has_attachments (m : t) : bool :=
  (0 <? List.length (attachments m))%nat.
End Message.

(* ================================================================== *)
(** * Client messages ([client_messages.py]) *)

Module ClientAttachment.
Record t : Type := mk { contentType : string; url : string }.
End ClientAttachment.

Module ToolInvocationState.
Inductive t : Type := CALL | PARTIAL_CALL | RESULT.
End ToolInvocationState.

Module ToolInvocation.
Record t : Type :=
  mk { state : ToolInvocationState.t;
       toolCallId : string;
       toolName : string;
       args : JSON;
       result : JSON }.
End ToolInvocation.

Module ClientMessage.
Record t : Type :=
  mk { role : string;
       content : string;
       experimental_attachments : option (list ClientAttachment.t);
       toolInvocations : option (list ToolInvocation.t) }.
End ClientMessage.

(* ================================================================== *)
(** * The message mapper ([message_mapper.py]) *)

Module MessageMapper.
(** [invocation.state in [CALL, RESULT]]. *)
Definition is_call_or_result (s : ToolInvocationState.t) : bool :=
  match s with
  | ToolInvocationState.CALL | ToolInvocationState.RESULT => true
  | ToolInvocationState.PARTIAL_CALL => false
  end.

Definition is_result (s : ToolInvocationState.t) : bool :=
  match s with ToolInvocationState.RESULT => true | _ => false end.

(** The loop that builds [attachments]. *)
Definition attachments_of (cm : ClientMessage.t) : Outcome (list Attachment.t) :=
  for_each (fun att => Attachment.new (ClientAttachment.contentType att)
                                      (ClientAttachment.url att))
           (items_of (ClientMessage.experimental_attachments cm)).

(** The block that builds [tool_calls], and the final
    [tool_calls if tool_calls else None]. *)
Definition tool_calls_of (cm : ClientMessage.t) : Outcome (option (list ToolCall.t)) :=
  if list_truthy (ClientMessage.toolInvocations cm) &&
     String.eqb (ClientMessage.role cm) "assistant" then
    and_then
      (for_each (fun inv => ToolCall.new (ToolInvocation.toolCallId inv)
                                         (ToolInvocation.toolName inv)
                                         (ToolInvocation.args inv))
                (filter (fun inv => is_call_or_result (ToolInvocation.state inv))
                        (items_of (ClientMessage.toolInvocations cm))))
      (fun calls => Returned (match calls with [] => None | _ => Some calls end))
  else Returned None.

(** The loop that appends one tool message per result. *)
Definition results_of (cm : ClientMessage.t) : Outcome (list Message.t) :=
  for_each (fun inv => Message.new MessageRole.TOOL
                                   (Json.dumps (ToolInvocation.result inv))
                                   [] (Some (ToolInvocation.toolCallId inv)) None)
           (filter (fun inv => is_result (ToolInvocation.state inv))
                   (items_of (ClientMessage.toolInvocations cm))).

(** The body of the loop over the client messages: the messages it
    appends. *)
Definition convert_one (cm : ClientMessage.t) : Outcome (list Message.t) :=
  and_then (attachments_of cm) (fun attachments =>
  and_then (tool_calls_of cm) (fun tool_calls =>
  and_then (MessageRole.of_value (ClientMessage.role cm)) (fun role =>
  and_then (Message.new role (ClientMessage.content cm) attachments None tool_calls)
    (fun main =>
  and_then (results_of cm) (fun results =>
  Returned (main :: results)))))).

Fixpoint to_domain (client_messages : list ClientMessage.t) : Outcome (list Message.t) :=
  match client_messages with
  | [] => Returned []
  | cm :: rest =>
      and_then (convert_one cm) (fun ms =>
      and_then (to_domain rest) (fun more => Returned (ms ++ more)))
  end.
End MessageMapper.

(* ================================================================== *)
(** * The OpenAI adapter ([openai_adapter.py]): message conversion *)

Module OpenAILLMAdapter.
(** [s.startswith(p)]. *)
Fixpoint startswith (p s : string) : bool :=
  match p, s with
  | EmptyString, _ => true
  | String a p', String b s' => Ascii.eqb a b && startswith p' s'
  | String _ _, EmptyString => false
  end.

Definition opt_str (o : option string) : JSON :=
  match o with Some s => JStr (py s) | None => JNull end.

(** One entry of the [tool_calls] list of an assistant message. *)
Definition convert_tool_call (tc : ToolCall.t) : JSON :=
  JObj [(py "id", JStr (py (ToolCall.id tc)));
        (py "type", JStr (py "function"));
        (py "function",
         JObj [(py "name", JStr (py (ToolCall.name tc)));
               (py "arguments",
                match ToolCall.arguments tc with
                | JStr s => JStr s
                | other => JStr (py (Json.dumps other))
                end)])].

Definition image_part (a : Attachment.t) : JSON :=
  JObj [(py "type", JStr (py "image_url"));
        (py "image_url", JObj [(py "url", JStr (py (Attachment.url a)))])].

(** The body of the loop of [_convert_messages]: the dict it appends. *)
Definition convert_message (msg : Message.t) : JSON :=
  if MessageRole.eqb (Message.role msg) MessageRole.TOOL then
    JObj [(py "role", JStr (py "tool"));
          (py "tool_call_id", opt_str (Message.tool_call_id msg));
          (py "content", JStr (py (Message.content msg)))]
  else if MessageRole.eqb (Message.role msg) MessageRole.ASSISTANT &&
          list_truthy (Message.tool_calls msg) then
    JObj ([(py "role", JStr (py "assistant"));
           (py "tool_calls",
            JArr (map convert_tool_call (items_of (Message.tool_calls msg))))]
          ++ (if str_truthy (Message.content msg)
              then [(py "content", JStr (py (Message.content msg)))]
              else []))
  else
    JObj [(py "role", JStr (py (MessageRole.value (Message.role msg))));
          (py "content",
           JArr (JObj [(py "type", JStr (py "text"));
                       (py "text", JStr (py (Message.content msg)))]
                 :: map image_part
                      (filter (fun a => startswith "image" (Attachment.content_type a))
                              (Message.attachments msg))))].

Definition _convert_messages (messages : list Message.t) : list JSON :=
  map convert_message messages.
End OpenAILLMAdapter.

(* ================================================================== *)
(** * The chat router ([chat.py]) *)

Module ChatRouter.
(** [stream_events]: the strings yielded to the response during one run of
    the use case, in order, and how the run ended.  An event whose string
    is empty yields nothing.  A string is not always one line of the
    response: see [framed]. *)
Definition stream_events (g : Gen unit) : list string * Outcome unit :=
  (filter str_truthy
     (map VercelStreamProtocolAdapter.format_event (events_of (trace g))),
   outcome g).

(** [handle_chat]: the conversion of the request comes first and may raise
    before anything is streamed; [stream_completion] stands for the
    provider's answer to the converted messages and the registered tools. *)
Definition handle_chat
    (json_loads : string -> option JSON)
    (tools : ToolExecutor.registry)
    (stream_completion : list Message.t -> list ITool.t -> list LLMEvent)
    (request : list ClientMessage.t) : Outcome (list string * Outcome unit) :=
  and_then (MessageMapper.to_domain request) (fun domain_messages =>
  Returned (stream_events
              (execute json_loads (ToolExecutor.execute tools)
                 (stream_completion domain_messages
                    (ToolExecutor.get_registered_tools tools))))).
End ChatRouter.

(* ================================================================== *)
(** * More vocabulary for the statements *)

(** The contents of the text fragments of a provider stream, in order. *)
Fixpoint texts_of_stream (stream : list LLMEvent) : list string :=
  match stream with
  | LLMTextDelta content :: rest => content :: texts_of_stream rest
  | _ :: rest => texts_of_stream rest
  | [] => []
  end.

(** The contents of the [TextDelta] events of a trace, in order. *)
Fixpoint texts_of (tr : list Action) : list string :=
  match tr with
  | Yield (TextDelta content) :: rest => content :: texts_of rest
  | _ :: rest => texts_of rest
  | [] => []
  end.

(** What the fragments of a stream make of the accumulator entry of one
    position, read off the stream alone: a fragment with an id opens a fresh
    entry, a non-empty chunk is appended to the entry at hand, and fragments
    of other positions, text and terminal events leave it alone. *)
Fixpoint entry_after (index : Z) (entry : option ToolData.t)
    (stream : list LLMEvent) : option ToolData.t :=
  match stream with
  | [] => entry
  | LLMToolCallDelta k id name chunk :: rest =>
      if Z.eqb k index then
        let opened :=
          match id with
          | Some i => Some (ToolData.mk i (or_empty name) EmptyString)
          | None => entry
          end in
        let extended :=
          if opt_truthy chunk then
            match opened with
            | Some d => Some (ToolData.mk (ToolData.id d) (ToolData.name d)
                                (ToolData.arguments d ++ or_empty chunk))
            | None => None
            end
          else opened in
        entry_after index extended rest
      else entry_after index entry rest
  | _ :: rest => entry_after index entry rest
  end.

(** The events that have a line on the wire. *)
Definition transmitted (e : StreamEvent) : bool :=
  match e with
  | ToolCallStarted _ _ | ToolCallArgumentChunk _ _ => false
  | _ => true
  end.

(** The tag that opens the line of an event. *)
Definition tag_of (e : StreamEvent) : string :=
  match e with
  | TextDelta _ => "0"
  | ToolCallCompleted _ => "9"
  | ToolResultAvailable _ => "a"
  | CompletionFinished _ _ => "e"
  | _ => EmptyString
  end.

(** The registry after registering the tools of a list, one after the
    other, starting from an empty executor. *)
Definition registry_of (tools : list ITool.t) : ToolExecutor.registry :=
  fold_left (fun r t => ToolExecutor.register_tool t r) tools [].

(** The last tool of a list that carries a given name. *)
Definition last_named (name : string) (tools : list ITool.t) : option ITool.t :=
  find (fun t => String.eqb name (ITool.name t)) (rev tools).

(** The payload of the line of a tool result. *)
Definition tool_result_payload (r : ToolResult.t) : string :=
  q "{'toolCallId':'" ++ ToolResult.call_id r ++
  q "','toolName':'" ++ ToolResult.name r ++
  q "','result':" ++ Json.dumps (ToolResult.result r) ++ "}".

(** The payload of the line of a finished completion. *)
Definition completion_payload (finish_reason : string) (usage : UsageStats.t) : string :=
  q "{'finishReason':'" ++ finish_reason ++
  q "','usage':{'promptTokens':" ++
  Json.string_of_Z (UsageStats.prompt_tokens usage) ++
  q ",'completionTokens':" ++
  Json.string_of_Z (UsageStats.completion_tokens usage) ++
  q "},'isContinued':false}".

(** What follows the tag and the colon on the line of an event, up to the
    newline. *)
Definition payload_of (e : StreamEvent) : string :=
  match e with
  | TextDelta content => Json.dumps (JStr (py content))
  | ToolCallCompleted tc => tool_call_payload tc
  | ToolResultAvailable r => tool_result_payload r
  | CompletionFinished fr u => completion_payload fr u
  | _ => EmptyString
  end.

(** ** Numerals *)

(** The characters that an unsigned decimal is written with. *)
Definition uint_chars (d : Decimal.uint) : list ascii :=
  list_ascii_of_string (NilEmpty.string_of_uint d).

(** What may follow a number without being taken for a part of it. *)
Definition number_end (tail : list ascii) : bool :=
  match tail with
  | [] => true
  | c :: _ =>
      negb (Json.is_digit c) && negb (Ascii.eqb c ".") &&
      negb (Ascii.eqb c "e") && negb (Ascii.eqb c "E")
  end.

(** A numeral that starts with a digit other than zero. *)
Definition lead_nonzero (d : Decimal.uint) : Prop :=
  match d with
  | Decimal.Nil | Decimal.D0 _ => False
  | _ => True
  end.

(** What a client reads on the line of a finished completion. *)
Definition completion_value (finish_reason : string) (usage : UsageStats.t) : JSON :=
  JObj [(py "finishReason", JStr (py finish_reason));
        (py "usage",
         JObj [(py "promptTokens", JInt (UsageStats.prompt_tokens usage));
               (py "completionTokens", JInt (UsageStats.completion_tokens usage))]);
        (py "isContinued", JBool false)].

(** ** The registry *)

(** Every tool is stored under its own name. *)
Definition keyed (r : ToolExecutor.registry) : Prop :=
  Forall (fun kv => fst kv = ITool.name (snd kv)) r.

(** ** Lines and clients *)

(** A text without a line feed. *)
Definition no_newline (s : string) : bool :=
  forallb (fun c => negb (Ascii.eqb c "010")) (list_ascii_of_string s).

(** A code point that stands for a character of text: a Unicode scalar
    value, that is, any code point up to U+10FFFF that is not a
    surrogate. *)
Definition scalar (c : N) : bool :=
  (c <? 1114112)%N && negb ((55296 <=? c)%N && (c <=? 57343)%N).

(** The body of [encode_basestring_ascii]: the replacements of the code
    points of a text, one after the other. *)
Definition escaped_points (s : pystr) : string :=
  fold_right (fun c out => (Json.escape_char c ++ out)%string) EmptyString s.

(** The [TextDelta] branch of [format_event] for a content given by its
    code points, which need not lie below 256. *)
Definition text_line (content : pystr) : string :=
  "0:" ++ Json.dumps (JStr content) ++ VercelStreamProtocolAdapter.newline.

(** A string that is one line: it ends with a line feed and holds no
    other. *)
Definition one_line (s : string) : bool :=
  match rev (list_ascii_of_string s) with
  | c :: body =>
      Ascii.eqb c "010" && forallb (fun c => negb (Ascii.eqb c "010")) body
  | [] => false
  end.

(** No raw line feed in what [format_event] copies or encodes into the
    string of an event. *)
Definition framed (e : StreamEvent) : bool :=
  match e with
  | ToolCallCompleted tc =>
      no_newline (ToolCall.id tc) && no_newline (ToolCall.name tc) &&
      no_newline (Json.dumps (ToolCall.arguments tc))
  | ToolResultAvailable r =>
      no_newline (ToolResult.call_id r) && no_newline (ToolResult.name r) &&
      no_newline (Json.dumps (ToolResult.result r))
  | CompletionFinished finish_reason _ => no_newline finish_reason
  | _ => true
  end.

(** The body of the response: the strings the router yields, one after
    the other. *)
Definition response_body (out : list string) : string :=
  fold_right String.append EmptyString out.

(** The lines of a body, cut at the line feeds, without them. *)
Fixpoint lines_of (body : string) : list string :=
  match body with
  | EmptyString => []
  | String c rest =>
      if Ascii.eqb c "010" then EmptyString :: lines_of rest
      else match lines_of rest with
           | [] => [String c EmptyString]
           | line :: more => String c line :: more
           end
  end.

(** What a client that collects the text of an answer makes of one line:
    the decoded string of a line of kind 0, nothing of any other line. *)
Definition line_text (line : string) : list pystr :=
  match line with
  | String "0" (String ":" payload) =>
      match Json.loads payload with
      | Some (JStr s) => [s]
      | _ => []
      end
  | _ => []
  end.

(** The texts a client reads from a response: the body is cut into lines
    and every line of kind 0 is decoded. *)
Definition client_reads (out : list string) : list pystr :=
  flat_map line_text (lines_of (response_body out)).

(** ** Conversions of messages *)

(** The tool invocations of a client message. *)
Definition invocations_of (cm : ClientMessage.t) : list ToolInvocation.t :=
  items_of (ClientMessage.toolInvocations cm).

(** The invocations of a request that carry a result, in order. *)
Definition result_invocations (cms : list ClientMessage.t) : list ToolInvocation.t :=
  flat_map (fun cm => filter (fun inv => MessageMapper.is_result (ToolInvocation.state inv))
                             (invocations_of cm)) cms.

(** The tool message of an invocation that carries a result. *)
Definition tool_message (inv : ToolInvocation.t) : Message.t :=
  Message.mk MessageRole.TOOL (Json.dumps (ToolInvocation.result inv)) []
             (Some (ToolInvocation.toolCallId inv)) None.

(** The tool call of an invocation. *)
Definition call_of (inv : ToolInvocation.t) : ToolCall.t :=
  ToolCall.mk (ToolInvocation.toolCallId inv) (ToolInvocation.toolName inv)
              (ToolInvocation.args inv).

Definition attachment_of (att : ClientAttachment.t) : Attachment.t :=
  Attachment.mk (ClientAttachment.contentType att) (ClientAttachment.url att).

(** What the validations of the entities guarantee of a message. *)
Definition well_formed (m : Message.t) : Prop :=
  (Message.content m <> EmptyString \/ Message.role m = MessageRole.ASSISTANT) /\
  (Message.role m = MessageRole.TOOL ->
     exists id, Message.tool_call_id m = Some id /\ id <> EmptyString /\
                Message.attachments m = [] /\ Message.tool_calls m = None) /\
  (Message.role m <> MessageRole.TOOL -> Message.tool_call_id m = None) /\
  (forall calls, Message.tool_calls m = Some calls ->
     Message.role m = MessageRole.ASSISTANT /\ calls <> [] /\
     Forall (fun tc => ToolCall.id tc <> EmptyString /\ ToolCall.name tc <> EmptyString)
            calls) /\
  Forall (fun a => Attachment.content_type a <> EmptyString /\
                   Attachment.url a <> EmptyString) (Message.attachments m).

(** The message the provider is sent for a client message without tool
    invocations. *)
Definition provider_message (cm : ClientMessage.t) : JSON :=
  JObj [(py "role", JStr (py (ClientMessage.role cm)));
        (py "content",
         JArr (JObj [(py "type", JStr (py "text"));
                     (py "text", JStr (py (ClientMessage.content cm)))]
               :: map (fun att =>
                         JObj [(py "type", JStr (py "image_url"));
                               (py "image_url",
                                JObj [(py "url", JStr (py (ClientAttachment.url att)))])])
                    (filter (fun att => OpenAILLMAdapter.startswith "image"
                                          (ClientAttachment.contentType att))
                            (items_of (ClientMessage.experimental_attachments cm)))))].

(** The message the provider is sent for the result of an invocation. *)
Definition provider_tool_message (inv : ToolInvocation.t) : JSON :=
  JObj [(py "role", JStr (py "tool"));
        (py "tool_call_id", JStr (py (ToolInvocation.toolCallId inv)));
        (py "content", JStr (py (Json.dumps (ToolInvocation.result inv))))].

(* ================================================================== *)
(** * A sample request *)

Module SampleRequest.
Definition photo : ClientAttachment.t :=
  ClientAttachment.mk "image/png" "https://example.com/sky.png".

Definition notes : ClientAttachment.t :=
  ClientAttachment.mk "text/plain" "https://example.com/notes.txt".

Definition question : ClientMessage.t :=
  ClientMessage.mk "user" "What is the weather in SF?" (Some [photo; notes]) None.

Definition weather_result : ToolInvocation.t :=
  ToolInvocation.mk ToolInvocationState.RESULT "call_1" "get_weather"
                    Sample.sf Sample.reading.

Definition pending : ToolInvocation.t :=
  ToolInvocation.mk ToolInvocationState.PARTIAL_CALL "call_2" "get_weather" JNull JNull.

Definition answer : ClientMessage.t :=
  ClientMessage.mk "assistant" EmptyString None (Some [weather_result; pending]).

Definition conversation : list ClientMessage.t := [question; answer].

(** What the mapper makes of the conversation. *)
Definition messages : list Message.t :=
  [Message.mk MessageRole.USER "What is the weather in SF?"
              [Attachment.mk "image/png" "https://example.com/sky.png";
               Attachment.mk "text/plain" "https://example.com/notes.txt"]
              None None;
   Message.mk MessageRole.ASSISTANT EmptyString [] None
              (Some [ToolCall.mk "call_1" "get_weather" Sample.sf]);
   Message.mk MessageRole.TOOL (Json.dumps Sample.reading) [] (Some "call_1") None].

(** A provider that answers every request with the same two fragments. *)
Definition greeting (_ : list Message.t) (_ : list ITool.t) : list LLMEvent :=
  [LLMTextDelta "Hello"; LLMFinished "stop" 1 2].

(** A call that was started, with all of its argument text. *)
Definition one_entry : dict Z ToolData.t :=
  [(0, ToolData.mk "call_1" "get_weather" (q "{'city':'SF'}"))].
End SampleRequest.

(* ================================================================== *)
(** * Laws of the generator monad *)

Section GenLaws.
Context {A B C : Type}.

Lemma bind_ret_l (a : A) (k : A -> Gen B) : bind (ret a) k = k a.
Proof. unfold bind, ret; simpl. now destruct (k a). Qed.

Lemma bind_raise (e : Exn) (k : A -> Gen B) : bind (raise e) k = raise e.
Proof. reflexivity. Qed.

Lemma bind_returned (m : Gen A) (k : A -> Gen B) (a : A) :
  outcome m = Returned a ->
  bind m k = (trace m ++ trace (k a), outcome (k a)).
Proof. unfold bind, outcome, trace. now intros ->. Qed.

Lemma bind_returned_pair (tr : list Action) (a : A) (k : A -> Gen B) :
  bind (tr, Returned a) k = (tr ++ trace (k a), outcome (k a)).
Proof. reflexivity. Qed.

Lemma bind_raised (m : Gen A) (k : A -> Gen B) (e : Exn) :
  outcome m = Raised e -> bind m k = (trace m, Raised e).
Proof. unfold bind, outcome, trace. now intros ->. Qed.

Lemma bind_assoc (m : Gen A) (k : A -> Gen B) (h : B -> Gen C) :
  bind (bind m k) h = bind m (fun a => bind (k a) h).
Proof.
  destruct m as [tr [a | e]]; unfold bind; simpl; [| reflexivity].
  destruct (k a) as [tr' [b | e']]; simpl; [| reflexivity].
  now rewrite app_assoc.
Qed.

Lemma bind_ext (m : Gen A) (k k' : A -> Gen B) :
  (forall a, k a = k' a) -> bind m k = bind m k'.
Proof.
  intros H. destruct m as [tr [a | e]]; unfold bind; simpl; [| reflexivity].
  now rewrite H.
Qed.

Lemma bind_returned_inv (m : Gen A) (k : A -> Gen B) (b : B) :
  outcome (bind m k) = Returned b ->
  exists a, outcome m = Returned a /\ outcome (k a) = Returned b /\
            trace (bind m k) = trace m ++ trace (k a).
Proof.
  destruct m as [tr [a | e]]; unfold bind, outcome, trace; simpl.
  - intros H. now exists a.
  - discriminate.
Qed.

Lemma trace_bind_incl (m : Gen A) (k : A -> Gen B) (x : Action) :
  In x (trace (bind m k)) ->
  In x (trace m) \/ exists a, outcome m = Returned a /\ In x (trace (k a)).
Proof.
  destruct m as [tr [a | e]]; unfold bind, outcome, trace; simpl.
  - intros H. apply in_app_or in H as [H | H]; [now left | right; now exists a].
  - now left.
Qed.
End GenLaws.

(** Surjective pairing for a piece of generator body. *)
Lemma gen_eta {A} (g : Gen A) : g = (trace g, outcome g).
Proof. now destruct g. Qed.

Lemma append_nil_r (s : string) : (s ++ EmptyString)%string = s.
Proof. induction s as [| c s IH]; simpl; now rewrite ?IH. Qed.

Lemma append_assoc (a b c : string) : ((a ++ b) ++ c)%string = (a ++ (b ++ c))%string.
Proof. induction a as [| x a IH]; simpl; now rewrite ?IH. Qed.

(* ================================================================== *)
(** * Dictionaries *)

Section DictFacts.
Variable V : Type.
Implicit Types (d : dict Z V) (k : Z) (v : V).

Lemma dict_get_set_same k v d : dict_get Z.eqb k (dict_set Z.eqb k v d) = Some v.
Proof.
  induction d as [| [k' v'] d IH]; simpl.
  - now rewrite Z.eqb_refl.
  - destruct (Z.eqb k k') eqn:E; simpl; rewrite E; [reflexivity | exact IH].
Qed.

Lemma dict_get_set_other k k' v d :
  k' <> k -> dict_get Z.eqb k' (dict_set Z.eqb k v d) = dict_get Z.eqb k' d.
Proof.
  intros Hne. induction d as [| [k0 v0] d IH]; simpl.
  - destruct (Z.eqb_spec k' k); [contradiction | reflexivity].
  - destruct (Z.eqb_spec k k0) as [-> | Hk]; simpl.
    + destruct (Z.eqb_spec k' k0); [contradiction | reflexivity].
    + destruct (Z.eqb k' k0); [reflexivity | exact IH].
Qed.

(** A present key is found at a definite place, with no earlier
    occurrence. *)
Lemma dict_get_split k v d :
  dict_get Z.eqb k d = Some v ->
  exists l1 l2, d = l1 ++ (k, v) :: l2 /\ dict_get Z.eqb k l1 = None.
Proof.
  induction d as [| [k0 v0] d IH]; simpl; [discriminate |].
  destruct (Z.eqb_spec k k0) as [-> | Hk].
  - intros [= ->]. now exists [], d.
  - intros H. destruct (IH H) as (l1 & l2 & -> & Hn).
    exists ((k0, v0) :: l1), l2. split; [reflexivity |].
    simpl. destruct (Z.eqb_spec k k0); [contradiction | exact Hn].
Qed.

(** Re-assigning a present key replaces the value where it stands. *)
Lemma dict_set_in_place k v v' l1 l2 :
  dict_get Z.eqb k l1 = None ->
  dict_set Z.eqb k v' (l1 ++ (k, v) :: l2) = l1 ++ (k, v') :: l2.
Proof.
  induction l1 as [| [k0 v0] l1 IH]; simpl.
  - now rewrite Z.eqb_refl.
  - destruct (Z.eqb k k0); [discriminate |].
    intros H. now rewrite IH.
Qed.

Lemma dict_mem_keys k d :
  mem_Z k (dict_keys d) = dict_mem Z.eqb k d.
Proof.
  unfold dict_mem. induction d as [| [k0 v0] d IH]; simpl; [reflexivity |].
  destruct (Z.eqb k k0); [reflexivity | exact IH].
Qed.

Lemma dict_keys_set k v d :
  dict_keys (dict_set Z.eqb k v d) =
  if mem_Z k (dict_keys d) then dict_keys d else dict_keys d ++ [k].
Proof.
  induction d as [| [k0 v0] d IH]; simpl; [reflexivity |].
  destruct (Z.eqb k k0) eqn:E; simpl; [reflexivity |].
  unfold dict_keys in *. rewrite IH.
  now destruct (mem_Z k (map fst d)).
Qed.
End DictFacts.

(* ================================================================== *)
(** * The JSON decoder always answers *)

Module JsonFacts.
Import Json.
Local Open Scope nat_scope.

Lemma skip_ws_length s : (List.length (skip_ws s) <= List.length s)%nat.
Proof.
  induction s as [| c s IH]; simpl; [lia |].
  destruct (is_ws c); simpl; lia.
Qed.

Lemma span_digits_length s :
  (List.length (snd (span_digits s)) <= List.length s)%nat.
Proof.
  induction s as [| c s IH]; simpl; [lia |].
  destruct (is_digit c); simpl; [| lia].
  destruct (span_digits s); simpl in *. lia.
Qed.

Lemma starts_with_length p : forall s r,
  starts_with p s = Some r -> (List.length r + List.length p = List.length s)%nat.
Proof.
  induction p as [| a p IH]; intros s r; simpl.
  - intros [= ->]. lia.
  - destruct s as [| b s]; [discriminate |].
    destruct (Ascii.eqb a b); [| discriminate].
    intros H. apply IH in H. simpl. lia.
Qed.

Lemma decode_uXXXX_length s u r :
  decode_uXXXX s = Some (u, r) -> (List.length r + 4 = List.length s)%nat.
Proof.
  unfold decode_uXXXX.
  destruct s as [| h1 [| h2 [| h3 [| h4 rest]]]]; try discriminate.
  destruct (hex_val h1), (hex_val h2), (hex_val h3), (hex_val h4); try discriminate.
  intros [= _ <-]. simpl. lia.
Qed.

Lemma scan_escape_length s ch r :
  scan_escape s = Some (ch, r) -> (List.length r < List.length s)%nat.
Proof.
  unfold scan_escape. destruct s as [| e rest]; [discriminate |].
  repeat match goal with
         | |- (if ?b then _ else _) = _ -> _ =>
             destruct b; [intros [= _ <-]; simpl; lia |]
         end.
  destruct (Ascii.eqb e "u"); [| discriminate].
  destruct (decode_uXXXX rest) as [[uni rest1] |] eqn:H1; [| discriminate].
  apply decode_uXXXX_length in H1.
  destruct (is_high_surrogate uni); [| intros [= _ <-]; simpl; lia].
  destruct rest1 as [| b [| u rest2]]; try (intros [= _ <-]; simpl in *; lia).
  destruct (Ascii.eqb b "\" && Ascii.eqb u "u"); [| intros [= _ <-]; simpl in *; lia].
  destruct (decode_uXXXX rest2) as [[uni2 rest3] |] eqn:H2; [| discriminate].
  apply decode_uXXXX_length in H2.
  destruct (is_low_surrogate uni2); intros [= _ <-]; simpl in *; lia.
Qed.

Lemma scanstring_progress fuel : forall s chars r,
  scanstring fuel s = Match chars r -> (List.length r < List.length s)%nat.
Proof.
  induction fuel as [| fuel IH]; intros s chars r; simpl; [discriminate |].
  destruct s as [| c rest]; [discriminate |].
  destruct (Ascii.eqb c dquote); [intros [= _ <-]; simpl; lia |].
  destruct (Ascii.eqb c "\").
  - destruct (scan_escape rest) as [[ch rest1] |] eqn:He; [| discriminate].
    apply scan_escape_length in He.
    destruct (scanstring fuel rest1) as [chars' r' | |] eqn:Hs; try discriminate.
    intros [= _ <-]. apply IH in Hs. simpl. lia.
  - destruct (N_of_ascii c <? 32)%N; [discriminate |].
    destruct (scanstring fuel rest) as [chars' r' | |] eqn:Hs; try discriminate.
    intros [= _ <-]. apply IH in Hs. simpl. lia.
Qed.

Lemma scanstring_fuel fuel : forall s,
  (List.length s < fuel)%nat -> scanstring fuel s <> OutOfFuel.
Proof.
  induction fuel as [| fuel IH]; intros s Hlen; [lia |]. simpl.
  destruct s as [| c rest]; [discriminate |]. simpl in Hlen.
  destruct (Ascii.eqb c dquote); [discriminate |].
  destruct (Ascii.eqb c "\").
  - destruct (scan_escape rest) as [[ch rest1] |] eqn:He; [| discriminate].
    apply scan_escape_length in He.
    assert (H : scanstring fuel rest1 <> OutOfFuel) by (apply IH; lia).
    destruct (scanstring fuel rest1); congruence.
  - destruct (N_of_ascii c <? 32)%N; [discriminate |].
    assert (H : scanstring fuel rest <> OutOfFuel) by (apply IH; lia).
    destruct (scanstring fuel rest); congruence.
Qed.

Lemma scan_sign_length s :
  (List.length (snd (scan_sign s)) <= List.length s)%nat.
Proof.
  destruct s as [| c r]; simpl; [lia |]. destruct (Ascii.eqb c "-"); simpl; lia.
Qed.

Lemma scan_integer_length s ds r :
  scan_integer s = Some (ds, r) -> (List.length r < List.length s)%nat.
Proof.
  unfold scan_integer. destruct s as [| c rest]; [discriminate |].
  destruct (Ascii.eqb c "0"); [intros [= _ <-]; simpl; lia |].
  destruct (is_digit c) eqn:Hd; [| discriminate].
  simpl. rewrite Hd. pose proof (span_digits_length rest) as H.
  destruct (span_digits rest). intros [= _ <-]. simpl in *. lia.
Qed.

Lemma scan_frac_length s :
  (List.length (snd (scan_frac s)) <= List.length s)%nat.
Proof.
  unfold scan_frac. destruct s as [| dot r]; simpl; [lia |].
  destruct (Ascii.eqb dot "."); simpl; [| lia].
  pose proof (span_digits_length r) as H.
  destruct (span_digits r) as [[| f fs] r']; simpl in *; lia.
Qed.

Lemma scan_exp_length s :
  (List.length (snd (scan_exp s)) <= List.length s)%nat.
Proof.
  unfold scan_exp. destruct s as [| e r]; simpl; [lia |].
  destruct (Ascii.eqb e "e" || Ascii.eqb e "E"); simpl; [| lia].
  destruct r as [| c r'].
  - simpl. lia.
  - destruct (Ascii.eqb c "-" || Ascii.eqb c "+").
    + pose proof (span_digits_length r') as H.
      destruct (span_digits r') as [[| f fs] r2]; simpl in *; lia.
    + pose proof (span_digits_length (c :: r')) as H.
      destruct (span_digits (c :: r')) as [[| f fs] r2]; simpl in *; lia.
Qed.

Lemma match_number_length s v r :
  match_number s = Some (v, r) -> (List.length r < List.length s)%nat.
Proof.
  unfold match_number.
  pose proof (scan_sign_length s) as H1.
  destruct (scan_sign s) as [sign s1]. simpl in H1.
  destruct (scan_integer s1) as [[ds s2] |] eqn:H2; [| discriminate].
  apply scan_integer_length in H2.
  pose proof (scan_frac_length s2) as H3.
  destruct (scan_frac s2) as [frac s3]. simpl in H3.
  pose proof (scan_exp_length s3) as H4.
  destruct (scan_exp s3) as [exp s4]. simpl in H4.
  destruct frac, exp; intros [= _ <-]; lia.
Qed.

Lemma literal_length name v s v' r :
  name <> EmptyString ->
  literal name v s = Some (v', r) -> (List.length r < List.length s)%nat.
Proof.
  unfold literal. intros Hn.
  destruct (starts_with (list_ascii_of_string name) s) as [rest |] eqn:H; [| discriminate].
  intros [= _ <-]. apply starts_with_length in H.
  destruct name; [contradiction | simpl in H; lia].
Qed.

Lemma scan_atom_progress s v r :
  scan_atom s = Match v r -> (List.length r < List.length s)%nat.
Proof.
  unfold scan_atom, orelse.
  repeat match goal with
         | |- context [literal ?n ?x s] =>
             let H := fresh "H" in
             destruct (literal n x s) as [[? ?] |] eqn:H;
             [apply literal_length in H; [| discriminate];
              intros [= _ <-]; exact H |]
         | |- context [match_number s] =>
             let H := fresh "H" in
             destruct (match_number s) as [[? ?] |] eqn:H;
             [apply match_number_length in H; intros [= _ <-]; exact H |]
         end.
  discriminate.
Qed.

Lemma scan_atom_fuel s : scan_atom s <> OutOfFuel.
Proof. unfold scan_atom. now destruct (orelse _ _) as [[? ?] |]. Qed.

(** Progress and fuel for the three mutually recursive scanners. *)
Lemma scanners_fuel n : forall s,
  (((forall v r, scan_once n s = Match v r -> List.length r < List.length s) /\
   (2 * List.length s + 1 <= n -> scan_once n s <> OutOfFuel)) /\
  ((forall pairs v r, object_members n s pairs = Match v r ->
                      List.length r < List.length s) /\
   (forall pairs, 2 * List.length s + 1 <= n ->
                  object_members n s pairs <> OutOfFuel)) /\
  ((forall values v r, array_items n s values = Match v r ->
                       List.length r < List.length s) /\
   (forall values, 2 * List.length s + 2 <= n ->
                   array_items n s values <> OutOfFuel)))%nat.
Proof.
  induction n as [| n IH]; intros s.
  { repeat split; simpl; intros; try discriminate; lia. }
  split; [| split].
  - (* scan_once *)
    cbn [scan_once]. destruct s as [| c rest]; [split; intros; discriminate |].
    destruct (Ascii.eqb c dquote).
    { pose proof (@scanstring_fuel (List.length (c :: rest)) rest) as Hf.
      destruct (scanstring (List.length (c :: rest)) rest) as [chars r | |] eqn:Hs.
      - apply scanstring_progress in Hs. split; [| discriminate].
        intros v r0 [= _ <-]. simpl. lia.
      - split; intros; discriminate.
      - exfalso. apply Hf; [simpl; lia | reflexivity]. }
    destruct (Ascii.eqb c "{").
    { pose proof (skip_ws_length rest) as Hw.
      destruct (skip_ws rest) as [| c1 r1]; [split; intros; discriminate |].
      simpl in Hw.
      destruct (Ascii.eqb c1 "}").
      { split; [| discriminate]. intros v r [= _ <-]. simpl. lia. }
      destruct (Ascii.eqb c1 dquote); [| split; intros; discriminate].
      destruct (IH r1) as (_ & [Hp Hf] & _). split.
      - intros v r H. apply Hp in H. simpl. lia.
      - intros Hn. apply Hf. simpl in Hn. lia. }
    destruct (Ascii.eqb c "[").
    { pose proof (skip_ws_length rest) as Hw.
      destruct (skip_ws rest) as [| c1 r1]; [split; intros; discriminate |].
      destruct (Ascii.eqb c1 "]").
      { split; [| discriminate]. intros v r [= _ <-]. simpl in *. lia. }
      destruct (IH (c1 :: r1)) as (_ & _ & [Hp Hf]). split.
      - intros v r H. apply Hp in H. simpl in *. lia.
      - intros Hn. apply Hf. simpl in *. lia. }
    split; [apply scan_atom_progress | intros _; apply scan_atom_fuel].
  - (* object_members *)
    cbn [object_members].
    pose proof (@scanstring_fuel (S (List.length s)) s) as Hsf.
    destruct (scanstring (S (List.length s)) s) as [key r | |] eqn:Hs;
      [| split; intros; discriminate | exfalso; apply Hsf; [lia | reflexivity]].
    apply scanstring_progress in Hs.
    pose proof (skip_ws_length r) as Hw.
    destruct (skip_ws r) as [| colon r1]; [split; intros; discriminate |].
    simpl in Hw.
    destruct (Ascii.eqb colon ":"); [| split; intros; discriminate].
    pose proof (skip_ws_length r1) as Hw1.
    destruct (IH (skip_ws r1)) as ([Hp1 Hf1] & _ & _).
    destruct (scan_once n (skip_ws r1)) as [value r2 | |] eqn:Hv.
    + specialize (Hp1 _ _ eq_refl).
      pose proof (skip_ws_length r2) as Hw2.
      destruct (skip_ws r2) as [| c r3]; [split; intros; discriminate |].
      simpl in Hw2.
      destruct (Ascii.eqb c "}").
      { split; [| discriminate]. intros pairs v r0 [= _ <-]. lia. }
      destruct (Ascii.eqb c ","); [| split; intros; discriminate].
      pose proof (skip_ws_length r3) as Hw3.
      destruct (skip_ws r3) as [| q0 r4]; [split; intros; discriminate |].
      simpl in Hw3.
      destruct (Ascii.eqb q0 dquote); [| split; intros; discriminate].
      destruct (IH r4) as (_ & [Hp Hf] & _). split.
      * intros pairs v r0 H. apply Hp in H. lia.
      * intros pairs Hn. apply Hf. lia.
    + split; intros; discriminate.
    + split; [intros; discriminate |].
      intros pairs Hn. exfalso. apply Hf1; [lia | reflexivity].
  - (* array_items *)
    cbn [array_items].
    destruct (IH s) as ([Hp1 Hf1] & _ & _).
    destruct (scan_once n s) as [value r | |] eqn:Hv.
    + specialize (Hp1 _ _ eq_refl).
      pose proof (skip_ws_length r) as Hw.
      destruct (skip_ws r) as [| c r1]; [split; intros; discriminate |].
      simpl in Hw.
      destruct (Ascii.eqb c "]").
      { split; [| discriminate]. intros values v r0 [= _ <-]. lia. }
      destruct (Ascii.eqb c ","); [| split; intros; discriminate].
      pose proof (skip_ws_length r1) as Hw1.
      destruct (IH (skip_ws r1)) as (_ & _ & [Hp Hf]). split.
      * intros values v r0 H. apply Hp in H. lia.
      * intros values Hn. apply Hf. lia.
    + split; intros; discriminate.
    + split; [intros; discriminate |].
      intros values Hn. exfalso. apply Hf1; [lia | reflexivity].
Qed.

(** [decode] always answers: its fuel never runs out. *)
Lemma decode_fuel doc : decode doc <> OutOfFuel.
Proof.
  unfold decode.
  destruct (scanners_fuel (2 * List.length (skip_ws (list_ascii_of_string doc)) + 1)
              (skip_ws (list_ascii_of_string doc))) as ([_ Hf] & _).
  specialize (Hf (le_n _)).
  destruct (scan_once _ _) as [v rest | |]; [| discriminate | congruence].
  destruct (skip_ws rest); discriminate.
Qed.

(** [loads] fails only on a decoding error. *)
Lemma loads_none doc : loads doc = None <-> decode doc = NoMatch.
Proof.
  unfold loads. pose proof (decode_fuel doc) as Hf.
  destruct (decode doc); split; congruence.
Qed.
(** More fuel does not change an answer. *)
Lemma scanners_stable n : forall s,
  ((scan_once n s <> OutOfFuel ->
    forall m, n <= m -> scan_once m s = scan_once n s) /\
   (forall pairs, object_members n s pairs <> OutOfFuel ->
    forall m, n <= m -> object_members m s pairs = object_members n s pairs) /\
   (forall values, array_items n s values <> OutOfFuel ->
    forall m, n <= m -> array_items m s values = array_items n s values))%nat.
Proof.
  induction n as [| n IH]; intros s.
  { repeat split; simpl; intros; congruence. }
  split; [| split].
  - intros H m Hle. destruct m as [| m]; [lia |].
    cbn [scan_once] in *. destruct s as [| c rest]; [reflexivity |].
    destruct (Ascii.eqb c dquote); [reflexivity |].
    destruct (Ascii.eqb c "{").
    { destruct (skip_ws rest) as [| c1 r1]; [reflexivity |].
      destruct (Ascii.eqb c1 "}"); [reflexivity |].
      destruct (Ascii.eqb c1 dquote); [| reflexivity].
      apply (IH r1); [exact H | lia]. }
    destruct (Ascii.eqb c "[").
    { destruct (skip_ws rest) as [| c1 r1]; [reflexivity |].
      destruct (Ascii.eqb c1 "]"); [reflexivity |].
      apply (IH (c1 :: r1)); [exact H | lia]. }
    reflexivity.
  - intros pairs H m Hle. destruct m as [| m]; [lia |].
    cbn [object_members] in *.
    destruct (scanstring (S (List.length s)) s) as [key r | |]; try reflexivity.
    destruct (skip_ws r) as [| colon r1]; [reflexivity |].
    destruct (Ascii.eqb colon ":"); [| reflexivity].
    destruct (IH (skip_ws r1)) as (Hs & _ & _).
    assert (Hne : scan_once n (skip_ws r1) <> OutOfFuel).
    { intros E. rewrite E in H. now apply H. }
    rewrite (Hs Hne m) by lia.
    destruct (scan_once n (skip_ws r1)) as [value r2 | |]; try reflexivity.
    destruct (skip_ws r2) as [| c r3]; [reflexivity |].
    destruct (Ascii.eqb c "}"); [reflexivity |].
    destruct (Ascii.eqb c ","); [| reflexivity].
    destruct (skip_ws r3) as [| q0 r4]; [reflexivity |].
    destruct (Ascii.eqb q0 dquote); [| reflexivity].
    apply (IH r4); [exact H | lia].
  - intros values H m Hle. destruct m as [| m]; [lia |].
    cbn [array_items] in *.
    destruct (IH s) as (Hs & _ & _).
    assert (Hne : scan_once n s <> OutOfFuel).
    { intros E. rewrite E in H. now apply H. }
    rewrite (Hs Hne m) by lia.
    destruct (scan_once n s) as [value r | |]; try reflexivity.
    destruct (skip_ws r) as [| c r1]; [reflexivity |].
    destruct (Ascii.eqb c "]"); [reflexivity |].
    destruct (Ascii.eqb c ","); [| reflexivity].
    apply (IH (skip_ws r1)); [exact H | lia].
Qed.

(** A value scanned with some fuel is what [decode] finds. *)
Lemma decode_scan doc n v r :
  scan_once n (skip_ws (list_ascii_of_string doc)) = Match v r ->
  skip_ws r = [] ->
  decode doc = Match v [].
Proof.
  intros Hs Hr. unfold decode.
  set (s := skip_ws (list_ascii_of_string doc)) in *.
  set (f := (2 * List.length s + 1)%nat).
  destruct (scanners_fuel f s) as ([_ Hf] & _).
  specialize (Hf (le_n _)).
  destruct (scanners_stable n s) as (Hn & _ & _).
  destruct (scanners_stable f s) as (Hm & _ & _).
  assert (E : scan_once f s = Match v r).
  { rewrite <- (Hm Hf (Nat.max n f)) by lia.
    rewrite (Hn ltac:(congruence) (Nat.max n f)) by lia. exact Hs. }
  rewrite E, Hr. reflexivity.
Qed.
End JsonFacts.

(* ================================================================== *)
(** * Entities *)

Lemma str_truthy_false (s : string) : str_truthy s = false <-> s = EmptyString.
Proof. destruct s; simpl; split; congruence. Qed.

Lemma str_truthy_true (s : string) : str_truthy s = true <-> s <> EmptyString.
Proof. destruct s; simpl; split; congruence. Qed.

Lemma or_empty_truthy (o : option string) :
  opt_truthy o = true -> o = Some (or_empty o).
Proof.
  destruct o as [s |]; simpl; [| discriminate].
  now intros ->.
Qed.

Lemma ToolCall_new_returned (id name : string) (arguments : JSON) :
  id <> EmptyString -> name <> EmptyString ->
  ToolCall.new id name arguments = Returned (ToolCall.mk id name arguments).
Proof.
  intros Hi Hn. unfold ToolCall.new.
  apply str_truthy_true in Hi, Hn. now rewrite Hi, Hn.
Qed.

Lemma ToolCall_new_inv (id name : string) (arguments : JSON) (tc : ToolCall.t) :
  ToolCall.new id name arguments = Returned tc ->
  tc = ToolCall.mk id name arguments /\ id <> EmptyString /\ name <> EmptyString.
Proof.
  unfold ToolCall.new.
  destruct (str_truthy id) eqn:Hi; simpl; [| discriminate].
  destruct (str_truthy name) eqn:Hn; simpl; [| discriminate].
  intros [= <-]. repeat split; now apply str_truthy_true.
Qed.

Lemma ToolCall_new_raises (id name : string) (arguments : JSON) :
  (exists e, ToolCall.new id name arguments = Raised e) <->
  id = EmptyString \/ name = EmptyString.
Proof.
  unfold ToolCall.new. split.
  - intros [e H].
    destruct (str_truthy id) eqn:Hi; simpl in H;
      [| left; now apply str_truthy_false].
    destruct (str_truthy name) eqn:Hn; simpl in H;
      [discriminate | right; now apply str_truthy_false].
  - intros [-> | ->]; simpl; [eauto |].
    destruct (str_truthy id); simpl; eauto.
Qed.

(** C10.  [ToolResult] construction raises exactly when [call_id] is empty;
    in particular an empty tool name is accepted, whereas [ToolCall]
    construction raises exactly when its id or its name is empty. *)
Theorem tool_result_rejects_only_empty_call_id :
  (forall (call_id name : string) (result : JSON),
      (exists e, ToolResult.new call_id name result = Raised e) <->
      call_id = EmptyString) /\
  (forall (call_id : string) (result : JSON),
      call_id <> EmptyString ->
      ToolResult.new call_id EmptyString result =
      Returned (ToolResult.mk call_id EmptyString result)) /\
  (forall (id name : string) (arguments : JSON),
      (exists e, ToolCall.new id name arguments = Raised e) <->
      id = EmptyString \/ name = EmptyString).
Proof.
  split; [| split].
  - intros call_id name result. unfold ToolResult.new. split.
    + intros [e H]. destruct (str_truthy call_id) eqn:Hc; simpl in H;
        [discriminate | now apply str_truthy_false].
    + intros ->. simpl. eauto.
  - intros call_id result Hc. unfold ToolResult.new.
    apply str_truthy_true in Hc. now rewrite Hc.
  - exact ToolCall_new_raises.
Qed.

(* ================================================================== *)
(** * The tool executor *)

Lemma ToolExecutor_execute_returned tools tc r :
  ToolExecutor.execute tools tc = Returned r ->
  ToolResult.call_id r = ToolCall.id tc /\ ToolResult.name r = ToolCall.name tc.
Proof.
  unfold ToolExecutor.execute, ToolExecutor.try_body.
  destruct (dict_get String.eqb (ToolCall.name tc) tools) as [tool |]; [| discriminate].
  destruct (ITool.input_schema tool (ToolCall.arguments tc)) as [input | e]; [| discriminate].
  destruct (ITool.execute tool input) as [res | e]; [| discriminate].
  unfold ToolResult.new. destruct (str_truthy (ToolCall.id tc)); simpl; [| discriminate].
  now intros [= <-].
Qed.

(** The executor fails in two ways only: the name is not registered, or
    something raised inside the [try] block. *)
Lemma ToolExecutor_execute_raised tools tc e :
  ToolExecutor.execute tools tc = Raised e ->
  (dict_get String.eqb (ToolCall.name tc) tools = None /\
   exists msg, e = ToolNotFoundError msg) \/
  (exists tool cause,
      dict_get String.eqb (ToolCall.name tc) tools = Some tool /\
      ToolExecutor.try_body tool tc = Raised cause /\
      e = ToolExecutionError (ToolCall.name tc) cause).
Proof.
  unfold ToolExecutor.execute.
  destruct (dict_get String.eqb (ToolCall.name tc) tools) as [tool |].
  - destruct (ToolExecutor.try_body tool tc) as [r | cause] eqn:Hb; [discriminate |].
    intros [= <-]. right. now exists tool, cause.
  - intros [= <-]. left. split; [reflexivity | eauto].
Qed.

(* ================================================================== *)
(** * The use case *)

Section UseCaseFacts.
Variable json_loads : string -> option JSON.
Variable tool_executor : ToolCall.t -> Outcome ToolResult.t.

Notation resolve_one := (resolve_one json_loads tool_executor).
Notation resolve_all := (resolve_all json_loads tool_executor).
Notation on_finished := (on_finished json_loads tool_executor).
Notation step := (step json_loads tool_executor).
Notation run := (run json_loads tool_executor).
Notation execute := (execute json_loads tool_executor).

(** ** Resolving one accumulator entry *)

Lemma resolve_one_ok d args tc r :
  json_loads (ToolData.arguments d) = Some args ->
  ToolCall.new (ToolData.id d) (ToolData.name d) args = Returned tc ->
  tool_executor tc = Returned r ->
  resolve_one d = (pair_trace tc r, Returned tt).
Proof.
  intros Hl Hn He. unfold resolve_one. rewrite Hl.
  unfold bind, lift, yield, await_execute; simpl.
  rewrite Hn; simpl. now rewrite He.
Qed.

Lemma resolve_one_malformed d :
  json_loads (ToolData.arguments d) = None ->
  resolve_one d = ([], Raised (JSONDecodeError (ToolData.arguments d))).
Proof. intros Hl. unfold resolve_one. now rewrite Hl. Qed.

Lemma resolve_one_invalid d args e :
  json_loads (ToolData.arguments d) = Some args ->
  ToolCall.new (ToolData.id d) (ToolData.name d) args = Raised e ->
  resolve_one d = ([], Raised e).
Proof.
  intros Hl Hn. unfold resolve_one. rewrite Hl.
  unfold bind, lift; simpl. now rewrite Hn.
Qed.

Lemma resolve_one_exec_fails d args tc e :
  json_loads (ToolData.arguments d) = Some args ->
  ToolCall.new (ToolData.id d) (ToolData.name d) args = Returned tc ->
  tool_executor tc = Raised e ->
  resolve_one d = ([Yield (ToolCallCompleted tc); Invoke tc], Raised e).
Proof.
  intros Hl Hn He. unfold resolve_one. rewrite Hl.
  unfold bind, lift, yield, await_execute; simpl.
  rewrite Hn; simpl. now rewrite He.
Qed.

Lemma completes_new d args tc :
  json_loads (ToolData.arguments d) = Some args ->
  ToolCall.new (ToolData.id d) (ToolData.name d) args = Returned tc ->
  completes json_loads d tc.
Proof.
  intros Hl Hn. apply ToolCall_new_inv in Hn as (-> & _ & _).
  now repeat split.
Qed.

Lemma resolve_one_cases d : resolution json_loads tool_executor d (resolve_one d).
Proof.
  destruct (json_loads (ToolData.arguments d)) as [args |] eqn:Hl.
  - destruct (ToolCall.new (ToolData.id d) (ToolData.name d) args) as [tc | e] eqn:Hn.
    + destruct (tool_executor tc) as [r | e] eqn:He.
      * rewrite (resolve_one_ok _ Hl Hn He).
        apply res_ok; [eapply completes_new; eauto | exact He].
      * rewrite (resolve_one_exec_fails _ Hl Hn He).
        apply res_exec_fails; [eapply completes_new; eauto | exact He].
    + rewrite (resolve_one_invalid _ Hl Hn). eapply res_invalid; eauto.
  - rewrite (resolve_one_malformed _ Hl). now apply res_malformed.
Qed.

Lemma resolve_one_returned d :
  outcome (resolve_one d) = Returned tt ->
  exists tc r, completes json_loads d tc /\ tool_executor tc = Returned r /\
               resolve_one d = (pair_trace tc r, Returned tt).
Proof.
  intros H. destruct (resolve_one_cases d) as [| | |tc r Hc He];
    try discriminate H.
  now exists tc, r.
Qed.

(** ** Resolving all entries *)

Lemma resolve_all_app ds1 ds2 :
  resolve_all (ds1 ++ ds2) = bind (resolve_all ds1) (fun _ => resolve_all ds2).
Proof.
  induction ds1 as [| d ds1 IH]; simpl.
  - now rewrite bind_ret_l.
  - now rewrite IH, bind_assoc.
Qed.

Lemma resolve_one_actions d : Forall resolving_action (trace (resolve_one d)).
Proof.
  destruct (resolve_one_cases d); simpl; repeat constructor.
Qed.

Lemma resolve_all_actions ds : Forall resolving_action (trace (resolve_all ds)).
Proof.
  induction ds as [| d ds IH]; simpl; [constructor |].
  destruct (outcome (resolve_one d)) as [[] | e] eqn:Ho.
  - rewrite (bind_returned _ _ Ho). simpl.
    apply Forall_app. split; [apply resolve_one_actions | exact IH].
  - rewrite (bind_raised _ _ Ho). simpl. apply resolve_one_actions.
Qed.

(** When every entry resolves, the trace is the sequence of the pairs, one
    per entry, in the order of the entries. *)
Lemma resolve_all_returned ds :
  outcome (resolve_all ds) = Returned tt ->
  exists pairs : list (ToolCall.t * ToolResult.t),
    Forall2 (completes json_loads) ds (map fst pairs) /\
    Forall (fun p => tool_executor (fst p) = Returned (snd p)) pairs /\
    trace (resolve_all ds) = flat_map (fun p => pair_trace (fst p) (snd p)) pairs.
Proof.
  induction ds as [| d ds IH]; simpl.
  - intros _. exists []. repeat split; constructor.
  - intros H. apply bind_returned_inv in H as ([] & H1 & H2 & Htr).
    destruct (resolve_one_returned _ H1) as (tc & r & Hc & He & Heq).
    destruct (IH H2) as (pairs & HF & HE & Ht).
    exists ((tc, r) :: pairs). simpl. split; [| split].
    + now constructor.
    + now constructor.
    + rewrite Htr, Heq, Ht. reflexivity.
Qed.

Lemma completed_of_app tr1 tr2 :
  completed_of (tr1 ++ tr2) = completed_of tr1 ++ completed_of tr2.
Proof.
  induction tr1 as [| a tr1 IH]; simpl; [reflexivity |].
  destruct a as [[] |]; simpl; now rewrite IH.
Qed.

Lemma invoked_of_app tr1 tr2 :
  invoked_of (tr1 ++ tr2) = invoked_of tr1 ++ invoked_of tr2.
Proof.
  induction tr1 as [| a tr1 IH]; simpl; [reflexivity |].
  destruct a as [[] |]; simpl; now rewrite IH.
Qed.

Lemma events_of_app tr1 tr2 :
  events_of (tr1 ++ tr2) = events_of tr1 ++ events_of tr2.
Proof.
  induction tr1 as [| a tr1 IH]; simpl; [reflexivity |].
  destruct a; simpl; now rewrite IH.
Qed.

Lemma completed_of_pairs (pairs : list (ToolCall.t * ToolResult.t)) :
  completed_of (flat_map (fun p => pair_trace (fst p) (snd p)) pairs) = map fst pairs.
Proof. induction pairs as [| p pairs IH]; simpl; now rewrite ?IH. Qed.

Lemma streaming_no_completed tr :
  Forall streaming_action tr -> completed_of tr = [] /\ invoked_of tr = [].
Proof.
  induction 1 as [| a tr Ha _ [IH1 IH2]]; simpl; [now split |].
  destruct a as [[] |]; simpl in *; try contradiction; now split.
Qed.

(** Whatever happens, the calls completed while resolving [ds] belong, one
    each and in order, to the first entries of [ds]. *)
Lemma resolve_all_completed ds :
  exists done rest,
    ds = done ++ rest /\
    Forall2 (completes json_loads) done (completed_of (trace (resolve_all ds))).
Proof.
  induction ds as [| d ds IH]; simpl.
  - exists [], []. split; [reflexivity | constructor].
  - destruct IH as (done & rest & Hds & HF).
    destruct (resolve_one_cases d) as [Hl | args e Hl Hn | tc e Hc He | tc r Hc He].
    + exists [], (d :: ds). split; [reflexivity | constructor].
    + exists [], (d :: ds). split; [reflexivity | constructor].
    + exists [d], ds. split; [reflexivity |]. simpl.
      constructor; [exact Hc | constructor].
    + exists (d :: done), rest. split; [simpl; now rewrite <- Hds |].
      unfold bind; simpl. now constructor.
Qed.

(** ** The terminal event *)

Lemma on_finished_eq acc fr p c :
  on_finished acc fr p c =
  bind (resolve_all (dict_values acc))
       (fun _ => ([Yield (CompletionFinished fr (UsageStats.mk p c (p + c)))],
                  Returned acc)).
Proof. destruct acc; reflexivity. Qed.

Lemma on_finished_returned acc fr p c acc' :
  outcome (on_finished acc fr p c) = Returned acc' ->
  acc' = acc /\ outcome (resolve_all (dict_values acc)) = Returned tt /\
  trace (on_finished acc fr p c) =
  trace (resolve_all (dict_values acc)) ++
  [Yield (CompletionFinished fr (UsageStats.mk p c (p + c)))].
Proof.
  rewrite on_finished_eq. intros H.
  apply bind_returned_inv in H as ([] & H1 & H2 & H3).
  simpl in H2. injection H2 as <-. now repeat split.
Qed.

Lemma on_finished_raised acc fr p c e :
  outcome (resolve_all (dict_values acc)) = Raised e ->
  on_finished acc fr p c = (trace (resolve_all (dict_values acc)), Raised e).
Proof. intros H. rewrite on_finished_eq. now apply bind_raised. Qed.

(** ** The streaming phase *)

Lemma delta_start acc index i name chunk :
  opt_truthy chunk = false ->
  on_tool_call_delta acc index (Some i) name chunk =
  ([Yield (ToolCallStarted i (or_empty name))],
   Returned (dict_set Z.eqb index (ToolData.mk i (or_empty name) EmptyString) acc)).
Proof. intros H. unfold on_tool_call_delta. now rewrite H. Qed.

Lemma delta_chunk acc index name chunk d :
  chunk <> EmptyString ->
  dict_get Z.eqb index acc = Some d ->
  on_tool_call_delta acc index None name (Some chunk) =
  ([Yield (ToolCallArgumentChunk (ToolData.id d) chunk)],
   Returned (dict_set Z.eqb index
               (ToolData.mk (ToolData.id d) (ToolData.name d)
                            (ToolData.arguments d ++ chunk)) acc)).
Proof.
  intros Hc Hg. unfold on_tool_call_delta. simpl.
  apply str_truthy_true in Hc. rewrite Hc.
  unfold bind; simpl. now rewrite Hg.
Qed.

Lemma delta_start_chunk acc index i name chunk :
  chunk <> EmptyString ->
  on_tool_call_delta acc index (Some i) name (Some chunk) =
  ([Yield (ToolCallStarted i (or_empty name)); Yield (ToolCallArgumentChunk i chunk)],
   Returned (dict_set Z.eqb index (ToolData.mk i (or_empty name) chunk)
               (dict_set Z.eqb index (ToolData.mk i (or_empty name) EmptyString) acc))).
Proof.
  intros Hc. unfold on_tool_call_delta. simpl.
  apply str_truthy_true in Hc. rewrite Hc.
  unfold bind; simpl. now rewrite dict_get_set_same.
Qed.

Lemma delta_cases acc index id name chunk :
  (exists tr acc', on_tool_call_delta acc index id name chunk = (tr, Returned acc') /\
                   Forall streaming_action tr /\
                   dict_keys acc' =
                   first_starts_from (dict_keys acc) [LLMToolCallDelta index id name chunk]) \/
  (exists tr, on_tool_call_delta acc index id name chunk = (tr, Raised (KeyError index)) /\
              Forall streaming_action tr).
Proof.
  unfold on_tool_call_delta.
  destruct id as [i |]; simpl.
  - destruct (opt_truthy chunk) eqn:Hc; unfold bind; simpl; rewrite ?Hc.
    + rewrite dict_get_set_same. simpl. left. eexists _, _.
      split; [reflexivity |]. split; [repeat constructor |].
      rewrite !dict_keys_set.
      destruct (mem_Z index (dict_keys acc)) eqn:Hm; rewrite ?Hm; [reflexivity |].
      unfold mem_Z. rewrite existsb_app. simpl. rewrite Z.eqb_refl.
      now rewrite orb_true_r.
    + left. eexists _, _. split; [reflexivity |]. split; [repeat constructor |].
      now rewrite dict_keys_set.
  - destruct (opt_truthy chunk) eqn:Hc; unfold bind; simpl; rewrite ?Hc.
    + destruct (dict_get Z.eqb index acc) as [d |] eqn:Hg; simpl.
      * left. eexists _, _. split; [reflexivity |]. split; [repeat constructor |].
        rewrite dict_keys_set, dict_mem_keys. unfold dict_mem. now rewrite Hg.
      * right. eexists. split; [reflexivity | constructor].
    + left. eexists _, _. split; [reflexivity |]. split; [constructor | reflexivity].
Qed.

Lemma run_app acc s1 s2 :
  run acc (s1 ++ s2) = bind (run acc s1) (fun acc' => run acc' s2).
Proof.
  revert acc. induction s1 as [| ev s1 IH]; intros acc; simpl.
  - now rewrite bind_ret_l.
  - rewrite bind_assoc. apply bind_ext. intros acc1. apply IH.
Qed.

Lemma run_cons acc ev rest :
  run acc (ev :: rest) = bind (step acc ev) (fun acc' => run acc' rest).
Proof. reflexivity. Qed.

Lemma first_starts_from_cons seen ev rest :
  first_starts_from seen (ev :: rest) =
  first_starts_from (first_starts_from seen [ev]) rest.
Proof. destruct ev as [| index [i |] |]; reflexivity. Qed.

Lemma step_cases acc ev :
  is_terminal ev = false ->
  (exists tr acc', step acc ev = (tr, Returned acc') /\
                   Forall streaming_action tr /\
                   dict_keys acc' = first_starts_from (dict_keys acc) [ev]) \/
  (exists tr e, step acc ev = (tr, Raised e) /\ Forall streaming_action tr).
Proof.
  destruct ev as [content | index id name chunk | fr p c]; simpl; [| | discriminate].
  - intros _. left. eexists _, _. split; [reflexivity |].
    split; [repeat constructor | reflexivity].
  - intros _. destruct (delta_cases acc index id name chunk)
      as [(tr & acc' & H & Hs & Hk) | (tr & H & Hs)].
    + left. now exists tr, acc'.
    + right. now exists tr, (KeyError index).
Qed.

(** Before the terminal event only text, starts and chunks are yielded,
    and the keys of the accumulator are the started positions in the order
    of their first start. *)
Lemma run_streaming pre : forall acc,
  Forall (fun ev => is_terminal ev = false) pre ->
  Forall streaming_action (trace (run acc pre)) /\
  forall acc', outcome (run acc pre) = Returned acc' ->
               dict_keys acc' = first_starts_from (dict_keys acc) pre.
Proof.
  induction pre as [| ev pre IH]; intros acc Hpre.
  - simpl. split; [constructor |]. now intros acc' [= <-].
  - inversion Hpre as [| ? ? Hev Hrest]; subst.
    rewrite first_starts_from_cons, run_cons.
    destruct (step_cases acc ev Hev) as [(tr & acc1 & H & Hs & Hk) | (tr & e & H & Hs)];
      rewrite H; unfold bind, trace, outcome; cbn [fst snd].
    + destruct (IH acc1 Hrest) as [IH1 IH2]. split.
      * apply Forall_app. now split.
      * intros acc' Ho. rewrite <- Hk. now apply IH2.
    + split; [exact Hs | discriminate].
Qed.

Lemma in_events_of e tr : In e (events_of tr) <-> In (Yield e) tr.
Proof.
  induction tr as [| a tr IH]; simpl; [tauto |].
  destruct a as [e' | tc]; simpl; rewrite IH; split.
  - intros [-> | H]; auto.
  - intros [[= ->] | H]; auto.
  - auto.
  - intros [H | H]; [discriminate | auto].
Qed.

(** ** Usage accounting *)

Lemma step_completion_finished acc ev fr u :
  In (Yield (CompletionFinished fr u)) (trace (step acc ev)) ->
  exists p c, ev = LLMFinished fr p c /\ u = UsageStats.mk p c (p + c).
Proof.
  destruct ev as [content | index id name chunk | fr' p c].
  - simpl. intros [H | []]. discriminate.
  - intros H. assert (Hs : Forall streaming_action
                             (trace (step acc (LLMToolCallDelta index id name chunk)))).
    { destruct (step_cases acc (LLMToolCallDelta index id name chunk) eq_refl)
        as [(tr & acc' & -> & Hs & _) | (tr & e & -> & Hs)]; exact Hs. }
    rewrite Forall_forall in Hs. destruct (Hs _ H).
  - simpl. rewrite on_finished_eq. intros H.
    apply trace_bind_incl in H as [H | ([] & _ & H)].
    + pose proof (resolve_all_actions (dict_values acc)) as Ha.
      rewrite Forall_forall in Ha. destruct (Ha _ H).
    + simpl in H. destruct H as [[= <- <-] | []]. now exists p, c.
Qed.

Lemma run_completion_finished stream : forall acc fr u,
  In (Yield (CompletionFinished fr u)) (trace (run acc stream)) ->
  exists p c, In (LLMFinished fr p c) stream /\ u = UsageStats.mk p c (p + c).
Proof.
  induction stream as [| ev stream IH]; intros acc fr u; simpl; [intros [] |].
  intros H. apply trace_bind_incl in H as [H | (acc1 & _ & H)].
  - apply step_completion_finished in H as (p & c & -> & ->).
    exists p, c. auto.
  - apply IH in H as (p & c & Hin & ->). exists p, c. auto.
Qed.

Lemma execute_trace stream : trace (execute stream) = trace (run [] stream).
Proof.
  unfold execute. destruct (run [] stream) as [tr [acc | e]];
    unfold bind, trace; simpl; [apply app_nil_r | reflexivity].
Qed.

Lemma execute_outcome stream :
  outcome (execute stream) = Returned tt <->
  exists acc, outcome (run [] stream) = Returned acc.
Proof.
  unfold execute. destruct (run [] stream) as [tr [acc | e]];
    unfold bind, outcome; simpl; split; eauto; try discriminate.
  intros [acc H]. discriminate H.
Qed.

(** C6.  Every [CompletionFinished] the orchestrator emits answers a
    terminal event [LLMFinished fr p c] of the provider stream and carries
    [UsageStats p c (p + c)]; and a terminal event whose tool calls all
    resolve is followed by exactly that event.  The total is computed from
    [p] and [c] alone: a terminal event has no field for a provider total. *)
Theorem completion_usage_total :
  (forall stream fr u,
      In (CompletionFinished fr u) (events_of (trace (execute stream))) ->
      exists p c, In (LLMFinished fr p c) stream /\
                  UsageStats.prompt_tokens u = p /\
                  UsageStats.completion_tokens u = c /\
                  UsageStats.total_tokens u = p + c) /\
  (forall acc fr p c,
      outcome (resolve_all (dict_values acc)) = Returned tt ->
      step acc (LLMFinished fr p c) =
      (trace (resolve_all (dict_values acc)) ++
       [Yield (CompletionFinished fr (UsageStats.mk p c (p + c)))],
       Returned acc)).
Proof.
  split.
  - intros stream fr u H. rewrite in_events_of, execute_trace in H.
    apply run_completion_finished in H as (p & c & Hin & ->).
    exists p, c. now repeat split.
  - intros acc fr p c H. simpl. rewrite on_finished_eq.
    now rewrite (bind_returned _ _ H).
Qed.

(** ** Restarting a position *)

Lemma first_starts_from_extends stream : forall seen,
  exists more, first_starts_from seen stream = seen ++ more.
Proof.
  induction stream as [| ev stream IH]; intros seen.
  - exists []. cbn. now rewrite app_nil_r.
  - destruct ev as [content | k id name chunk | fr p c]; cbn [first_starts_from];
      try apply IH.
    destruct id as [i |]; [| apply IH].
    destruct (mem_Z k seen); [apply IH |].
    destruct (IH (seen ++ [k])) as [more ->]. exists (k :: more).
    now rewrite <- app_assoc.
Qed.

(** Terminal handling that returns has completed and executed one call per
    entry, in the order of the entries. *)
Lemma on_finished_completed acc fr p c acc' :
  outcome (on_finished acc fr p c) = Returned acc' ->
  exists pairs : list (ToolCall.t * ToolResult.t),
    Forall2 (completes json_loads) (dict_values acc) (map fst pairs) /\
    on_finished acc fr p c =
      (flat_map (fun q => pair_trace (fst q) (snd q)) pairs ++
       [Yield (CompletionFinished fr (UsageStats.mk p c (p + c)))],
       Returned acc).
Proof.
  intros H. apply on_finished_returned in H as (_ & Ho & _).
  destruct (resolve_all_returned _ Ho) as (pairs & HF & _ & Ht).
  exists pairs. split; [exact HF |].
  rewrite on_finished_eq, (bind_returned _ _ Ho), Ht. reflexivity.
Qed.

Lemma on_finished_completed_of acc fr p c :
  completed_of (trace (on_finished acc fr p c)) =
  completed_of (trace (resolve_all (dict_values acc))).
Proof.
  rewrite on_finished_eq.
  destruct (resolve_all (dict_values acc)) as [tr [[] | e]]; unfold bind; cbn.
  - rewrite completed_of_app. cbn. apply app_nil_r.
  - reflexivity.
Qed.

(** C8.  A fragment with an id for a position that already has an entry
    replaces the entry where it stands: the new entry has the new id and
    name and no argument text other than the chunk the same fragment may
    carry, a [ToolCallStarted] is yielded again, and the order of the keys
    is unchanged.  Terminal handling meets the position at its original
    place: when it returns, it has yielded and executed, in this order, the
    calls of the entries that stood before the position, then the call of
    the fresh entry (new id and name, arguments parsed from the text
    received since the restart), then the calls of the entries that stood
    after it, and then [CompletionFinished]; when it raises, the calls
    completed so far are those of the first entries in that same order.
    Fragments that arrive between the restart and the terminal event do not
    move the position either: the keys stay where they are, new positions
    go to the end, and a terminal handling that returns completes one call
    per entry in the order of the keys. *)
Theorem restart_replaces_in_place acc index old i name chunk :
  dict_get Z.eqb index acc = Some old ->
  exists l1 l2,
    acc = l1 ++ (index, old) :: l2 /\
    let fresh := ToolData.mk i (or_empty name) (or_empty chunk) in
    let acc' := l1 ++ (index, fresh) :: l2 in
    on_tool_call_delta acc index (Some i) name chunk =
    (Yield (ToolCallStarted i (or_empty name)) ::
     (if opt_truthy chunk then [Yield (ToolCallArgumentChunk i (or_empty chunk))] else []),
     Returned acc') /\
    dict_keys acc' = dict_keys acc /\
    dict_values acc = dict_values l1 ++ old :: dict_values l2 /\
    dict_values acc' = dict_values l1 ++ fresh :: dict_values l2 /\
    (forall fr p c,
      on_finished acc' fr p c =
      bind (resolve_all (dict_values l1 ++ fresh :: dict_values l2))
           (fun _ => ([Yield (CompletionFinished fr (UsageStats.mk p c (p + c)))],
                      Returned acc'))) /\
    (forall fr p c acc'',
       outcome (on_finished acc' fr p c) = Returned acc'' ->
       exists (pairs1 : list (ToolCall.t * ToolResult.t)) tc r
              (pairs2 : list (ToolCall.t * ToolResult.t)),
         Forall2 (completes json_loads) (dict_values l1) (map fst pairs1) /\
         completes json_loads fresh tc /\
         tool_executor tc = Returned r /\
         Forall2 (completes json_loads) (dict_values l2) (map fst pairs2) /\
         on_finished acc' fr p c =
           (flat_map (fun q => pair_trace (fst q) (snd q)) pairs1 ++
            pair_trace tc r ++
            flat_map (fun q => pair_trace (fst q) (snd q)) pairs2 ++
            [Yield (CompletionFinished fr (UsageStats.mk p c (p + c)))],
            Returned acc')) /\
    (forall fr p c,
       exists done rest,
         dict_values l1 ++ fresh :: dict_values l2 = done ++ rest /\
         Forall2 (completes json_loads) done
                 (completed_of (trace (on_finished acc' fr p c)))) /\
    (forall post tr acc2,
       Forall (fun ev => is_terminal ev = false) post ->
       run acc' post = (tr, Returned acc2) ->
       (exists more,
          dict_keys acc2 = dict_keys l1 ++ index :: dict_keys l2 ++ more) /\
       (forall fr p c acc3,
          outcome (on_finished acc2 fr p c) = Returned acc3 ->
          exists pairs : list (ToolCall.t * ToolResult.t),
            Forall2 (completes json_loads) (dict_values acc2) (map fst pairs) /\
            on_finished acc2 fr p c =
              (flat_map (fun q => pair_trace (fst q) (snd q)) pairs ++
               [Yield (CompletionFinished fr (UsageStats.mk p c (p + c)))],
               Returned acc2))).
Proof.
  intros Hg. destruct (dict_get_split _ _ Hg) as (l1 & l2 & -> & Hn).
  exists l1, l2. split; [reflexivity |]. cbv zeta.
  assert (Hv : forall v, dict_values (l1 ++ (index, v) :: l2) =
                         dict_values l1 ++ v :: dict_values l2).
  { intros v. unfold dict_values. now rewrite map_app. }
  assert (Hk : forall v, dict_keys (l1 ++ (index, v) :: l2) =
                         dict_keys l1 ++ index :: dict_keys l2).
  { intros v. unfold dict_keys. now rewrite map_app. }
  set (fresh := ToolData.mk i (or_empty name) (or_empty chunk)).
  set (acc' := l1 ++ (index, fresh) :: l2).
  split; [| split; [| split; [| split; [| split; [| split; [| split]]]]]].
  - unfold acc', fresh. destruct (opt_truthy chunk) eqn:Hc.
    + rewrite (or_empty_truthy _ Hc) at 1.
      assert (Hne : or_empty chunk <> EmptyString).
      { destruct chunk as [s |]; simpl in *; [| discriminate].
        rewrite Hc. now apply str_truthy_true. }
      rewrite (delta_start_chunk _ _ _ _ Hne).
      now rewrite !dict_set_in_place.
    + rewrite (delta_start _ _ _ _ _ Hc).
      rewrite dict_set_in_place by exact Hn.
      destruct chunk as [s |]; simpl in *; [now rewrite Hc | reflexivity].
  - unfold acc'. now rewrite !Hk.
  - apply Hv.
  - apply Hv.
  - intros fr p c. unfold acc'. now rewrite on_finished_eq, Hv.
  - intros fr p c acc'' H.
    apply on_finished_returned in H as (_ & Ho & _).
    unfold acc' in Ho. rewrite Hv, resolve_all_app in Ho.
    apply bind_returned_inv in Ho as ([] & Ho1 & Ho2 & _).
    cbn [resolve_all] in Ho2.
    apply bind_returned_inv in Ho2 as ([] & Hone & Ho3 & _).
    destruct (resolve_all_returned _ Ho1) as (pairs1 & HF1 & _ & Ht1).
    destruct (resolve_one_returned _ Hone) as (tc & r & Hc & He & Hr).
    destruct (resolve_all_returned _ Ho3) as (pairs2 & HF2 & _ & Ht2).
    exists pairs1, tc, r, pairs2.
    split; [exact HF1 |]. split; [exact Hc |]. split; [exact He |].
    split; [exact HF2 |].
    assert (E1 : resolve_all (dict_values l1) =
                 (flat_map (fun q => pair_trace (fst q) (snd q)) pairs1, Returned tt)).
    { rewrite (gen_eta (resolve_all (dict_values l1))). now rewrite Ho1, Ht1. }
    assert (E2 : resolve_all (dict_values l2) =
                 (flat_map (fun q => pair_trace (fst q) (snd q)) pairs2, Returned tt)).
    { rewrite (gen_eta (resolve_all (dict_values l2))). now rewrite Ho3, Ht2. }
    rewrite on_finished_eq. unfold acc' at 1. rewrite Hv, resolve_all_app.
    cbn [resolve_all]. rewrite E1, Hr, E2.
    unfold bind; cbn [fst snd]. now rewrite <- !app_assoc.
  - intros fr p c. rewrite on_finished_completed_of.
    unfold acc'. rewrite Hv.
    destruct (resolve_all_completed
                (dict_values l1 ++ fresh :: dict_values l2)) as (done & rest & Hd & HF).
    now exists done, rest.
  - intros post tr acc2 Hpost Hrun. split.
    + destruct (@run_streaming post acc' Hpost) as [_ Hks].
      rewrite Hrun in Hks. specialize (Hks acc2 eq_refl).
      destruct (first_starts_from_extends post (dict_keys acc')) as [more Hm].
      exists more. rewrite Hks, Hm. unfold acc'. rewrite Hk.
      now rewrite <- app_assoc.
    + intros fr p c acc3 H. now apply on_finished_completed in H.
Qed.

(** ** Terminal handling is sequential *)




(** ** A stream that ends with its terminal event *)

Lemma run_terminal acc fr p c :
  run acc [LLMFinished fr p c] = on_finished acc fr p c.
Proof.
  simpl. destruct (on_finished acc fr p c) as [tr [acc' | e]];
    unfold bind; simpl; [now rewrite app_nil_r | reflexivity].
Qed.

Lemma execute_split pre fr p c tr_pre acc :
  run [] pre = (tr_pre, Returned acc) ->
  trace (execute (pre ++ [LLMFinished fr p c])) =
    tr_pre ++ trace (on_finished acc fr p c) /\
  (outcome (execute (pre ++ [LLMFinished fr p c])) = Returned tt <->
   outcome (resolve_all (dict_values acc)) = Returned tt).
Proof.
  intros Hpre. rewrite execute_trace, execute_outcome, run_app, Hpre.
  rewrite bind_returned_pair.
  cbn [trace outcome fst snd]. rewrite run_terminal.
  split; [reflexivity |]. split.
  - intros [acc' H]. now apply on_finished_returned in H as (_ & H & _).
  - intros H. exists acc. rewrite on_finished_eq, (bind_returned _ _ H).
    reflexivity.
Qed.

Lemma execute_pre_raised pre fr p c tr_pre e :
  run [] pre = (tr_pre, Raised e) ->
  execute (pre ++ [LLMFinished fr p c]) = (tr_pre, Raised e).
Proof.
  intros Hpre. unfold execute. rewrite run_app, Hpre. reflexivity.
Qed.

Lemma first_starts_from_NoDup stream : forall seen,
  NoDup seen -> NoDup (first_starts_from seen stream).
Proof.
  induction stream as [| ev stream IH]; intros seen Hs; [exact Hs |].
  destruct ev as [| index [i |] |]; simpl; try now apply IH.
  apply IH. destruct (mem_Z index seen) eqn:Hm; [exact Hs |].
  apply NoDup_app; [exact Hs | repeat constructor; intros [] |].
  intros x Hx [<- | []]. unfold mem_Z in Hm.
  assert (existsb (Z.eqb index) seen = true); [| congruence].
  apply existsb_exists. exists index. split; [exact Hx | apply Z.eqb_refl].
Qed.

(** Runs that complete.  In an orchestration that runs to completion on a
    stream ending with its terminal event, the accumulator holds exactly
    the positions that received a start fragment, each once, in the order
    of their first start, and terminal handling fires one
    [ToolCallCompleted] per position, in that order and after every event
    of the streaming phase, each carrying the id and name recorded for the
    position and the parse of its accumulated argument text. *)
Theorem completed_once_per_started_position pre fr p c :
  Forall (fun ev => is_terminal ev = false) pre ->
  outcome (execute (pre ++ [LLMFinished fr p c])) = Returned tt ->
  exists tr_pre acc (pairs : list (ToolCall.t * ToolResult.t)),
    run [] pre = (tr_pre, Returned acc) /\
    dict_keys acc = first_starts pre /\
    NoDup (first_starts pre) /\
    Forall2 (completes json_loads) (dict_values acc) (map fst pairs) /\
    trace (execute (pre ++ [LLMFinished fr p c])) =
      tr_pre ++ flat_map (fun q => pair_trace (fst q) (snd q)) pairs ++
      [Yield (CompletionFinished fr (UsageStats.mk p c (p + c)))] /\
    completed_of tr_pre = [] /\
    completed_of (trace (execute (pre ++ [LLMFinished fr p c]))) = map fst pairs /\
    List.length (completed_of (trace (execute (pre ++ [LLMFinished fr p c])))) =
      List.length (first_starts pre).
Proof.
  intros Hpre Hout.
  destruct (run [] pre) as [tr_pre [acc | e]] eqn:Hrun.
  2:{ rewrite (execute_pre_raised _ _ _ _ Hrun) in Hout. discriminate. }
  destruct (@execute_split pre fr p c tr_pre acc Hrun) as [Htr Ho].
  apply Ho in Hout. clear Ho.
  destruct (resolve_all_returned _ Hout) as (pairs & HF & HE & Ht).
  destruct (run_streaming [] Hpre) as [Hs Hk].
  rewrite Hrun in Hs, Hk. cbn [trace outcome fst snd] in Hs, Hk.
  specialize (Hk acc eq_refl). cbn [dict_keys map] in Hk.
  destruct (streaming_no_completed Hs) as [Hc0 _].
  assert (Htr' : trace (execute (pre ++ [LLMFinished fr p c])) =
                 tr_pre ++ flat_map (fun q => pair_trace (fst q) (snd q)) pairs ++
                 [Yield (CompletionFinished fr (UsageStats.mk p c (p + c)))]).
  { rewrite Htr, on_finished_eq, (bind_returned _ _ Hout), Ht. reflexivity. }
  assert (Hc : completed_of (trace (execute (pre ++ [LLMFinished fr p c]))) =
               map fst pairs).
  { rewrite Htr', !completed_of_app, Hc0, completed_of_pairs. simpl.
    apply app_nil_r. }
  exists tr_pre, acc, pairs. repeat split; try assumption.
  - apply first_starts_from_NoDup. constructor.
  - rewrite Hc. unfold first_starts. rewrite <- Hk.
    apply Forall2_length in HF. rewrite <- HF.
    unfold dict_keys, dict_values. now rewrite !length_map.
Qed.


(** ** Failures during terminal handling *)

Lemma execute_at_terminal pre fr p c post tr_pre acc tr e :
  run [] pre = (tr_pre, Returned acc) ->
  resolve_all (dict_values acc) = (tr, Raised e) ->
  execute (pre ++ LLMFinished fr p c :: post) = (tr_pre ++ tr, Raised e).
Proof.
  intros Hpre Hres. unfold execute. rewrite run_app, Hpre.
  rewrite bind_returned_pair.
  cbn [trace outcome fst snd]. rewrite run_cons. cbn [step].
  rewrite (@on_finished_raised acc fr p c e) by now rewrite Hres.
  rewrite Hres. reflexivity.
Qed.

(** C4.  If, when the terminal event is handled, the argument text of an
    accumulator entry does not parse, the orchestration ends with an
    exception and yields nothing for that entry or after it: the trace is
    the trace up to the terminal event followed by what resolving the
    entries before it produced (completed calls, executions and results of
    those entries only, hence no [CompletionFinished]); when those entries
    all resolve, the exception is the decoding error of that entry. *)
Theorem malformed_arguments_abort pre fr p c post tr_pre acc good bad rest :
  run [] pre = (tr_pre, Returned acc) ->
  dict_values acc = good ++ bad :: rest ->
  json_loads (ToolData.arguments bad) = None ->
  exists e,
    execute (pre ++ LLMFinished fr p c :: post) =
      (tr_pre ++ trace (resolve_all good), Raised e) /\
    (outcome (resolve_all good) = Returned tt ->
     e = JSONDecodeError (ToolData.arguments bad)) /\
    Forall resolving_action (trace (resolve_all good)) /\
    (exists done more,
        good = done ++ more /\
        Forall2 (completes json_loads) done
                (completed_of (trace (resolve_all good)))) /\
    (forall tc, ~ completes json_loads bad tc).
Proof.
  intros Hpre Hvals Hbad.
  assert (Hres : exists e,
             resolve_all (dict_values acc) = (trace (resolve_all good), Raised e) /\
             (outcome (resolve_all good) = Returned tt ->
              e = JSONDecodeError (ToolData.arguments bad))).
  { rewrite Hvals, resolve_all_app.
    destruct (outcome (resolve_all good)) as [[] | e] eqn:Ho.
    - rewrite (bind_returned _ _ Ho). cbn [resolve_all].
      rewrite (resolve_one_malformed _ Hbad). unfold bind. cbn [fst snd trace outcome].
      rewrite app_nil_r. eexists. split; [reflexivity | reflexivity].
    - rewrite (bind_raised _ _ Ho). exists e. split; [reflexivity | discriminate]. }
  destruct Hres as (e & Hres & He). exists e.
  split; [now apply execute_at_terminal with (acc := acc) |].
  split; [exact He |].
  split; [apply resolve_all_actions |].
  split; [apply resolve_all_completed |].
  intros tc (_ & _ & H). congruence.
Qed.

(** The executor port raising on a call ends the orchestration right after
    that call's [ToolCallCompleted]. *)
Lemma executor_failure_aborts pre fr p c post tr_pre acc good d rest args tc e :
  run [] pre = (tr_pre, Returned acc) ->
  dict_values acc = good ++ d :: rest ->
  outcome (resolve_all good) = Returned tt ->
  json_loads (ToolData.arguments d) = Some args ->
  ToolCall.new (ToolData.id d) (ToolData.name d) args = Returned tc ->
  tool_executor tc = Raised e ->
  execute (pre ++ LLMFinished fr p c :: post) =
    (tr_pre ++ trace (resolve_all good) ++ [Yield (ToolCallCompleted tc); Invoke tc],
     Raised e).
Proof.
  intros Hpre Hvals Hgood Hl Hn He.
  rewrite app_assoc. rewrite <- (app_assoc tr_pre).
  apply execute_at_terminal with (acc := acc); [exact Hpre |].
  rewrite Hvals, resolve_all_app, (bind_returned _ _ Hgood). cbn [resolve_all].
  rewrite (resolve_one_exec_fails _ Hl Hn He). reflexivity.
Qed.

(** ** One tool call *)

Lemma run_chunks index i n chunks : forall a,
  Forall (fun ch => ch <> EmptyString) chunks ->
  run [(index, ToolData.mk i n a)] (map (chunk_fragment index) chunks) =
  (map (fun ch => Yield (ToolCallArgumentChunk i ch)) chunks,
   Returned [(index, ToolData.mk i n (a ++ concat_chunks chunks))]).
Proof.
  induction chunks as [| ch chunks IH]; intros a Hne.
  - simpl. now rewrite append_nil_r.
  - inversion Hne as [| ? ? Hch Hrest]; subst.
    cbn [map]. rewrite run_cons. unfold chunk_fragment at 1. cbn [step].
    rewrite (@delta_chunk _ index None ch (ToolData.mk i n a) Hch)
      by (simpl; now rewrite Z.eqb_refl).
    cbn [dict_set ToolData.id ToolData.name ToolData.arguments].
    rewrite Z.eqb_refl.
    rewrite bind_returned_pair. cbn [trace outcome fst snd].
    rewrite (IH _ Hrest). cbn [fst snd concat_chunks fold_right app].
    now rewrite append_assoc.
Qed.

Lemma single_call_trace index i name chunks args tc r fr p c :
  name <> EmptyString ->
  Forall (fun ch => ch <> EmptyString) chunks ->
  json_loads (concat_chunks chunks) = Some args ->
  ToolCall.new i name args = Returned tc ->
  tool_executor tc = Returned r ->
  execute (LLMToolCallDelta index (Some i) (Some name) None ::
           map (chunk_fragment index) chunks ++ [LLMFinished fr p c]) =
  (Yield (ToolCallStarted i name) ::
   map (fun ch => Yield (ToolCallArgumentChunk i ch)) chunks ++
   pair_trace tc r ++ [Yield (CompletionFinished fr (UsageStats.mk p c (p + c)))],
   Returned tt).
Proof.
  intros Hname Hne Hl Hn He.
  assert (Hor : or_empty (Some name) = name).
  { simpl. apply str_truthy_true in Hname. now rewrite Hname. }
  unfold execute. rewrite run_cons. cbn [step].
  rewrite delta_start by reflexivity. rewrite Hor. cbn [dict_set].
  rewrite bind_returned_pair. cbn [trace outcome fst snd].
  rewrite run_app, (@run_chunks index i name chunks EmptyString Hne).
  cbn [String.append].
  rewrite bind_returned_pair. cbn [trace outcome fst snd].
  rewrite run_terminal, on_finished_eq. cbn [dict_values map snd resolve_all].
  rewrite (@resolve_one_ok _ args tc r) by assumption.
  unfold bind. cbn [fst snd app]. rewrite !app_nil_r. reflexivity.
Qed.
End UseCaseFacts.

(** C9.  [UsageStats] does not enforce [total_tokens = prompt_tokens +
    completion_tokens]: for all integers [p], [c], [t] the construction
    succeeds and stores the three values as given, also when [t] differs
    from [p + c] (such values exist for every [p] and [c]).  The relation
    holds for the instances the orchestrator builds: every usage carried by
    a [CompletionFinished] it emits satisfies it. *)
Theorem usage_stats_unchecked :
  (forall p c t : Z,
      exists u, UsageStats.new p c t = Returned u /\
                UsageStats.prompt_tokens u = p /\
                UsageStats.completion_tokens u = c /\
                UsageStats.total_tokens u = t) /\
  (forall p c : Z,
      exists t u, t <> p + c /\ UsageStats.new p c t = Returned u /\
                  UsageStats.total_tokens u <>
                  UsageStats.prompt_tokens u + UsageStats.completion_tokens u) /\
  (forall json_loads tool_executor stream fr u,
      In (CompletionFinished fr u)
         (events_of (trace (execute json_loads tool_executor stream))) ->
      UsageStats.total_tokens u =
      UsageStats.prompt_tokens u + UsageStats.completion_tokens u).
Proof.
  split; [| split].
  - intros p c t. exists (UsageStats.mk p c t). now repeat split.
  - intros p c. exists (p + c + 1), (UsageStats.mk p c (p + c + 1)).
    simpl. repeat split; lia.
  - intros json_loads tool_executor stream fr u H.
    rewrite in_events_of, execute_trace in H.
    now apply run_completion_finished in H as (p & c & _ & ->).
Qed.

(** C1 (as amended).  A stream made of one start fragment at position 0 with id
    [call_1] and a name, then fragments carrying the non-empty chunks
    [chunks] for position 0, then the terminal event, yields exactly:
    [ToolCallStarted], one [ToolCallArgumentChunk] per chunk with the same
    id and the chunk's text, in order, [ToolCallCompleted] with the parse of
    the concatenated chunks, [ToolResultAvailable] for [call_1], and one
    [CompletionFinished] -- provided the concatenation is well-formed and
    the executor returns a result for the call. *)
Theorem single_tool_call_sequence json_loads tools name chunks args r fr p c :
  name <> EmptyString ->
  Forall (fun ch => ch <> EmptyString) chunks ->
  json_loads (concat_chunks chunks) = Some args ->
  ToolExecutor.execute tools (ToolCall.mk "call_1" name args) = Returned r ->
  let g := execute json_loads (ToolExecutor.execute tools)
             (LLMToolCallDelta 0 (Some "call_1") (Some name) None ::
              map (chunk_fragment 0) chunks ++ [LLMFinished fr p c]) in
  events_of (trace g) =
    ToolCallStarted "call_1" name ::
    map (ToolCallArgumentChunk "call_1") chunks ++
    [ToolCallCompleted (ToolCall.mk "call_1" name args);
     ToolResultAvailable r;
     CompletionFinished fr (UsageStats.mk p c (p + c))] /\
  ToolResult.call_id r = "call_1" /\
  outcome g = Returned tt.
Proof.
  intros Hname Hne Hl He g. subst g.
  assert (Hid : "call_1" <> EmptyString) by discriminate.
  rewrite (@single_call_trace json_loads (ToolExecutor.execute tools)
             0 "call_1" name chunks args _ r fr p c Hname Hne Hl
             (@ToolCall_new_returned "call_1" name args Hid Hname) He).
  cbn [trace outcome fst snd]. split; [| split; [| reflexivity]].
  - cbn [events_of]. f_equal. rewrite events_of_app.
    f_equal. clear. induction chunks as [| ch chunks IH]; [reflexivity |].
    cbn [map events_of]. now rewrite IH.
  - now apply ToolExecutor_execute_returned in He as [-> _].
Qed.

(** C5.  If the executor fails on a tool call (its name is not registered,
    or something raises while the tool validates its input or runs), the
    orchestration ends there with that exception: the call's
    [ToolCallCompleted] and the start of its execution are the last things
    in the trace, so the call has no [ToolResultAvailable], no later call
    is handed to the executor, and no [CompletionFinished] is yielded. *)
Theorem tool_failure_aborts json_loads tools
    pre fr p c post tr_pre acc good d rest args tc e :
  let executor := ToolExecutor.execute tools in
  run json_loads executor [] pre = (tr_pre, Returned acc) ->
  dict_values acc = good ++ d :: rest ->
  outcome (resolve_all json_loads executor good) = Returned tt ->
  json_loads (ToolData.arguments d) = Some args ->
  ToolCall.new (ToolData.id d) (ToolData.name d) args = Returned tc ->
  ToolExecutor.execute tools tc = Raised e ->
  let g := execute json_loads executor (pre ++ LLMFinished fr p c :: post) in
  g = (tr_pre ++ trace (resolve_all json_loads executor good) ++
       [Yield (ToolCallCompleted tc); Invoke tc], Raised e) /\
  invoked_of (trace g) =
    invoked_of tr_pre ++
    invoked_of (trace (resolve_all json_loads executor good)) ++ [tc] /\
  ((dict_get String.eqb (ToolCall.name tc) tools = None /\
    exists msg, e = ToolNotFoundError msg) \/
   (exists tool cause,
       dict_get String.eqb (ToolCall.name tc) tools = Some tool /\
       ToolExecutor.try_body tool tc = Raised cause /\
       e = ToolExecutionError (ToolCall.name tc) cause)).
Proof.
  intros executor Hpre Hvals Hgood Hl Hn He g.
  assert (Hg : g = (tr_pre ++ trace (resolve_all json_loads executor good) ++
                    [Yield (ToolCallCompleted tc); Invoke tc], Raised e)).
  { subst g. eapply executor_failure_aborts; eauto. }
  split; [exact Hg |]. split.
  - rewrite Hg. cbn [trace fst]. now rewrite !invoked_of_app.
  - now apply ToolExecutor_execute_raised.
Qed.

(* ================================================================== *)
(** * The formatter *)

Module FormatFacts.
Import Json JsonFacts.
Local Open Scope nat_scope.

Lemma chars_app (a b : string) :
  list_ascii_of_string (a ++ b) = list_ascii_of_string a ++ list_ascii_of_string b.
Proof. induction a as [| c a IH]; simpl; now rewrite ?IH. Qed.

Lemma length_append (a b : string) :
  String.length (a ++ b) = (String.length a + String.length b)%nat.
Proof. induction a as [| c a IH]; simpl; now rewrite ?IH. Qed.

Lemma substring_prefix (a b : string) :
  substring 0 (String.length a) (a ++ b) = a.
Proof.
  induction a as [| c a IH]; simpl.
  - now destruct b.
  - now rewrite IH.
Qed.

Lemma scanstring_plain s : forall fuel tail,
  plain s = true ->
  (List.length (list_ascii_of_string s) < fuel)%nat ->
  scanstring fuel (list_ascii_of_string s ++ dquote :: tail) = Match (py s) tail.
Proof.
  induction s as [| c s IH]; intros fuel tail Hp Hlen; simpl in *.
  - destruct fuel; [lia |]. simpl. reflexivity.
  - destruct fuel; [lia |]. simpl.
    apply andb_true_iff in Hp as [Hc Hs].
    unfold plain_char in Hc.
    apply andb_true_iff in Hc as [Hc H3]. apply andb_true_iff in Hc as [H1 H2].
    apply negb_true_iff in H1, H2, H3. rewrite H1, H2, H3.
    rewrite IH by (assumption || lia). reflexivity.
Qed.

Lemma payload_format tc :
  VercelStreamProtocolAdapter.payload
    (VercelStreamProtocolAdapter.format_event (ToolCallCompleted tc)) =
  tool_call_payload tc.
Proof.
  unfold VercelStreamProtocolAdapter.payload, VercelStreamProtocolAdapter.format_event.
  set (body := tool_call_payload tc).
  assert (E : (q "9:{'toolCallId':'" ++ ToolCall.id tc ++
               q "','toolName':'" ++ ToolCall.name tc ++
               q "','args':" ++ Json.dumps (ToolCall.arguments tc) ++ "}" ++
               VercelStreamProtocolAdapter.newline)%string =
              String "9" (String ":" (body ++ VercelStreamProtocolAdapter.newline))).
  { unfold body, tool_call_payload. simpl.
    repeat (rewrite !append_assoc; simpl). reflexivity. }
  rewrite E. cbn [String.length substring].
  rewrite length_append. cbn [VercelStreamProtocolAdapter.newline String.length].
  replace (S (S (String.length body + 1)) - 3)%nat with (String.length body) by lia.
  apply substring_prefix.
Qed.


Lemma skip_ws_head c s : is_ws c = false -> skip_ws (c :: s) = c :: s.
Proof. intros H. simpl. now rewrite H. Qed.

Lemma is_ws_cases c :
  is_ws c = true -> c = " "%char \/ c = "009"%char \/ c = "010"%char \/ c = "013"%char.
Proof.
  unfold is_ws. rewrite !orb_true_iff, !Ascii.eqb_eq. tauto.
Qed.

(** A value never starts with white space. *)
Lemma scan_once_no_ws n s v r : scan_once n s = Match v r -> skip_ws s = s.
Proof.
  destruct s as [| c rest]; [reflexivity |].
  destruct (is_ws c) eqn:Hw; [| intros _; now apply skip_ws_head].
  destruct n as [| n]; [discriminate |].
  apply is_ws_cases in Hw as [-> | [-> | [-> | ->]]]; discriminate.
Qed.

Lemma scan_string_value f v tail :
  plain v = true ->
  scan_once (S f) (dquote :: list_ascii_of_string v ++ dquote :: tail) =
  Match (JStr (py v)) tail.
Proof.
  intros Hp. cbn [scan_once]. rewrite Ascii.eqb_refl.
  rewrite scanstring_plain; [reflexivity | exact Hp |].
  cbn [List.length]. rewrite length_app. lia.
Qed.

(** One member whose value is a plain string, followed by another member. *)
Lemma object_member_string f k v rest pairs :
  plain k = true -> plain v = true ->
  object_members (S (S f))
    (list_ascii_of_string k ++ dquote :: ":"%char :: dquote ::
     list_ascii_of_string v ++ dquote :: ","%char :: dquote :: rest) pairs =
  object_members (S f) rest (pairs ++ [(py k, JStr (py v))]).
Proof.
  intros Hk Hv. cbn [object_members].
  rewrite scanstring_plain; [| exact Hk | rewrite length_app; lia].
  rewrite (@skip_ws_head ":"%char) by reflexivity.
  rewrite Ascii.eqb_refl.
  rewrite (@skip_ws_head dquote) by reflexivity.
  rewrite scan_string_value by exact Hv.
  rewrite (@skip_ws_head ","%char) by reflexivity.
  replace (Ascii.eqb ","%char "}"%char) with false by reflexivity.
  rewrite Ascii.eqb_refl.
  rewrite (@skip_ws_head dquote) by reflexivity.
  rewrite Ascii.eqb_refl. reflexivity.
Qed.

(** The last member, with a value that is read back from its encoding. *)
Lemma object_member_last f k a v pairs :
  plain k = true ->
  scan_once f (a ++ ["}"%char]) = Match v ["}"%char] ->
  object_members (S f) (list_ascii_of_string k ++ dquote :: ":"%char :: a ++ ["}"%char])
    pairs =
  Match (JObj (dict_of_pairs pystr_eqb (pairs ++ [(py k, v)]))) [].
Proof.
  intros Hk Hv. cbn [object_members].
  rewrite scanstring_plain; [| exact Hk | rewrite length_app; lia].
  rewrite (@skip_ws_head ":"%char) by reflexivity.
  rewrite Ascii.eqb_refl.
  rewrite (@scan_once_no_ws _ _ _ _ Hv), Hv.
  rewrite (@skip_ws_head "}"%char) by reflexivity.
  rewrite Ascii.eqb_refl. reflexivity.
Qed.

Lemma scan_tool_call_payload tc n :
  plain (ToolCall.id tc) = true ->
  plain (ToolCall.name tc) = true ->
  scan_once n (list_ascii_of_string (dumps (ToolCall.arguments tc)) ++ ["}"%char]) =
    Match (ToolCall.arguments tc) ["}"%char] ->
  scan_once (4 + n) (list_ascii_of_string (tool_call_payload tc)) =
    Match (JObj [(py "toolCallId", JStr (py (ToolCall.id tc)));
                 (py "toolName", JStr (py (ToolCall.name tc)));
                 (py "args", ToolCall.arguments tc)]) [].
Proof.
  intros Hid Hname Hargs. unfold tool_call_payload.
  rewrite !chars_app.
  set (a := list_ascii_of_string (dumps (ToolCall.arguments tc))) in *.
  change (scan_once (S (S (S (S n))))
            ("{"%char :: dquote ::
             list_ascii_of_string "toolCallId" ++ dquote :: ":"%char :: dquote ::
             list_ascii_of_string (ToolCall.id tc) ++ dquote :: ","%char :: dquote ::
             list_ascii_of_string "toolName" ++ dquote :: ":"%char :: dquote ::
             list_ascii_of_string (ToolCall.name tc) ++ dquote :: ","%char :: dquote ::
             list_ascii_of_string "args" ++ dquote :: ":"%char :: a ++ ["}"%char]) =
          Match (JObj (dict_of_pairs pystr_eqb
                         ((([] ++ [(py "toolCallId", JStr (py (ToolCall.id tc)))]) ++
                           [(py "toolName", JStr (py (ToolCall.name tc)))]) ++
                          [(py "args", ToolCall.arguments tc)]))) []).
  cbn [scan_once].
  replace (Ascii.eqb "{"%char dquote) with false by reflexivity.
  rewrite Ascii.eqb_refl.
  rewrite (@skip_ws_head dquote) by reflexivity.
  replace (Ascii.eqb dquote "}"%char) with false by reflexivity.
  rewrite Ascii.eqb_refl.
  rewrite object_member_string by (reflexivity || assumption).
  rewrite object_member_string by (reflexivity || assumption).
  apply object_member_last; [reflexivity | exact Hargs].
Qed.

(** The line of a completed call whose id and name are plain is read back
    field by field, when the arguments are read back from their encoding. *)
Lemma decode_tool_call_line tc :
  plain (ToolCall.id tc) = true ->
  plain (ToolCall.name tc) = true ->
  reads_back (ToolCall.arguments tc) ->
  VercelStreamProtocolAdapter.decode_line
    (VercelStreamProtocolAdapter.format_event (ToolCallCompleted tc)) =
  Some (JObj [(py "toolCallId", JStr (py (ToolCall.id tc)));
              (py "toolName", JStr (py (ToolCall.name tc)));
              (py "args", ToolCall.arguments tc)]).
Proof.
  intros Hid Hname [n Hargs].
  unfold VercelStreamProtocolAdapter.decode_line, loads.
  rewrite payload_format.
  pose proof (@scan_tool_call_payload tc n Hid Hname Hargs) as Hs.
  assert (Hd : decode (tool_call_payload tc) =
               Match (JObj [(py "toolCallId", JStr (py (ToolCall.id tc)));
                            (py "toolName", JStr (py (ToolCall.name tc)));
                            (py "args", ToolCall.arguments tc)]) []).
  { apply decode_scan with (n := (4 + n)%nat) (r := []); [| reflexivity].
    rewrite (@scan_once_no_ws _ _ _ _ Hs). exact Hs. }
  now rewrite Hd.
Qed.
End FormatFacts.

(** C7 (the code departs from it).  The line of a completed call is read
    back field by field -- id as [toolCallId], name as [toolName], arguments
    as [args] -- when the id and the name hold no double quote, backslash or
    control character and the arguments are read back from their own
    encoding.  The id and the name are copied between the quotes as they
    are: for the valid tool call whose id is an [a], a double quote and a
    [b], the payload after the tag is not a JSON document any more, and
    decoding it gives nothing back. *)
Theorem format_tool_call_unescaped_id :
  (forall tc,
      plain (ToolCall.id tc) = true ->
      plain (ToolCall.name tc) = true ->
      reads_back (ToolCall.arguments tc) ->
      VercelStreamProtocolAdapter.decode_line
        (VercelStreamProtocolAdapter.format_event (ToolCallCompleted tc)) =
      Some (JObj [(py "toolCallId", JStr (py (ToolCall.id tc)));
                  (py "toolName", JStr (py (ToolCall.name tc)));
                  (py "args", ToolCall.arguments tc)])) /\
  (ToolCall.new (q "a'b") "get_weather" (JObj []) = Returned Sample.quoted_id_call /\
   plain (ToolCall.name Sample.quoted_id_call) = true /\
   reads_back (ToolCall.arguments Sample.quoted_id_call) /\
   VercelStreamProtocolAdapter.format_event (ToolCallCompleted Sample.quoted_id_call) =
     (q "9:{'toolCallId':'a'b','toolName':'get_weather','args':{}}"
      ++ VercelStreamProtocolAdapter.newline)%string /\
   Json.decode (VercelStreamProtocolAdapter.payload
                  (VercelStreamProtocolAdapter.format_event
                     (ToolCallCompleted Sample.quoted_id_call))) = Json.NoMatch /\
   VercelStreamProtocolAdapter.decode_line
     (VercelStreamProtocolAdapter.format_event
        (ToolCallCompleted Sample.quoted_id_call)) = None).
Proof.
  split; [exact FormatFacts.decode_tool_call_line |].
  split; [reflexivity |].
  split; [reflexivity |].
  split; [exists 2%nat; vm_compute; reflexivity |].
  repeat split; vm_compute; reflexivity.
Qed.

Lemma format_tool_call_unescaped_id_witness :
  let tc := ToolCall.mk "call_1" "get_weather" Sample.sf in
  (plain (ToolCall.id tc) = true /\
   plain (ToolCall.name tc) = true /\
   reads_back (ToolCall.arguments tc)) /\
  VercelStreamProtocolAdapter.decode_line
    (VercelStreamProtocolAdapter.format_event (ToolCallCompleted tc)) =
  Some (JObj [(py "toolCallId", JStr (py "call_1"));
              (py "toolName", JStr (py "get_weather"));
              (py "args", Sample.sf)]).
Proof.
  intros tc.
  assert (H1 : plain (ToolCall.id tc) = true) by reflexivity.
  assert (H2 : plain (ToolCall.name tc) = true) by reflexivity.
  assert (H3 : reads_back (ToolCall.arguments tc))
    by (exists 4%nat; vm_compute; reflexivity).
  split; [now repeat split |].
  exact (proj1 format_tool_call_unescaped_id tc H1 H2 H3).
Defined.

(* ================================================================== *)
(** * The statements at the data of the tests *)

Lemma single_tool_call_sequence_witness :
  let chunks := [q "{'city':"; q "'SF'}"] in
  let r := ToolResult.mk "call_1" "get_weather" Sample.reading in
  let g := execute Json.loads (ToolExecutor.execute Sample.tools)
             (LLMToolCallDelta 0 (Some "call_1") (Some "get_weather") None ::
              map (chunk_fragment 0) chunks ++ [LLMFinished "tool_calls" 15 0]) in
  ("get_weather" <> EmptyString /\
   Forall (fun ch => ch <> EmptyString) chunks /\
   Json.loads (concat_chunks chunks) = Some Sample.sf /\
   ToolExecutor.execute Sample.tools (ToolCall.mk "call_1" "get_weather" Sample.sf)
     = Returned r) /\
  (events_of (trace g) =
     ToolCallStarted "call_1" "get_weather" ::
     map (ToolCallArgumentChunk "call_1") chunks ++
     [ToolCallCompleted (ToolCall.mk "call_1" "get_weather" Sample.sf);
      ToolResultAvailable r;
      CompletionFinished "tool_calls" (UsageStats.mk 15 0 (15 + 0))] /\
   ToolResult.call_id r = "call_1" /\
   outcome g = Returned tt).
Proof.
  intros chunks r g.
  assert (H1 : "get_weather" <> EmptyString) by discriminate.
  assert (H2 : Forall (fun ch => ch <> EmptyString) chunks)
    by (repeat constructor; discriminate).
  assert (H3 : Json.loads (concat_chunks chunks) = Some Sample.sf)
    by (vm_compute; reflexivity).
  assert (H4 : ToolExecutor.execute Sample.tools
                 (ToolCall.mk "call_1" "get_weather" Sample.sf) = Returned r)
    by (vm_compute; reflexivity).
  split; [now repeat split |].
  exact (@single_tool_call_sequence Json.loads Sample.tools "get_weather" chunks
           Sample.sf r "tool_calls" 15 0 H1 H2 H3 H4).
Defined.

(** C1, the claim as written fails on streams of the shape it describes.
    With one chunk that is not well-formed (the stream of the repository's
    test [test_execute_handles_malformed_tool_arguments]) the orchestration
    ends with the decoding error after the chunk event; with a tool name
    that is not registered it ends with the executor's exception after
    [ToolCallCompleted].  Neither run yields a [ToolResultAvailable] or a
    [CompletionFinished]. *)
Lemma single_call_sequence_needs_parse_and_result :
  let malformed := execute Json.loads (ToolExecutor.execute Sample.tools)
                     [LLMToolCallDelta 0 (Some "call_1") (Some "get_weather") None;
                      chunk_fragment 0 (q "{'invalid':");
                      LLMFinished "tool_calls" 5 0] in
  let unregistered := execute Json.loads (ToolExecutor.execute Sample.tools)
                        [LLMToolCallDelta 0 (Some "call_1") (Some "get_time") None;
                         chunk_fragment 0 "{}";
                         LLMFinished "tool_calls" 5 0] in
  malformed =
    ([Yield (ToolCallStarted "call_1" "get_weather");
      Yield (ToolCallArgumentChunk "call_1" (q "{'invalid':"))],
     Raised (JSONDecodeError (q "{'invalid':"))) /\
  events_of (trace malformed) =
    [ToolCallStarted "call_1" "get_weather";
     ToolCallArgumentChunk "call_1" (q "{'invalid':")] /\
  unregistered =
    ([Yield (ToolCallStarted "call_1" "get_time");
      Yield (ToolCallArgumentChunk "call_1" "{}");
      Yield (ToolCallCompleted (ToolCall.mk "call_1" "get_time" (JObj [])));
      Invoke (ToolCall.mk "call_1" "get_time" (JObj []))],
     Raised (ToolNotFoundError "Tool 'get_time' not registered")) /\
  events_of (trace unregistered) =
    [ToolCallStarted "call_1" "get_time";
     ToolCallArgumentChunk "call_1" "{}";
     ToolCallCompleted (ToolCall.mk "call_1" "get_time" (JObj []))] /\
  (forall args r fr u,
     events_of (trace malformed) <>
     ToolCallStarted "call_1" "get_weather" ::
     map (ToolCallArgumentChunk "call_1") [q "{'invalid':"] ++
     [ToolCallCompleted (ToolCall.mk "call_1" "get_weather" args);
      ToolResultAvailable r; CompletionFinished fr u]) /\
  (forall args r fr u,
     events_of (trace unregistered) <>
     ToolCallStarted "call_1" "get_time" ::
     map (ToolCallArgumentChunk "call_1") ["{}"] ++
     [ToolCallCompleted (ToolCall.mk "call_1" "get_time" args);
      ToolResultAvailable r; CompletionFinished fr u]).
Proof.
  repeat split; try (vm_compute; reflexivity);
    intros args r fr u H; vm_compute in H; discriminate H.
Qed.


(** The run of the two interleaved calls, in full. *)
Example two_calls_run :
  execute Json.loads Sample.executor (Sample.two_calls ++ [LLMFinished "tool_calls" 20 0]) =
  ([Yield (ToolCallStarted "call_1" "get_weather");
    Yield (ToolCallArgumentChunk "call_1" (q "{'city':"));
    Yield (ToolCallStarted "call_2" "get_weather");
    Yield (ToolCallArgumentChunk "call_2" (q "{'city':'NYC'}"));
    Yield (ToolCallArgumentChunk "call_1" (q "'SF'}"));
    Yield (ToolCallCompleted (ToolCall.mk "call_1" "get_weather" Sample.sf));
    Invoke (ToolCall.mk "call_1" "get_weather" Sample.sf);
    Yield (ToolResultAvailable (ToolResult.mk "call_1" "get_weather" Sample.reading));
    Yield (ToolCallCompleted (ToolCall.mk "call_2" "get_weather" Sample.nyc));
    Invoke (ToolCall.mk "call_2" "get_weather" Sample.nyc);
    Yield (ToolResultAvailable (ToolResult.mk "call_2" "get_weather" Sample.reading));
    Yield (CompletionFinished "tool_calls" (UsageStats.mk 20 0 20))],
   Returned tt).
Proof. vm_compute. reflexivity. Qed.

Lemma completed_once_per_started_position_witness :
  let stream := Sample.two_calls ++ [LLMFinished "tool_calls" 20 0] in
  let g := execute Json.loads Sample.executor stream in
  (Forall (fun ev => is_terminal ev = false) Sample.two_calls /\
   outcome g = Returned tt) /\
  exists tr_pre acc (pairs : list (ToolCall.t * ToolResult.t)),
    run Json.loads Sample.executor [] Sample.two_calls = (tr_pre, Returned acc) /\
    dict_keys acc = first_starts Sample.two_calls /\
    NoDup (first_starts Sample.two_calls) /\
    Forall2 (completes Json.loads) (dict_values acc) (map fst pairs) /\
    trace g =
      tr_pre ++ flat_map (fun q => pair_trace (fst q) (snd q)) pairs ++
      [Yield (CompletionFinished "tool_calls" (UsageStats.mk 20 0 (20 + 0)))] /\
    completed_of tr_pre = [] /\
    completed_of (trace g) = map fst pairs /\
    List.length (completed_of (trace g)) = List.length (first_starts Sample.two_calls).
Proof.
  intros stream g.
  assert (H1 : Forall (fun ev => is_terminal ev = false) Sample.two_calls)
    by (repeat constructor).
  assert (H2 : outcome g = Returned tt) by (vm_compute; reflexivity).
  split; [now split |].
  exact (@completed_once_per_started_position Json.loads Sample.executor
           Sample.two_calls "tool_calls" 20 0 H1 H2).
Defined.

(** C3.  The code does not do what the claim says for a call that was
    started and received no argument text.  On the stream made of one start
    fragment for position 0 and the terminal event, the accumulated text is
    empty, the decoder rejects it, and the orchestration ends with the
    decoding error right after [ToolCallStarted]: no [ToolCallCompleted]
    and no [CompletionFinished] is yielded.  The same happens on the stream
    of the repository's test [test_execute_with_empty_tool_name], which
    reads the generator to its end and expects no exception. *)
Theorem started_without_chunks_never_completes :
  let g := execute Json.loads Sample.executor
             (Sample.start_only ++ [LLMFinished "tool_calls" 10 0]) in
  let g_test := execute Json.loads Sample.executor
                  [LLMToolCallDelta 0 (Some "call_1") (Some EmptyString) None;
                   LLMFinished "tool_calls" 5 0] in
  first_starts Sample.start_only = [0] /\
  Json.decode EmptyString = Json.NoMatch /\
  g = ([Yield (ToolCallStarted "call_1" "get_weather")],
       Raised (JSONDecodeError EmptyString)) /\
  completed_of (trace g) = [] /\
  g_test = ([Yield (ToolCallStarted "call_1" EmptyString)],
            Raised (JSONDecodeError EmptyString)) /\
  completed_of (trace g_test) = [].
Proof. repeat split; vm_compute; reflexivity. Qed.

Lemma malformed_arguments_abort_witness :
  let d0 := ToolData.mk "call_1" "get_weather" (q "{'city':'SF'}") in
  let d1 := ToolData.mk "call_2" "get_weather" (q "{'invalid':") in
  let acc := [(0, d0); (1, d1)] in
  let tr_pre := trace (run Json.loads Sample.executor [] Sample.second_malformed) in
  let resolved := resolve_all Json.loads Sample.executor [d0] in
  (run Json.loads Sample.executor [] Sample.second_malformed = (tr_pre, Returned acc) /\
   dict_values acc = [d0] ++ d1 :: [] /\
   Json.loads (ToolData.arguments d1) = None) /\
  exists e,
    execute Json.loads Sample.executor
      (Sample.second_malformed ++ LLMFinished "tool_calls" 5 0 :: []) =
      (tr_pre ++ trace resolved, Raised e) /\
    (outcome resolved = Returned tt -> e = JSONDecodeError (ToolData.arguments d1)) /\
    Forall resolving_action (trace resolved) /\
    (exists done more,
        [d0] = done ++ more /\
        Forall2 (completes Json.loads) done (completed_of (trace resolved))) /\
    (forall tc, ~ completes Json.loads d1 tc).
Proof.
  intros d0 d1 acc tr_pre resolved.
  assert (H1 : run Json.loads Sample.executor [] Sample.second_malformed =
               (tr_pre, Returned acc)) by (vm_compute; reflexivity).
  assert (H2 : dict_values acc = [d0] ++ d1 :: []) by reflexivity.
  assert (H3 : Json.loads (ToolData.arguments d1) = None) by (vm_compute; reflexivity).
  split; [now repeat split |].
  exact (@malformed_arguments_abort Json.loads Sample.executor
           Sample.second_malformed "tool_calls" 5 0 [] tr_pre acc [d0] d1 [] H1 H2 H3).
Defined.

(** The run with a malformed second entry, in full. *)
Example second_malformed_run :
  execute Json.loads Sample.executor
    (Sample.second_malformed ++ [LLMFinished "tool_calls" 5 0]) =
  ([Yield (ToolCallStarted "call_1" "get_weather");
    Yield (ToolCallArgumentChunk "call_1" (q "{'city':'SF'}"));
    Yield (ToolCallStarted "call_2" "get_weather");
    Yield (ToolCallArgumentChunk "call_2" (q "{'invalid':"));
    Yield (ToolCallCompleted (ToolCall.mk "call_1" "get_weather" Sample.sf));
    Invoke (ToolCall.mk "call_1" "get_weather" Sample.sf);
    Yield (ToolResultAvailable (ToolResult.mk "call_1" "get_weather" Sample.reading))],
   Raised (JSONDecodeError (q "{'invalid':"))).
Proof. vm_compute. reflexivity. Qed.

Lemma tool_failure_aborts_witness :
  let d0 := ToolData.mk "call_1" "get_weather" (q "{'city':'SF'}") in
  let d1 := ToolData.mk "call_2" "get_time" "{}" in
  let d2 := ToolData.mk "call_3" "get_weather" (q "{'city':'NYC'}") in
  let acc := [(0, d0); (1, d1); (2, d2)] in
  let tc := ToolCall.mk "call_2" "get_time" (JObj []) in
  let e := ToolNotFoundError "Tool 'get_time' not registered" in
  let tr_pre := trace (run Json.loads Sample.executor [] Sample.second_unregistered) in
  let resolved := resolve_all Json.loads Sample.executor [d0] in
  let g := execute Json.loads Sample.executor
             (Sample.second_unregistered ++ LLMFinished "tool_calls" 10 0 :: []) in
  (run Json.loads Sample.executor [] Sample.second_unregistered = (tr_pre, Returned acc) /\
   dict_values acc = [d0] ++ d1 :: [d2] /\
   outcome resolved = Returned tt /\
   Json.loads (ToolData.arguments d1) = Some (JObj []) /\
   ToolCall.new (ToolData.id d1) (ToolData.name d1) (JObj []) = Returned tc /\
   ToolExecutor.execute Sample.tools tc = Raised e) /\
  (g = (tr_pre ++ trace resolved ++ [Yield (ToolCallCompleted tc); Invoke tc], Raised e) /\
   invoked_of (trace g) = invoked_of tr_pre ++ invoked_of (trace resolved) ++ [tc] /\
   ((dict_get String.eqb (ToolCall.name tc) Sample.tools = None /\
     exists msg, e = ToolNotFoundError msg) \/
    (exists tool cause,
        dict_get String.eqb (ToolCall.name tc) Sample.tools = Some tool /\
        ToolExecutor.try_body tool tc = Raised cause /\
        e = ToolExecutionError (ToolCall.name tc) cause))).
Proof.
  intros d0 d1 d2 acc tc e tr_pre resolved g.
  assert (H1 : run Json.loads Sample.executor [] Sample.second_unregistered =
               (tr_pre, Returned acc)) by (vm_compute; reflexivity).
  assert (H2 : dict_values acc = [d0] ++ d1 :: [d2]) by reflexivity.
  assert (H3 : outcome resolved = Returned tt) by (vm_compute; reflexivity).
  assert (H4 : Json.loads (ToolData.arguments d1) = Some (JObj []))
    by (vm_compute; reflexivity).
  assert (H5 : ToolCall.new (ToolData.id d1) (ToolData.name d1) (JObj []) = Returned tc)
    by reflexivity.
  assert (H6 : ToolExecutor.execute Sample.tools tc = Raised e)
    by (vm_compute; reflexivity).
  split; [now repeat split |].
  exact (@tool_failure_aborts Json.loads Sample.tools Sample.second_unregistered
           "tool_calls" 10 0 [] tr_pre acc [d0] d1 [d2] (JObj []) tc e
           H1 H2 H3 H4 H5 H6).
Defined.

(** The run with an unregistered second tool, in full: the third call is
    never handed to the executor. *)
Example second_unregistered_run :
  execute Json.loads Sample.executor
    (Sample.second_unregistered ++ [LLMFinished "tool_calls" 10 0]) =
  ([Yield (ToolCallStarted "call_1" "get_weather");
    Yield (ToolCallArgumentChunk "call_1" (q "{'city':'SF'}"));
    Yield (ToolCallStarted "call_2" "get_time");
    Yield (ToolCallArgumentChunk "call_2" "{}");
    Yield (ToolCallStarted "call_3" "get_weather");
    Yield (ToolCallArgumentChunk "call_3" (q "{'city':'NYC'}"));
    Yield (ToolCallCompleted (ToolCall.mk "call_1" "get_weather" Sample.sf));
    Invoke (ToolCall.mk "call_1" "get_weather" Sample.sf);
    Yield (ToolResultAvailable (ToolResult.mk "call_1" "get_weather" Sample.reading));
    Yield (ToolCallCompleted (ToolCall.mk "call_2" "get_time" (JObj [])));
    Invoke (ToolCall.mk "call_2" "get_time" (JObj []))],
   Raised (ToolNotFoundError "Tool 'get_time' not registered")).
Proof. vm_compute. reflexivity. Qed.

(** A tool whose execution raises: the error is wrapped with the tool's
    name. *)
Example broken_tool_run :
  execute Json.loads Sample.executor
    [LLMToolCallDelta 0 (Some "call_1") (Some "broken") (Some "{}");
     LLMFinished "tool_calls" 10 0] =
  ([Yield (ToolCallStarted "call_1" "broken");
    Yield (ToolCallArgumentChunk "call_1" "{}");
    Yield (ToolCallCompleted (ToolCall.mk "call_1" "broken" (JObj [])));
    Invoke (ToolCall.mk "call_1" "broken" (JObj []))],
   Raised (ToolExecutionError "broken" (OtherError "API error"))).
Proof. vm_compute. reflexivity. Qed.

Lemma completion_usage_total_witness :
  let stream := [LLMTextDelta "Hello"; LLMTextDelta " world"; LLMFinished "stop" 10 5] in
  let u := UsageStats.mk 10 5 15 in
  let empty : in_progress := [] in
  (In (CompletionFinished "stop" u)
      (events_of (trace (execute Json.loads Sample.executor stream))) /\
   outcome (resolve_all Json.loads Sample.executor (dict_values empty)) = Returned tt) /\
  (exists p c, In (LLMFinished "stop" p c) stream /\
               UsageStats.prompt_tokens u = p /\
               UsageStats.completion_tokens u = c /\
               UsageStats.total_tokens u = p + c) /\
  step Json.loads Sample.executor empty (LLMFinished "stop" 10 5) =
    (trace (resolve_all Json.loads Sample.executor (dict_values empty)) ++
     [Yield (CompletionFinished "stop" (UsageStats.mk 10 5 (10 + 5)))],
     Returned empty).
Proof.
  intros stream u empty.
  assert (H1 : In (CompletionFinished "stop" u)
                  (events_of (trace (execute Json.loads Sample.executor stream))))
    by (vm_compute; auto).
  assert (H2 : outcome (resolve_all Json.loads Sample.executor (dict_values empty))
               = Returned tt) by reflexivity.
  split; [now split |].
  split.
  - exact (proj1 (completion_usage_total Json.loads Sample.executor) stream "stop" u H1).
  - exact (proj2 (completion_usage_total Json.loads Sample.executor) empty "stop" 10 5 H2).
Defined.

(** [test_execute_simple_text_streaming]. *)
Example simple_text_run :
  execute Json.loads Sample.executor
    [LLMTextDelta "Hello"; LLMTextDelta " world"; LLMFinished "stop" 10 5] =
  ([Yield (TextDelta "Hello"); Yield (TextDelta " world");
    Yield (CompletionFinished "stop" (UsageStats.mk 10 5 15))],
   Returned tt).
Proof. vm_compute. reflexivity. Qed.

Lemma restart_replaces_in_place_witness :
  let old := ToolData.mk "call_1" "get_weather" (q "{'city':") in
  (dict_get Z.eqb 0 Sample.two_entries = Some old) /\
  exists l1 l2,
    Sample.two_entries = l1 ++ (0, old) :: l2 /\
    let fresh := ToolData.mk "call_9" (or_empty (Some "get_weather"))
                             (or_empty (Some (q "{'city':'SF'}"))) in
    let acc' := l1 ++ (0, fresh) :: l2 in
    on_tool_call_delta Sample.two_entries 0 (Some "call_9") (Some "get_weather")
                       (Some (q "{'city':'SF'}")) =
    (Yield (ToolCallStarted "call_9" (or_empty (Some "get_weather"))) ::
     (if opt_truthy (Some (q "{'city':'SF'}"))
      then [Yield (ToolCallArgumentChunk "call_9" (or_empty (Some (q "{'city':'SF'}"))))]
      else []),
     Returned acc') /\
    dict_keys acc' = dict_keys Sample.two_entries /\
    dict_values Sample.two_entries = dict_values l1 ++ old :: dict_values l2 /\
    dict_values acc' = dict_values l1 ++ fresh :: dict_values l2 /\
    (forall fr p c,
      on_finished Json.loads Sample.executor acc' fr p c =
      bind (resolve_all Json.loads Sample.executor
              (dict_values l1 ++ fresh :: dict_values l2))
           (fun _ => ([Yield (CompletionFinished fr (UsageStats.mk p c (p + c)))],
                      Returned acc'))) /\
    (forall fr p c acc'',
       outcome (on_finished Json.loads Sample.executor acc' fr p c) = Returned acc'' ->
       exists (pairs1 : list (ToolCall.t * ToolResult.t)) tc r
              (pairs2 : list (ToolCall.t * ToolResult.t)),
         Forall2 (completes Json.loads) (dict_values l1) (map fst pairs1) /\
         completes Json.loads fresh tc /\
         Sample.executor tc = Returned r /\
         Forall2 (completes Json.loads) (dict_values l2) (map fst pairs2) /\
         on_finished Json.loads Sample.executor acc' fr p c =
           (flat_map (fun q => pair_trace (fst q) (snd q)) pairs1 ++
            pair_trace tc r ++
            flat_map (fun q => pair_trace (fst q) (snd q)) pairs2 ++
            [Yield (CompletionFinished fr (UsageStats.mk p c (p + c)))],
            Returned acc')) /\
    (forall fr p c,
       exists done rest,
         dict_values l1 ++ fresh :: dict_values l2 = done ++ rest /\
         Forall2 (completes Json.loads) done
                 (completed_of
                    (trace (on_finished Json.loads Sample.executor acc' fr p c)))) /\
    (forall post tr acc2,
       Forall (fun ev => is_terminal ev = false) post ->
       run Json.loads Sample.executor acc' post = (tr, Returned acc2) ->
       (exists more,
          dict_keys acc2 = dict_keys l1 ++ 0 :: dict_keys l2 ++ more) /\
       (forall fr p c acc3,
          outcome (on_finished Json.loads Sample.executor acc2 fr p c) = Returned acc3 ->
          exists pairs : list (ToolCall.t * ToolResult.t),
            Forall2 (completes Json.loads) (dict_values acc2) (map fst pairs) /\
            on_finished Json.loads Sample.executor acc2 fr p c =
              (flat_map (fun q => pair_trace (fst q) (snd q)) pairs ++
               [Yield (CompletionFinished fr (UsageStats.mk p c (p + c)))],
               Returned acc2))).
Proof.
  intros old.
  assert (H1 : dict_get Z.eqb 0 Sample.two_entries = Some old) by reflexivity.
  split; [exact H1 |].
  exact (@restart_replaces_in_place Json.loads Sample.executor Sample.two_entries
           0 old "call_9" (Some "get_weather") (Some (q "{'city':'SF'}")) H1).
Defined.

(** Terminal handling right after the restart of position 0 in
    [Sample.two_entries]: it returns, and the call of the restarted
    position, with its new id, is completed and executed first. *)
Example restart_then_terminal :
  on_finished Json.loads Sample.executor
    [(0, ToolData.mk "call_9" "get_weather" (q "{'city':'SF'}"));
     (1, ToolData.mk "call_2" "get_weather" (q "{'city':'NYC'}"))]
    "tool_calls" 1 2 =
  (pair_trace (ToolCall.mk "call_9" "get_weather" Sample.sf)
              (ToolResult.mk "call_9" "get_weather" Sample.reading) ++
   pair_trace (ToolCall.mk "call_2" "get_weather" Sample.nyc)
              (ToolResult.mk "call_2" "get_weather" Sample.reading) ++
   [Yield (CompletionFinished "tool_calls" (UsageStats.mk 1 2 3))],
   Returned [(0, ToolData.mk "call_9" "get_weather" (q "{'city':'SF'}"));
             (1, ToolData.mk "call_2" "get_weather" (q "{'city':'NYC'}"))]).
Proof. vm_compute. reflexivity. Qed.

(** A restarted position keeps its place: position 0 is restarted after
    position 1 was started, and is still resolved first, with the new id
    and only the text that came after the restart. *)
Example restart_run :
  execute Json.loads Sample.executor
    [LLMToolCallDelta 0 (Some "call_1") (Some "get_weather") None;
     chunk_fragment 0 (q "{'city':");
     LLMToolCallDelta 1 (Some "call_2") (Some "get_weather") None;
     chunk_fragment 1 (q "{'city':'NYC'}");
     LLMToolCallDelta 0 (Some "call_9") (Some "get_weather") None;
     chunk_fragment 0 (q "{'city':'SF'}");
     LLMFinished "tool_calls" 1 2] =
  ([Yield (ToolCallStarted "call_1" "get_weather");
    Yield (ToolCallArgumentChunk "call_1" (q "{'city':"));
    Yield (ToolCallStarted "call_2" "get_weather");
    Yield (ToolCallArgumentChunk "call_2" (q "{'city':'NYC'}"));
    Yield (ToolCallStarted "call_9" "get_weather");
    Yield (ToolCallArgumentChunk "call_9" (q "{'city':'SF'}"));
    Yield (ToolCallCompleted (ToolCall.mk "call_9" "get_weather" Sample.sf));
    Invoke (ToolCall.mk "call_9" "get_weather" Sample.sf);
    Yield (ToolResultAvailable (ToolResult.mk "call_9" "get_weather" Sample.reading));
    Yield (ToolCallCompleted (ToolCall.mk "call_2" "get_weather" Sample.nyc));
    Invoke (ToolCall.mk "call_2" "get_weather" Sample.nyc);
    Yield (ToolResultAvailable (ToolResult.mk "call_2" "get_weather" Sample.reading));
    Yield (CompletionFinished "tool_calls" (UsageStats.mk 1 2 3))],
   Returned tt).
Proof. vm_compute. reflexivity. Qed.

Lemma tool_result_rejects_only_empty_call_id_witness :
  "call_123" <> EmptyString /\
  ToolResult.new "call_123" EmptyString JNull =
  Returned (ToolResult.mk "call_123" EmptyString JNull).
Proof.
  assert (H : "call_123" <> EmptyString) by discriminate.
  split; [exact H |].
  exact (proj1 (proj2 tool_result_rejects_only_empty_call_id) "call_123" JNull H).
Defined.

Lemma usage_stats_unchecked_witness :
  let stream := [LLMTextDelta "Hello"; LLMTextDelta " world"; LLMFinished "stop" 10 5] in
  let u := UsageStats.mk 10 5 15 in
  In (CompletionFinished "stop" u)
     (events_of (trace (execute Json.loads Sample.executor stream))) /\
  UsageStats.total_tokens u =
  UsageStats.prompt_tokens u + UsageStats.completion_tokens u.
Proof.
  intros stream u.
  assert (H : In (CompletionFinished "stop" u)
                 (events_of (trace (execute Json.loads Sample.executor stream))))
    by (vm_compute; auto).
  split; [exact H |].
  exact (proj2 (proj2 usage_stats_unchecked) Json.loads Sample.executor stream "stop" u H).
Defined.

(* ================================================================== *)
(** * More of the use case *)

Section MoreUseCaseFacts.
Variable json_loads : string -> option JSON.
Variable tool_executor : ToolCall.t -> Outcome ToolResult.t.

Notation resolve_one := (resolve_one json_loads tool_executor).
Notation resolve_all := (resolve_all json_loads tool_executor).
Notation on_finished := (on_finished json_loads tool_executor).
Notation step := (step json_loads tool_executor).
Notation run := (run json_loads tool_executor).
Notation execute := (execute json_loads tool_executor).

Lemma run_texts acc contents :
  run acc (map LLMTextDelta contents) =
  (map (fun t => Yield (TextDelta t)) contents, Returned acc).
Proof.
  revert acc. induction contents as [| t contents IH]; intros acc; [reflexivity |].
  cbn [map]. rewrite (@run_cons json_loads tool_executor). cbn [step].
  rewrite bind_assoc. unfold yield. rewrite bind_returned_pair, bind_ret_l, IH.
  reflexivity.
Qed.

(** X1.  A provider stream made of text fragments and its terminal event
    yields one [TextDelta] per fragment, with the same content and in the
    same order, then one [CompletionFinished]; no tool event is yielded, the
    executor is never invoked and the orchestration returns. *)
Theorem text_only_stream contents fr p c :
  execute (map LLMTextDelta contents ++ [LLMFinished fr p c]) =
  (map (fun t => Yield (TextDelta t)) contents ++
   [Yield (CompletionFinished fr (UsageStats.mk p c (p + c)))],
   Returned tt).
Proof.
  unfold execute.
  rewrite (@run_app json_loads tool_executor), run_texts, bind_returned_pair.
  cbn [trace outcome fst snd].
  rewrite (@run_terminal json_loads tool_executor).
  cbn. now rewrite !app_nil_r.
Qed.

(** ** An argument fragment for a position that was never started *)

Lemma chunk_without_start acc index name chunk :
  dict_get Z.eqb index acc = None ->
  chunk <> EmptyString ->
  on_tool_call_delta acc index None name (Some chunk) = ([], Raised (KeyError index)).
Proof.
  intros Hg Hc. unfold on_tool_call_delta. simpl.
  apply str_truthy_true in Hc. rewrite Hc.
  unfold bind; simpl. now rewrite Hg.
Qed.

(** X2.  A fragment that carries argument text and no id, for a position
    that no earlier fragment started, ends the orchestration with
    [KeyError] for that position: nothing is yielded for the fragment, and
    nothing after it is read. *)
Theorem argument_before_start pre tr_pre acc index name chunk post :
  Forall (fun ev => is_terminal ev = false) pre ->
  run [] pre = (tr_pre, Returned acc) ->
  mem_Z index (first_starts pre) = false ->
  chunk <> EmptyString ->
  execute (pre ++ LLMToolCallDelta index None name (Some chunk) :: post) =
  (tr_pre, Raised (KeyError index)).
Proof.
  intros Hpre Hrun Hmem Hc.
  destruct (@run_streaming json_loads tool_executor pre [] Hpre) as [_ Hk].
  rewrite Hrun in Hk. specialize (Hk acc eq_refl). cbn [dict_keys map] in Hk.
  fold (first_starts pre) in Hk. rewrite <- Hk, dict_mem_keys in Hmem.
  unfold dict_mem in Hmem.
  destruct (dict_get Z.eqb index acc) as [d |] eqn:Hg; [discriminate |].
  unfold execute.
  rewrite (@run_app json_loads tool_executor), Hrun, bind_returned_pair.
  rewrite (@run_cons json_loads tool_executor). cbn [step].
  rewrite (@chunk_without_start acc index name chunk Hg Hc). cbn. now rewrite app_nil_r.
Qed.

(** ** What was yielded stays *)

Lemma run_extends acc s1 s2 :
  (exists more, trace (run acc (s1 ++ s2)) = trace (run acc s1) ++ more) /\
  (forall e, outcome (run acc s1) = Raised e ->
             run acc (s1 ++ s2) = (trace (run acc s1), Raised e)).
Proof.
  rewrite (@run_app json_loads tool_executor).
  destruct (run acc s1) as [tr [acc1 | e]].
  - rewrite bind_returned_pair. cbn [trace outcome fst snd]. split.
    + eexists. reflexivity.
    + discriminate.
  - split; [exists []; cbn; now rewrite app_nil_r |].
    intros e' [= <-]. reflexivity.
Qed.

(** X3.  Reading more of the provider stream only adds to what was
    already yielded, and a stream on which the orchestration raised gives
    the same trace and the same exception whatever would have followed. *)
Theorem longer_stream_extends_trace s1 s2 :
  (exists more, trace (execute (s1 ++ s2)) = trace (execute s1) ++ more) /\
  (forall e, outcome (execute s1) = Raised e ->
             execute (s1 ++ s2) = execute s1).
Proof.
  destruct (run_extends [] s1 s2) as [[more Hm] Hr]. split.
  - exists more. now rewrite !(@execute_trace json_loads tool_executor).
  - intros e He. unfold execute in *.
    destruct (run [] s1) as [tr [acc1 | e1]] eqn:H1.
    + discriminate He.
    + rewrite (Hr e1 eq_refl). reflexivity.
Qed.

(** ** The entry of one position *)

Lemma entry_after_cons index entry ev rest :
  entry_after index entry (ev :: rest) =
  entry_after index (entry_after index entry [ev]) rest.
Proof.
  destruct ev as [content | k id name chunk | fr p c]; try reflexivity.
  cbn [entry_after]. now destruct (Z.eqb k index).
Qed.

Lemma delta_entry acc k id name chunk acc' index :
  outcome (on_tool_call_delta acc k id name chunk) = Returned acc' ->
  dict_get Z.eqb index acc' =
  entry_after index (dict_get Z.eqb index acc) [LLMToolCallDelta k id name chunk].
Proof.
  unfold on_tool_call_delta. cbn [entry_after].
  set (fresh := fun i => ToolData.mk i (or_empty name) EmptyString).
  set (acc1 := match id with
               | Some i => dict_set Z.eqb k (fresh i) acc
               | None => acc
               end).
  assert (H1 : dict_get Z.eqb index acc1 =
               if Z.eqb k index
               then match id with
                    | Some i => Some (fresh i)
                    | None => dict_get Z.eqb index acc
                    end
               else dict_get Z.eqb index acc).
  { unfold acc1. destruct id as [i |].
    - destruct (Z.eqb_spec k index) as [-> | Hne].
      + apply dict_get_set_same.
      + apply dict_get_set_other. congruence.
    - now destruct (Z.eqb k index). }
  assert (Hb : forall B (K : in_progress -> Gen B),
             bind (match id with
                   | Some i => bind (yield (ToolCallStarted i (or_empty name)))
                                 (fun _ => ret (dict_set Z.eqb k (fresh i) acc))
                   | None => ret acc
                   end) K =
             (match id with
              | Some i => [Yield (ToolCallStarted i (or_empty name))]
              | None => []
              end ++ trace (K acc1), outcome (K acc1))).
  { intros B K. unfold acc1. destruct id as [i |]; [reflexivity |].
    rewrite bind_ret_l. now destruct (K acc). }
  rewrite Hb. cbn [outcome snd].
  destruct (opt_truthy chunk) eqn:Hc.
  - destruct (dict_get Z.eqb k acc1) as [d |] eqn:Hg; [| discriminate].
    cbn. intros [= <-].
    destruct (Z.eqb_spec k index) as [-> | Hne].
    + rewrite dict_get_set_same. rewrite H1 in Hg.
      unfold fresh in Hg. now rewrite Hg.
    + rewrite dict_get_set_other by congruence. exact H1.
  - cbn. intros [= <-]. rewrite H1. unfold fresh.
    now destruct (Z.eqb k index).
Qed.

Lemma step_entry acc ev acc' index :
  outcome (step acc ev) = Returned acc' ->
  dict_get Z.eqb index acc' = entry_after index (dict_get Z.eqb index acc) [ev].
Proof.
  destruct ev as [content | k id name chunk | fr p c]; cbn [step].
  - cbn. now intros [= <-].
  - apply delta_entry.
  - intros H. apply (@on_finished_returned json_loads tool_executor) in H as [-> _].
    reflexivity.
Qed.

(** X4.  Whatever the interleaving, the accumulator entry of a position
    is what the fragments of that position alone make of it: the id and
    name of its latest start fragment and the chunks received since, in
    order.  Fragments of other positions, text and terminal events never
    change it. *)
Theorem entry_depends_on_own_fragments stream : forall acc acc' index,
  outcome (run acc stream) = Returned acc' ->
  dict_get Z.eqb index acc' = entry_after index (dict_get Z.eqb index acc) stream.
Proof.
  induction stream as [| ev stream IH]; intros acc acc' index.
  - cbn. now intros [= <-].
  - rewrite (@run_cons json_loads tool_executor), entry_after_cons. intros H.
    apply bind_returned_inv in H as (acc1 & H1 & H2 & _).
    rewrite <- (@step_entry acc ev acc1 index H1). now apply IH.
Qed.

(** ** Text is forwarded *)

Lemma texts_of_app tr1 tr2 : texts_of (tr1 ++ tr2) = texts_of tr1 ++ texts_of tr2.
Proof.
  induction tr1 as [| a tr1 IH]; [reflexivity |].
  destruct a as [[] |]; cbn; now rewrite IH.
Qed.

Lemma texts_of_resolving tr : Forall resolving_action tr -> texts_of tr = [].
Proof.
  induction 1 as [| a tr Ha _ IH]; [reflexivity |].
  destruct a as [[] |]; cbn in *; try contradiction; exact IH.
Qed.

Lemma step_texts acc ev : texts_of (trace (step acc ev)) = texts_of_stream [ev].
Proof.
  destruct ev as [content | k id name chunk | fr p c]; cbn [step texts_of_stream].
  - reflexivity.
  - unfold on_tool_call_delta.
    destruct id as [i |], (opt_truthy chunk); cbn;
      try destruct (dict_get Z.eqb k _); reflexivity.
  - rewrite (@on_finished_eq json_loads tool_executor).
    pose proof (@resolve_all_actions json_loads tool_executor (dict_values acc)) as Ha.
    apply texts_of_resolving in Ha.
    destruct (resolve_all (dict_values acc)) as [tr [[] | e]]; cbn in *.
    + now rewrite texts_of_app, Ha.
    + exact Ha.
Qed.

Lemma run_texts_prefix stream : forall acc,
  (exists rest, texts_of_stream stream = texts_of (trace (run acc stream)) ++ rest) /\
  (forall acc', outcome (run acc stream) = Returned acc' ->
                texts_of (trace (run acc stream)) = texts_of_stream stream).
Proof.
  induction stream as [| ev stream IH]; intros acc.
  - split; [now exists [] | reflexivity].
  - rewrite (@run_cons json_loads tool_executor).
    assert (Hs : texts_of_stream (ev :: stream) =
                 texts_of_stream [ev] ++ texts_of_stream stream).
    { now destruct ev. }
    rewrite Hs, <- (step_texts acc ev).
    destruct (step acc ev) as [tr [acc1 | e]].
    + rewrite bind_returned_pair. cbn [trace outcome fst snd].
      destruct (IH acc1) as [[rest Hr] He]. split.
      * exists rest. rewrite texts_of_app, <- app_assoc. now rewrite <- Hr.
      * intros acc' H. rewrite texts_of_app. now rewrite (He acc' H).
    + split; [now exists (texts_of_stream stream) | discriminate].
Qed.

(** X5.  The texts of the [TextDelta] events are the contents of the text
    fragments read so far, unchanged and in order, also when tool-call
    fragments are interleaved: always a prefix of the contents in the
    stream, and all of them when the orchestration returns. *)
Theorem text_is_forwarded stream :
  (exists rest, texts_of_stream stream = texts_of (trace (execute stream)) ++ rest) /\
  (outcome (execute stream) = Returned tt ->
   texts_of (trace (execute stream)) = texts_of_stream stream).
Proof.
  rewrite (@execute_trace json_loads tool_executor).
  destruct (run_texts_prefix stream []) as [Hp He]. split; [exact Hp |].
  intros H. apply (@execute_outcome json_loads tool_executor) in H as [acc H].
  now apply (He acc).
Qed.

(** ** The accumulator outlives the terminal event *)

(** X6.  Handling the terminal event does not empty the accumulator: if
    the provider stream carries a second terminal event, every accumulated
    tool call is resolved and executed again, and a second
    [CompletionFinished] is yielded. *)
Theorem second_terminal_resolves_again acc fr1 p1 c1 fr2 p2 c2 :
  outcome (resolve_all (dict_values acc)) = Returned tt ->
  run acc [LLMFinished fr1 p1 c1; LLMFinished fr2 p2 c2] =
  (trace (resolve_all (dict_values acc)) ++
   [Yield (CompletionFinished fr1 (UsageStats.mk p1 c1 (p1 + c1)))] ++
   trace (resolve_all (dict_values acc)) ++
   [Yield (CompletionFinished fr2 (UsageStats.mk p2 c2 (p2 + c2)))],
   Returned acc).
Proof.
  intros H. rewrite (@run_cons json_loads tool_executor). cbn [step].
  rewrite (@on_finished_eq json_loads tool_executor), (bind_returned _ _ H).
  cbn [trace outcome fst snd]. rewrite bind_returned_pair.
  rewrite (@run_terminal json_loads tool_executor).
  rewrite (@on_finished_eq json_loads tool_executor), (bind_returned _ _ H).
  cbn [trace outcome fst snd app]. now rewrite <- !app_assoc.
Qed.

(** ** Every completed call is executed *)

Lemma resolve_all_invoked ds :
  invoked_of (trace (resolve_all ds)) = completed_of (trace (resolve_all ds)).
Proof.
  induction ds as [| d ds IH]; [reflexivity |]. cbn [resolve_all].
  destruct (@resolve_one_cases json_loads tool_executor d); unfold bind; cbn;
    try reflexivity.
  f_equal. exact IH.
Qed.

Lemma step_invoked acc ev :
  invoked_of (trace (step acc ev)) = completed_of (trace (step acc ev)).
Proof.
  destruct ev as [content | k id name chunk | fr p c]; cbn [step].
  - reflexivity.
  - unfold on_tool_call_delta.
    destruct id as [i |], (opt_truthy chunk); cbn;
      try destruct (dict_get Z.eqb k _); reflexivity.
  - rewrite (@on_finished_eq json_loads tool_executor).
    pose proof (resolve_all_invoked (dict_values acc)) as Hi.
    destruct (resolve_all (dict_values acc)) as [tr [[] | e]]; cbn in *.
    + rewrite (@invoked_of_app), (@completed_of_app). cbn. now rewrite Hi.
    + exact Hi.
Qed.

(** X7.  The executor is invoked for the completed tool calls and for
    nothing else: on every provider stream, the calls handed to the
    executor are exactly the calls whose [ToolCallCompleted] was yielded,
    in the same order. *)
Theorem invoked_calls_are_completed_calls stream :
  invoked_of (trace (execute stream)) = completed_of (trace (execute stream)).
Proof.
  rewrite (@execute_trace json_loads tool_executor).
  generalize (@nil (Z * ToolData.t)).
  induction stream as [| ev stream IH]; intros acc; [reflexivity |].
  rewrite (@run_cons json_loads tool_executor).
  pose proof (step_invoked acc ev) as Hs.
  destruct (step acc ev) as [tr [acc1 | e]].
  - rewrite bind_returned_pair. cbn [trace outcome fst snd] in *.
    now rewrite invoked_of_app, completed_of_app, Hs, IH.
  - exact Hs.
Qed.

(** ** A start fragment without a name *)

(** X8.  A tool call whose start fragment carries no name (or an empty
    one) is announced with an empty tool name and its chunks are forwarded,
    but it can never complete: when the terminal event arrives the
    orchestration ends with [ValueError], before any [ToolCallCompleted],
    even though the argument text is well-formed. *)
Theorem start_without_name_fails index i name chunks args fr p c :
  i <> EmptyString ->
  opt_truthy name = false ->
  Forall (fun ch => ch <> EmptyString) chunks ->
  json_loads (concat_chunks chunks) = Some args ->
  execute (LLMToolCallDelta index (Some i) name None ::
           map (chunk_fragment index) chunks ++ [LLMFinished fr p c]) =
  (Yield (ToolCallStarted i EmptyString) ::
   map (fun ch => Yield (ToolCallArgumentChunk i ch)) chunks,
   Raised (ValueError "ToolCall name cannot be empty")).
Proof.
  intros Hi Hname Hne Hl.
  assert (Hor : or_empty name = EmptyString).
  { destruct name as [s |]; [| reflexivity]. cbn in *. now rewrite Hname. }
  unfold execute. rewrite (@run_cons json_loads tool_executor). cbn [step].
  rewrite delta_start by reflexivity.
  rewrite Hor. cbn [dict_set]. rewrite bind_returned_pair.
  cbn [trace outcome fst snd].
  rewrite (@run_app json_loads tool_executor).
  rewrite (@run_chunks json_loads tool_executor index i EmptyString chunks EmptyString Hne).
  cbn [String.append]. rewrite bind_returned_pair. cbn [trace outcome fst snd].
  rewrite (@run_terminal json_loads tool_executor).
  rewrite (@on_finished_eq json_loads tool_executor).
  cbn [dict_values map snd resolve_all].
  rewrite (@resolve_one_invalid json_loads tool_executor _ args
             (ValueError "ToolCall name cannot be empty")).
  - cbn. now rewrite !app_nil_r.
  - exact Hl.
  - cbn [ToolData.id ToolData.name]. unfold ToolCall.new.
    apply str_truthy_true in Hi. now rewrite Hi.
Qed.
End MoreUseCaseFacts.

(* ================================================================== *)
(** * The registry of the tool executor *)

Section RegistryFacts.
Import ToolExecutor.


Lemma get_register_same t r :
  dict_get String.eqb (ITool.name t) (register_tool t r) = Some t.
Proof.
  unfold register_tool. induction r as [| [k v] r IH]; cbn.
  - now rewrite String.eqb_refl.
  - destruct (String.eqb (ITool.name t) k) eqn:E; cbn; rewrite E; [reflexivity | exact IH].
Qed.

Lemma get_register_other t r name :
  String.eqb name (ITool.name t) = false ->
  dict_get String.eqb name (register_tool t r) = dict_get String.eqb name r.
Proof.
  intros Hne. unfold register_tool. induction r as [| [k v] r IH]; cbn.
  - now rewrite Hne.
  - destruct (String.eqb_spec (ITool.name t) k) as [E | E]; cbn.
    + rewrite <- E, Hne. reflexivity.
    + destruct (String.eqb name k); [reflexivity | exact IH].
Qed.

Lemma get_register t r name :
  dict_get String.eqb name (register_tool t r) =
  if String.eqb name (ITool.name t) then Some t else dict_get String.eqb name r.
Proof.
  destruct (String.eqb_spec name (ITool.name t)) as [-> | Hne].
  - apply get_register_same.
  - apply get_register_other. now apply String.eqb_neq.
Qed.

Lemma find_app_last {A} (f : A -> bool) l x :
  find f (l ++ [x]) = match find f l with Some y => Some y | None => find f [x] end.
Proof.
  induction l as [| a l IH]; [cbn; now destruct (f x) |].
  cbn. destruct (f a); [reflexivity | exact IH].
Qed.

Lemma last_named_snoc name ts t :
  last_named name (ts ++ [t]) =
  if String.eqb name (ITool.name t) then Some t else last_named name ts.
Proof. unfold last_named. rewrite rev_app_distr. reflexivity. Qed.

Lemma last_named_found name ts :
  match last_named name ts with Some _ => true | None => false end =
  existsb (fun u => String.eqb name (ITool.name u)) ts.
Proof.
  induction ts as [| t ts IH] using rev_ind; [reflexivity |].
  rewrite last_named_snoc, existsb_app. cbn. rewrite orb_false_r, <- IH.
  destruct (String.eqb name (ITool.name t)); [now rewrite orb_true_r | now rewrite orb_false_r].
Qed.

Lemma registry_of_snoc ts t :
  registry_of (ts ++ [t]) = register_tool t (registry_of ts).
Proof. unfold registry_of. now rewrite fold_left_app. Qed.

Lemma get_registry_of name ts :
  dict_get String.eqb name (registry_of ts) = last_named name ts.
Proof.
  induction ts as [| t ts IH] using rev_ind; [reflexivity |].
  now rewrite registry_of_snoc, last_named_snoc, get_register, IH.
Qed.

Lemma keys_register t r :
  dict_keys (register_tool t r) =
  if dict_mem String.eqb (ITool.name t) r then dict_keys r
  else dict_keys r ++ [ITool.name t].
Proof.
  unfold register_tool, dict_mem, dict_keys.
  induction r as [| [k v] r IH]; cbn; [reflexivity |].
  destruct (String.eqb (ITool.name t) k) eqn:E; cbn; [reflexivity |].
  rewrite IH. now destruct (dict_get String.eqb (ITool.name t) r).
Qed.

Lemma get_none_not_in name (r : registry) :
  dict_get String.eqb name r = None -> ~ In name (dict_keys r).
Proof.
  induction r as [| [k v] r IH]; cbn; [tauto |].
  destruct (String.eqb_spec name k) as [-> | Hne]; [discriminate |].
  intros H [E | Hin]; [now subst | now apply IH].
Qed.

Lemma keys_register_NoDup t r :
  NoDup (dict_keys r) -> NoDup (dict_keys (register_tool t r)).
Proof.
  intros Hn. rewrite keys_register. unfold dict_mem.
  destruct (dict_get String.eqb (ITool.name t) r) eqn:Hg; [exact Hn |].
  apply NoDup_app; [exact Hn | repeat constructor; cbn; tauto |].
  intros x Hx [<- | []]. now apply (get_none_not_in _ _ Hg).
Qed.

Lemma keyed_register t r : keyed r -> keyed (register_tool t r).
Proof.
  unfold keyed, register_tool. induction 1 as [| [k v] r Hk Hr IH]; cbn.
  - now repeat constructor.
  - destruct (String.eqb_spec (ITool.name t) k) as [E | E].
    + constructor; [cbn; now rewrite E | exact Hr].
    + constructor; [exact Hk | exact IH].
Qed.

Lemma registry_of_invariant ts :
  keyed (registry_of ts) /\ NoDup (dict_keys (registry_of ts)).
Proof.
  induction ts as [| t ts [Hk Hn]] using rev_ind.
  - split; constructor.
  - rewrite registry_of_snoc. split; [now apply keyed_register | now apply keys_register_NoDup].
Qed.

Lemma keyed_names (r : registry) :
  keyed r -> map ITool.name (get_registered_tools r) = dict_keys r.
Proof.
  unfold get_registered_tools, dict_values, dict_keys.
  induction 1 as [| [k v] r Hk _ IH]; cbn in *; [reflexivity |]. now rewrite IH, Hk.
Qed.

Lemma keyed_in_get (r : registry) t :
  keyed r -> NoDup (dict_keys r) ->
  In t (get_registered_tools r) <-> dict_get String.eqb (ITool.name t) r = Some t.
Proof.
  unfold get_registered_tools, dict_values, dict_keys.
  induction 1 as [| [k v] r Hk Hr IH]; cbn in *; intros Hn.
  - split; [tauto | discriminate].
  - apply NoDup_cons_iff in Hn as [Hnot Hn]. subst k.
    destruct (String.eqb_spec (ITool.name t) (ITool.name v)) as [E | E].
    + split.
      * intros [-> | Hin]; [reflexivity |]. exfalso. apply Hnot.
        rewrite <- E. apply in_map_iff.
        apply in_map_iff in Hin as ([k' v'] & <- & Hin).
        exists (k', v'). split; [| exact Hin].
        rewrite Forall_forall in Hr. exact (Hr _ Hin).
      * intros [= ->]. now left.
    + rewrite <- (IH Hn). split; [| tauto].
      intros [-> | Hin]; [contradiction | exact Hin].
Qed.

(** X9.  Registering a tool makes the executor handle every later call
    of that name as an executor that holds this tool alone would: whatever
    was registered under the name before is no longer used.  Calls of every
    other name are handled as before the registration. *)
Theorem register_then_execute t r tc :
  execute (register_tool t r) tc =
  if String.eqb (ToolCall.name tc) (ITool.name t)
  then execute (register_tool t []) tc
  else execute r tc.
Proof.
  unfold execute. rewrite !get_register.
  now destruct (String.eqb (ToolCall.name tc) (ITool.name t)).
Qed.

(** X10.  After a sequence of registrations a name stands for the last
    tool registered under it; the registered tools have pairwise distinct
    names, and they are exactly the tools that were the last of their
    name. *)
Theorem last_registration_wins ts :
  (forall name, dict_get String.eqb name (registry_of ts) = last_named name ts) /\
  NoDup (map ITool.name (get_registered_tools (registry_of ts))) /\
  (forall t, In t (get_registered_tools (registry_of ts)) <->
             last_named (ITool.name t) ts = Some t).
Proof.
  destruct (registry_of_invariant ts) as [Hk Hn]. split; [| split].
  - intros name. apply get_registry_of.
  - now rewrite keyed_names.
  - intros t. rewrite <- get_registry_of. now apply keyed_in_get.
Qed.

(** X11.  Registering a tool under a new name adds it after the tools
    registered so far; registering under a name already in use changes
    neither the number nor the order of the registered names. *)
Theorem register_keeps_order ts t :
  map ITool.name (get_registered_tools (registry_of (ts ++ [t]))) =
  if existsb (fun u => String.eqb (ITool.name t) (ITool.name u)) ts
  then map ITool.name (get_registered_tools (registry_of ts))
  else map ITool.name (get_registered_tools (registry_of ts)) ++ [ITool.name t].
Proof.
  destruct (registry_of_invariant ts) as [Hk _].
  rewrite registry_of_snoc.
  rewrite !keyed_names by (try apply keyed_register; exact Hk).
  rewrite keys_register. unfold dict_mem.
  rewrite get_registry_of, last_named_found. reflexivity.
Qed.
End RegistryFacts.

(* ================================================================== *)
(** * More of the formatter *)

Section LineFacts.
Import Json JsonFacts FormatFacts VercelStreamProtocolAdapter.
Local Open Scope nat_scope.

Lemma payload_line (t : ascii) (body : string) :
  payload (String t (String ":" (body ++ newline))) = body.
Proof.
  unfold payload. cbn [String.length substring].
  rewrite length_append. cbn [newline String.length].
  replace (S (S (String.length body + 1)) - 3) with (String.length body) by lia.
  apply substring_prefix.
Qed.

(** The line of every transmitted event: tag, colon, payload, newline. *)
Lemma format_event_line e :
  transmitted e = true ->
  exists t, tag_of e = String t EmptyString /\
            format_event e = String t (String ":" (payload_of e ++ newline)).
Proof.
  destruct e as [content | | | tc | r | fr u]; try discriminate; intros _;
    cbn [tag_of format_event payload_of].
  - exists "0"%char. split; reflexivity.
  - exists "9"%char. split; [reflexivity |].
    unfold tool_call_payload. cbn. repeat (rewrite !append_assoc; cbn). reflexivity.
  - exists "a"%char. split; [reflexivity |].
    unfold tool_result_payload. cbn. repeat (rewrite !append_assoc; cbn). reflexivity.
  - exists "e"%char. split; [reflexivity |].
    unfold completion_payload. cbn. repeat (rewrite !append_assoc; cbn). reflexivity.
Qed.

(** ** Tool result lines *)

Lemma scan_tool_result_payload r n :
  plain (ToolResult.call_id r) = true ->
  plain (ToolResult.name r) = true ->
  scan_once n (list_ascii_of_string (dumps (ToolResult.result r)) ++ ["}"%char]) =
    Match (ToolResult.result r) ["}"%char] ->
  scan_once (4 + n) (list_ascii_of_string (tool_result_payload r)) =
    Match (JObj [(py "toolCallId", JStr (py (ToolResult.call_id r)));
                 (py "toolName", JStr (py (ToolResult.name r)));
                 (py "result", ToolResult.result r)]) [].
Proof.
  intros Hid Hname Hres. unfold tool_result_payload.
  rewrite !chars_app.
  set (a := list_ascii_of_string (dumps (ToolResult.result r))) in *.
  change (scan_once (S (S (S (S n))))
            ("{"%char :: dquote ::
             list_ascii_of_string "toolCallId" ++ dquote :: ":"%char :: dquote ::
             list_ascii_of_string (ToolResult.call_id r) ++ dquote :: ","%char :: dquote ::
             list_ascii_of_string "toolName" ++ dquote :: ":"%char :: dquote ::
             list_ascii_of_string (ToolResult.name r) ++ dquote :: ","%char :: dquote ::
             list_ascii_of_string "result" ++ dquote :: ":"%char :: a ++ ["}"%char]) =
          Match (JObj (dict_of_pairs pystr_eqb
                         ((([] ++ [(py "toolCallId", JStr (py (ToolResult.call_id r)))]) ++
                           [(py "toolName", JStr (py (ToolResult.name r)))]) ++
                          [(py "result", ToolResult.result r)]))) []).
  cbn [scan_once].
  replace (Ascii.eqb "{"%char dquote) with false by reflexivity.
  rewrite Ascii.eqb_refl.
  rewrite (@skip_ws_head dquote) by reflexivity.
  replace (Ascii.eqb dquote "}"%char) with false by reflexivity.
  rewrite Ascii.eqb_refl.
  rewrite object_member_string by (reflexivity || assumption).
  rewrite object_member_string by (reflexivity || assumption).
  apply object_member_last; [reflexivity | exact Hres].
Qed.
End LineFacts.

Section NumberFacts.
Import Json JsonFacts FormatFacts VercelStreamProtocolAdapter.




Lemma span_digits_uint d tail :
  number_end tail = true ->
  span_digits (uint_chars d ++ tail) = (uint_chars d, tail).
Proof.
  intros Ht. unfold uint_chars.
  induction d as [| d IH | d IH | d IH | d IH | d IH | d IH | d IH | d IH | d IH | d IH];
    try (cbn [NilEmpty.string_of_uint list_ascii_of_string app span_digits];
         change (is_digit _) with true; cbv iota; rewrite IH; reflexivity).
  cbn. destruct tail as [| c t]; [reflexivity |].
  cbn in *. destruct (is_digit c); [discriminate | reflexivity].
Qed.

Lemma fold_digits_acc d : forall acc : positive,
  fold_left (fun n c => 10 * n + digit_val c) (uint_chars d) (Z.pos acc) =
  Z.pos (Pos.of_uint_acc d acc).
Proof.
  unfold uint_chars.
  induction d as [| d IH | d IH | d IH | d IH | d IH | d IH | d IH | d IH | d IH | d IH];
    intros acc; [reflexivity | ..];
    cbn [NilEmpty.string_of_uint list_ascii_of_string fold_left Pos.of_uint_acc];
    rewrite <- IH; f_equal;
    change (digit_val _) with 0 || change (digit_val _) with 1 ||
    change (digit_val _) with 2 || change (digit_val _) with 3 ||
    change (digit_val _) with 4 || change (digit_val _) with 5 ||
    change (digit_val _) with 6 || change (digit_val _) with 7 ||
    change (digit_val _) with 8 || change (digit_val _) with 9; lia.
Qed.

Lemma int_of_digits_uint d : int_of_digits (uint_chars d) = Z.of_uint d.
Proof.
  unfold int_of_digits, Z.of_uint, uint_chars.
  induction d as [| d IH | d IH | d IH | d IH | d IH | d IH | d IH | d IH | d IH | d IH];
    [reflexivity | exact IH | ..];
    cbn [NilEmpty.string_of_uint list_ascii_of_string fold_left Pos.of_uint];
    exact (fold_digits_acc d _).
Qed.

(** How an integer is written: a zero, or a possibly negated numeral that
    starts with a non-zero digit. *)
Lemma string_of_Z_shape z :
  (z = 0 /\ list_ascii_of_string (string_of_Z z) = ["0"%char]) \/
  (exists d, lead_nonzero d /\ Z.of_uint d = z /\
             list_ascii_of_string (string_of_Z z) = uint_chars d) \/
  (exists d, lead_nonzero d /\ - Z.of_uint d = z /\
             list_ascii_of_string (string_of_Z z) = "-"%char :: uint_chars d).
Proof.
  pose proof (DecimalZ.of_to z) as Hof.
  pose proof (DecimalZ.to_of (Z.to_int z)) as Hto. rewrite Hof in Hto.
  unfold string_of_Z.
  destruct z as [| p | p]; [left; split; reflexivity | right; left | right; right];
    cbn [Z.to_int] in *; exists (Pos.to_uint p);
    cbn [Decimal.norm Z.of_int] in *.
  - assert (Hl : lead_nonzero (Pos.to_uint p)).
    { injection Hto as Hto. unfold Decimal.unorm in Hto.
      pose proof (@DecimalFacts.nzhead_nonzero (Pos.to_uint p)) as Hnz.
      destruct (Decimal.nzhead (Pos.to_uint p)) eqn:Hn; rewrite Hto; cbn; auto.
      - rewrite Hto in Hof. discriminate Hof.
      - now apply (Hnz u). }
    split; [exact Hl |]. split; [exact Hof |].
    unfold NilZero.string_of_int, NilZero.string_of_uint, uint_chars.
    destruct (Pos.to_uint p); try reflexivity; contradiction.
  - assert (Hl : lead_nonzero (Pos.to_uint p)).
    { pose proof (@DecimalFacts.nzhead_nonzero (Pos.to_uint p)) as Hnz.
      destruct (Decimal.nzhead (Pos.to_uint p)) eqn:Hn;
        try (injection Hto as Hto; rewrite Hto; cbn; auto; fail).
      - discriminate Hto.
      - now destruct (Hnz u). }
    split; [exact Hl |]. split; [exact Hof |].
    unfold NilZero.string_of_int, NilZero.string_of_uint, uint_chars.
    destruct (Pos.to_uint p); try reflexivity; contradiction.
Qed.

Lemma lead_char d :
  lead_nonzero d ->
  exists c cs, uint_chars d = c :: cs /\ is_digit c = true /\
               Ascii.eqb c "0" = false /\ Ascii.eqb c "-" = false.
Proof.
  destruct d; try contradiction; intros _; eexists _, _;
    (split; [unfold uint_chars; cbn; reflexivity | repeat split]).
Qed.

Lemma scan_frac_end tail : number_end tail = true -> scan_frac tail = ([], tail).
Proof.
  destruct tail as [| c t]; [reflexivity |]. cbn.
  rewrite !andb_true_iff, !negb_true_iff. intros [[[_ ->] _] _]. reflexivity.
Qed.

Lemma scan_exp_end tail : number_end tail = true -> scan_exp tail = ([], tail).
Proof.
  destruct tail as [| c t]; [reflexivity |]. cbn.
  rewrite !andb_true_iff, !negb_true_iff. intros [[_ ->] ->]. reflexivity.
Qed.

Lemma match_number_uint d tail :
  lead_nonzero d -> number_end tail = true ->
  match_number (uint_chars d ++ tail) = Some (JInt (Z.of_uint d), tail).
Proof.
  intros Hl Ht. pose proof (@span_digits_uint d tail Ht) as Hsp.
  pose proof (int_of_digits_uint d) as Hv.
  destruct (@lead_char d Hl) as (c & cs & E & Hd & H0 & Hm).
  rewrite E in *. cbn [app] in Hsp. unfold match_number. cbn [app scan_sign].
  rewrite Hm. cbn [scan_integer]. rewrite H0, Hd, Hsp, (@scan_frac_end tail Ht), (@scan_exp_end tail Ht), Hv. reflexivity.
Qed.

Lemma match_number_negated d tail :
  lead_nonzero d -> number_end tail = true ->
  match_number ("-"%char :: uint_chars d ++ tail) = Some (JInt (- Z.of_uint d), tail).
Proof.
  intros Hl Ht. pose proof (@span_digits_uint d tail Ht) as Hsp.
  pose proof (int_of_digits_uint d) as Hv.
  destruct (@lead_char d Hl) as (c & cs & E & Hd & H0 & Hm).
  rewrite E in *. cbn [app] in Hsp. unfold match_number. cbn [app scan_sign].
  change (Ascii.eqb "-" "-") with true. cbn [scan_integer].
  rewrite H0, Hd, Hsp, (@scan_frac_end tail Ht), (@scan_exp_end tail Ht), Hv. reflexivity.
Qed.

Lemma match_number_zero tail :
  number_end tail = true ->
  match_number ("0"%char :: tail) = Some (JInt 0, tail).
Proof.
  intros Ht. unfold match_number. cbn [scan_sign].
  change (Ascii.eqb "0" "-") with false. cbn [scan_integer].
  change (Ascii.eqb "0" "0") with true. cbv iota. rewrite (@scan_frac_end tail Ht), (@scan_exp_end tail Ht). reflexivity.
Qed.

Lemma is_digit_cases c :
  is_digit c = true ->
  In c ["0"; "1"; "2"; "3"; "4"; "5"; "6"; "7"; "8"; "9"]%char.
Proof.
  destruct c as [[|] [|] [|] [|] [|] [|] [|] [|]]; try discriminate; intros _;
    cbn; tauto.
Qed.

(** A text that starts with a digit or a minus sign is read by the number
    pattern. *)
Lemma scan_numeral c cs v tail f :
  is_digit c || Ascii.eqb c "-" = true ->
  match_number (c :: cs) = Some (v, tail) ->
  scan_once (S f) (c :: cs) = Match v tail.
Proof.
  intros Hc Hm.
  assert (Hs : scan_once (S f) (c :: cs) = scan_atom (c :: cs) /\
               literal "null" JNull (c :: cs) = None /\
               literal "true" (JBool true) (c :: cs) = None /\
               literal "false" (JBool false) (c :: cs) = None).
  { apply orb_true_iff in Hc as [Hc | Hc].
    - apply is_digit_cases in Hc. cbn [In] in Hc.
      repeat (destruct Hc as [<- | Hc]; [repeat split |]); contradiction.
    - apply Ascii.eqb_eq in Hc as ->. repeat split. }
  destruct Hs as (-> & Hn & Ht & Hf).
  unfold scan_atom. rewrite Hn, Ht, Hf, Hm. reflexivity.
Qed.

(** An integer is read back from the way it is written, whatever follows
    it that is not the continuation of a number. *)
Lemma scan_number z f tail :
  number_end tail = true ->
  scan_once (S f) (list_ascii_of_string (string_of_Z z) ++ tail) = Match (JInt z) tail.
Proof.
  intros Ht.
  destruct (string_of_Z_shape z) as [[-> ->] | [(d & Hl & <- & ->) | (d & Hl & <- & ->)]].
  - apply scan_numeral; [reflexivity |]. now apply match_number_zero.
  - pose proof (@match_number_uint d tail Hl Ht) as Hm.
    destruct (@lead_char d Hl) as (c & cs & E & Hd & _ & _).
    rewrite E in *. cbn [app] in *. apply scan_numeral; [now rewrite Hd | exact Hm].
  - apply scan_numeral; [reflexivity |]. now apply match_number_negated.
Qed.

Local Open Scope nat_scope.

(** One member of an object, followed by another one. *)
Lemma object_member_next f k s v rest pairs :
  plain k = true ->
  scan_once f s = Match v (","%char :: dquote :: rest) ->
  object_members (S f) (list_ascii_of_string k ++ dquote :: ":"%char :: s) pairs =
  object_members f rest (pairs ++ [(py k, v)]).
Proof.
  intros Hk Hv. cbn [object_members].
  rewrite scanstring_plain; [| exact Hk | rewrite length_app; lia].
  rewrite (@skip_ws_head ":"%char) by reflexivity.
  rewrite Ascii.eqb_refl.
  rewrite (@scan_once_no_ws _ _ _ _ Hv), Hv.
  rewrite (@skip_ws_head ","%char) by reflexivity.
  replace (Ascii.eqb ","%char "}"%char) with false by reflexivity.
  rewrite Ascii.eqb_refl.
  rewrite (@skip_ws_head dquote) by reflexivity.
  rewrite Ascii.eqb_refl. reflexivity.
Qed.

(** The last member of an object. *)
Lemma object_member_close f k s v tail pairs :
  plain k = true ->
  scan_once f s = Match v ("}"%char :: tail) ->
  object_members (S f) (list_ascii_of_string k ++ dquote :: ":"%char :: s) pairs =
  Match (JObj (dict_of_pairs pystr_eqb (pairs ++ [(py k, v)]))) tail.
Proof.
  intros Hk Hv. cbn [object_members].
  rewrite scanstring_plain; [| exact Hk | rewrite length_app; lia].
  rewrite (@skip_ws_head ":"%char) by reflexivity.
  rewrite Ascii.eqb_refl.
  rewrite (@scan_once_no_ws _ _ _ _ Hv), Hv.
  rewrite (@skip_ws_head "}"%char) by reflexivity.
  rewrite Ascii.eqb_refl. reflexivity.
Qed.

Lemma scan_usage p c tail :
  scan_once 4
    ("{"%char :: dquote ::
     list_ascii_of_string "promptTokens" ++ dquote :: ":"%char ::
     list_ascii_of_string (string_of_Z p) ++ ","%char :: dquote ::
     list_ascii_of_string "completionTokens" ++ dquote :: ":"%char ::
     list_ascii_of_string (string_of_Z c) ++ "}"%char :: tail) =
  Match (JObj [(py "promptTokens", JInt p); (py "completionTokens", JInt c)]) tail.
Proof.
  cbn [scan_once].
  replace (Ascii.eqb "{"%char dquote) with false by reflexivity.
  rewrite Ascii.eqb_refl.
  rewrite (@skip_ws_head dquote) by reflexivity.
  replace (Ascii.eqb dquote "}"%char) with false by reflexivity.
  rewrite Ascii.eqb_refl.
  pose proof (@scan_number c 0 ("}"%char :: tail) eq_refl) as Hc.
  pose proof (@scan_number p 1
                (","%char :: dquote ::
                 list_ascii_of_string "completionTokens" ++ dquote :: ":"%char ::
                 list_ascii_of_string (string_of_Z c) ++ "}"%char :: tail) eq_refl) as Hp.
  rewrite (@object_member_next 2 "promptTokens" _ _ _ [] eq_refl Hp).
  rewrite (@object_member_close 1 "completionTokens" _ _ _ _ eq_refl Hc).
  reflexivity.
Qed.


Lemma scan_completion_payload fr u :
  plain fr = true ->
  scan_once 7 (list_ascii_of_string (completion_payload fr u)) =
  Match (completion_value fr u) [].
Proof.
  intros Hfr. unfold completion_payload. rewrite !chars_app.
  change (scan_once 7
            ("{"%char :: dquote ::
             list_ascii_of_string "finishReason" ++ dquote :: ":"%char :: dquote ::
             list_ascii_of_string fr ++ dquote :: ","%char :: dquote ::
             list_ascii_of_string "usage" ++ dquote :: ":"%char ::
             "{"%char :: dquote ::
             list_ascii_of_string "promptTokens" ++ dquote :: ":"%char ::
             list_ascii_of_string (string_of_Z (UsageStats.prompt_tokens u)) ++
             ","%char :: dquote ::
             list_ascii_of_string "completionTokens" ++ dquote :: ":"%char ::
             list_ascii_of_string (string_of_Z (UsageStats.completion_tokens u)) ++
             "}"%char :: ","%char :: dquote ::
             list_ascii_of_string "isContinued" ++ dquote :: ":"%char ::
             list_ascii_of_string "false}") =
          Match (completion_value fr u) []).
  cbn [scan_once].
  replace (Ascii.eqb "{"%char dquote) with false by reflexivity.
  rewrite Ascii.eqb_refl.
  rewrite (@skip_ws_head dquote) by reflexivity.
  replace (Ascii.eqb dquote "}"%char) with false by reflexivity.
  rewrite Ascii.eqb_refl.
  rewrite object_member_string by (reflexivity || assumption).
  rewrite (@object_member_next 4 "usage" _ _ _ _ eq_refl (scan_usage _ _ _)).
  assert (Hf : scan_once 3 (list_ascii_of_string "false}") =
               Match (JBool false) ["}"%char]) by reflexivity.
  rewrite (@object_member_close 3 "isContinued" _ _ _ _ eq_refl Hf).
  reflexivity.
Qed.
End NumberFacts.

Section CodecFacts.
Import Json JsonFacts FormatFacts VercelStreamProtocolAdapter.
Local Open Scope N_scope.

(** ** Four hexadecimal digits *)

Lemma hex_digit_val d : d < 16 -> hex_val (hex_digit d) = Some d.
Proof.
  intros H.
  assert (Hd : In d [0; 1; 2; 3; 4; 5; 6; 7; 8; 9; 10; 11; 12; 13; 14; 15]).
  { cbn. lia. }
  cbn [In] in Hd.
  repeat (destruct Hd as [<- | Hd]; [reflexivity |]). contradiction.
Qed.

Lemma hex_digit_no_newline d :
  d < 16 -> Ascii.eqb (hex_digit d) "010" = false.
Proof.
  intros H.
  assert (Hd : In d [0; 1; 2; 3; 4; 5; 6; 7; 8; 9; 10; 11; 12; 13; 14; 15]).
  { cbn. lia. }
  cbn [In] in Hd.
  repeat (destruct Hd as [<- | Hd]; [reflexivity |]). contradiction.
Qed.

Lemma hex_digits_value n :
  n < 65536 ->
  ((((n / 4096) mod 16) * 16 + (n / 256) mod 16) * 16 + (n / 16) mod 16) * 16 +
  n mod 16 = n.
Proof. intros H. zify. Z.to_euclidean_division_equations. lia. Qed.

Lemma mod16_lt n : n mod 16 < 16.
Proof. apply N.mod_lt. discriminate. Qed.

Lemma hex4_decode n tail :
  n < 65536 ->
  decode_uXXXX (list_ascii_of_string (hex4 n) ++ tail) = Some (n, tail).
Proof.
  intros H. unfold hex4. cbn [list_ascii_of_string app decode_uXXXX].
  rewrite !hex_digit_val by apply mod16_lt.
  now rewrite hex_digits_value.
Qed.

Lemma hex4_no_newline n : no_newline (hex4 n) = true.
Proof.
  unfold no_newline, hex4. cbn [list_ascii_of_string forallb].
  now rewrite !hex_digit_no_newline by apply mod16_lt.
Qed.

(** ** One code point *)

Lemma scalar_cases c :
  scalar c = true -> c < 55296 \/ (57343 < c /\ c < 1114112).
Proof.
  unfold scalar. rewrite andb_true_iff, negb_true_iff, andb_false_iff.
  rewrite N.ltb_lt, !N.leb_gt. lia.
Qed.

Lemma surrogates_of c :
  65536 <= c -> c < 1114112 ->
  let n := c - 65536 in
  let s1 := 55296 + (n / 1024) mod 1024 in
  let s2 := 56320 + n mod 1024 in
  s1 < 65536 /\ s2 < 65536 /\
  is_high_surrogate s1 = true /\ is_low_surrogate s2 = true /\
  65536 + ((s1 - 55296) * 1024 + (s2 - 56320)) = c.
Proof.
  intros H1 H2 n s1 s2. unfold is_high_surrogate, is_low_surrogate.
  rewrite !andb_true_iff, !N.leb_le. subst n s1 s2.
  repeat split; zify; Z.to_euclidean_division_equations; lia.
Qed.

Lemma scanstring_backslash f rest :
  scanstring (S f) ("\"%char :: rest) =
  match scan_escape rest with
  | None => NoMatch
  | Some (ch, rest1) =>
      match scanstring f rest1 with
      | Match chars rest2 => Match (ch :: chars) rest2
      | other => other
      end
  end.
Proof. reflexivity. Qed.

Lemma scan_escape_u rest :
  scan_escape ("u"%char :: rest) =
  match decode_uXXXX rest with
  | None => None
  | Some (uni, rest1) =>
      if is_high_surrogate uni then
        match rest1 with
        | b :: u :: rest2 =>
            if Ascii.eqb b "\" && Ascii.eqb u "u" then
              match decode_uXXXX rest2 with
              | None => None
              | Some (uni2, rest3) =>
                  if is_low_surrogate uni2 then
                    Some (65536 + ((uni - 55296) * 1024 + (uni2 - 56320)), rest3)
                  else Some (uni, rest1)
              end
            else Some (uni, rest1)
        | _ => Some (uni, rest1)
        end
      else Some (uni, rest1)
  end.
Proof. reflexivity. Qed.

(** Scanning the encoding of one code point gives the code point back. *)
Lemma escape_scan_point c f tail :
  scalar c = true ->
  scanstring (S f) (list_ascii_of_string (escape_char c) ++ tail) =
  match scanstring f tail with
  | Match chars r => Match (c :: chars) r
  | other => other
  end.
Proof.
  intros Hs. apply scalar_cases in Hs. unfold escape_char. cbv zeta.
  destruct (N.eqb_spec c 34) as [-> | H34]; [reflexivity |].
  destruct (N.eqb_spec c 92) as [-> | H92]; [reflexivity |].
  destruct (N.eqb_spec c 10) as [-> | H10]; [reflexivity |].
  destruct (N.eqb_spec c 13) as [-> | H13]; [reflexivity |].
  destruct (N.eqb_spec c 9) as [-> | H9]; [reflexivity |].
  destruct (N.eqb_spec c 12) as [-> | H12]; [reflexivity |].
  destruct (N.eqb_spec c 8) as [-> | H8]; [reflexivity |].
  destruct ((32 <=? c) && (c <=? 126)) eqn:Hp.
  - apply andb_true_iff in Hp as [Hlo Hhi]. apply N.leb_le in Hlo, Hhi.
    assert (Hn : N_of_ascii (ascii_of_N c) = c) by (apply N_ascii_embedding; lia).
    assert (E1 : Ascii.eqb (ascii_of_N c) dquote = false).
    { apply Ascii.eqb_neq. intros E. rewrite E in Hn. cbn in Hn. lia. }
    assert (E2 : Ascii.eqb (ascii_of_N c) "\" = false).
    { apply Ascii.eqb_neq. intros E. rewrite E in Hn. cbn in Hn. lia. }
    cbn [list_ascii_of_string app scanstring]. rewrite E1, E2, Hn.
    replace (c <? 32) with false by (symmetry; apply N.ltb_ge; lia).
    reflexivity.
  - destruct (N.ltb_spec c 65536) as [Hlt | Hge].
    + rewrite !chars_app, <- !app_assoc. cbn [list_ascii_of_string app].
      rewrite scanstring_backslash, scan_escape_u, hex4_decode by exact Hlt.
      replace (is_high_surrogate c) with false; [reflexivity |].
      symmetry. unfold is_high_surrogate. apply andb_false_iff.
      rewrite N.leb_gt, N.leb_gt. lia.
    + destruct Hs as [Hs | [_ Hs]]; [lia |].
      destruct (surrogates_of Hge Hs) as (L1 & L2 & Hh & Hl & Hv).
      cbv zeta in *.
      rewrite !chars_app, <- !app_assoc. cbn [list_ascii_of_string app].
      rewrite scanstring_backslash, scan_escape_u, hex4_decode by exact L1.
      rewrite Hh. cbn [Ascii.eqb Bool.eqb andb].
      rewrite hex4_decode by exact L2. now rewrite Hl, Hv.
Qed.

Lemma escape_point_length c :
  (1 <= List.length (list_ascii_of_string (escape_char c)))%nat.
Proof.
  unfold escape_char. cbv zeta.
  repeat match goal with
         | |- context [if ?b then _ else _] => destruct b
         end;
    rewrite ?chars_app, ?length_app; cbn [list_ascii_of_string List.length]; lia.
Qed.

Lemma ascii_of_N_no_newline c :
  32 <= c -> c <= 126 -> Ascii.eqb (ascii_of_N c) "010" = false.
Proof.
  intros Hlo Hhi. apply Ascii.eqb_neq. intros E.
  assert (Hn : N_of_ascii (ascii_of_N c) = c) by (apply N_ascii_embedding; lia).
  rewrite E in Hn. cbn in Hn. lia.
Qed.

Lemma no_newline_app a b : no_newline (a ++ b) = no_newline a && no_newline b.
Proof. unfold no_newline. now rewrite chars_app, forallb_app. Qed.

Lemma escape_point_no_newline c : no_newline (escape_char c) = true.
Proof.
  unfold escape_char. cbv zeta.
  destruct (c =? 34); [reflexivity |].
  destruct (c =? 92); [reflexivity |].
  destruct (c =? 10); [reflexivity |].
  destruct (c =? 13); [reflexivity |].
  destruct (c =? 9); [reflexivity |].
  destruct (c =? 12); [reflexivity |].
  destruct (c =? 8); [reflexivity |].
  destruct ((32 <=? c) && (c <=? 126)) eqn:Hp.
  - apply andb_true_iff in Hp as [Hlo Hhi]. apply N.leb_le in Hlo, Hhi.
    unfold no_newline. cbn [list_ascii_of_string forallb].
    now rewrite ascii_of_N_no_newline.
  - destruct (c <? 65536); rewrite !no_newline_app, !hex4_no_newline; reflexivity.
Qed.

(** ** A whole text *)

Lemma escaped_points_length s :
  (List.length s <= List.length (list_ascii_of_string (escaped_points s)))%nat.
Proof.
  induction s as [| c s IH]; [cbn; lia |].
  cbn [escaped_points fold_right]. fold (escaped_points s).
  rewrite chars_app, length_app. pose proof (escape_point_length c).
  cbn [List.length]. lia.
Qed.

Lemma escaped_points_scan s : forall f tail,
  forallb scalar s = true ->
  (List.length s < f)%nat ->
  scanstring f (list_ascii_of_string (escaped_points s) ++ dquote :: tail) =
  Match s tail.
Proof.
  induction s as [| c s IH]; intros f tail Hs Hf.
  - destruct f; [lia |]. reflexivity.
  - destruct f; [cbn in Hf; lia |].
    cbn [forallb] in Hs. apply andb_true_iff in Hs as [Hc Hs].
    cbn [escaped_points fold_right]. fold (escaped_points s).
    rewrite chars_app, <- app_assoc, escape_scan_point by exact Hc.
    rewrite IH by (try exact Hs; cbn in Hf; lia). reflexivity.
Qed.

Lemma escaped_points_no_newline s : no_newline (escaped_points s) = true.
Proof.
  induction s as [| c s IH]; [reflexivity |].
  cbn [escaped_points fold_right]. fold (escaped_points s).
  now rewrite no_newline_app, escape_point_no_newline.
Qed.

Lemma dumps_points s :
  dumps (JStr s) =
  (String dquote EmptyString ++ escaped_points s ++ String dquote EmptyString)%string.
Proof. reflexivity. Qed.

Lemma dumps_points_no_newline s : no_newline (dumps (JStr s)) = true.
Proof. now rewrite dumps_points, !no_newline_app, escaped_points_no_newline. Qed.

(** A text of scalar values is read back from its encoding. *)
Lemma loads_dumps_points s :
  forallb scalar s = true -> loads (dumps (JStr s)) = Some (JStr s).
Proof.
  intros Hs. unfold loads.
  assert (Hd : decode (dumps (JStr s)) = Match (JStr s) []).
  { apply decode_scan with (n := 1%nat) (r := []); [| reflexivity].
    rewrite dumps_points, !chars_app. cbn [list_ascii_of_string app].
    rewrite skip_ws_head by reflexivity.
    cbn [scan_once]. rewrite Ascii.eqb_refl.
    rewrite escaped_points_scan; [reflexivity | exact Hs |].
    pose proof (escaped_points_length s). cbn [List.length].
    rewrite length_app. cbn [List.length]. lia. }
  now rewrite Hd.
Qed.

Lemma py_scalar content : forallb scalar (py content) = true.
Proof.
  unfold py. induction content as [| a content IH]; [reflexivity |].
  cbn [list_ascii_of_string map forallb]. rewrite IH, andb_true_r.
  pose proof (N_ascii_bounded a) as Hb. unfold scalar.
  apply andb_true_iff. split; [apply N.ltb_lt; lia |].
  apply negb_true_iff, andb_false_iff. left. apply N.leb_gt. lia.
Qed.
End CodecFacts.

Section WireFacts.
Import Json JsonFacts FormatFacts VercelStreamProtocolAdapter.

Lemma forallb_rev {A} (f : A -> bool) l : forallb f (rev l) = forallb f l.
Proof.
  induction l as [| x l IH]; [reflexivity |].
  cbn [rev forallb]. rewrite forallb_app, IH. cbn. now rewrite andb_true_r, andb_comm.
Qed.

Lemma one_line_newline body : one_line (body ++ newline) = no_newline body.
Proof.
  unfold one_line, no_newline. rewrite chars_app, rev_app_distr.
  cbn [newline list_ascii_of_string rev app]. now rewrite forallb_rev.
Qed.

Lemma string_of_Z_no_newline z : no_newline (string_of_Z z) = true.
Proof.
  assert (Hu : forall d, forallb (fun c => negb (Ascii.eqb c "010")) (uint_chars d) = true).
  { unfold uint_chars. induction d; cbn; auto. }
  unfold no_newline.
  destruct (string_of_Z_shape z) as [[_ ->] | [(d & _ & _ & ->) | (d & _ & _ & ->)]].
  - reflexivity.
  - apply Hu.
  - cbn [forallb]. now rewrite Hu.
Qed.

Lemma payload_framed e : no_newline (payload_of e) = framed e.
Proof.
  destruct e as [content | | | tc | r | fr u]; cbn [payload_of framed]; try reflexivity.
  - apply dumps_points_no_newline.
  - unfold tool_call_payload. rewrite !no_newline_app.
    generalize (no_newline (ToolCall.id tc)), (no_newline (ToolCall.name tc)),
      (no_newline (dumps (ToolCall.arguments tc))).
    intros [|] [|] [|]; reflexivity.
  - unfold tool_result_payload. rewrite !no_newline_app.
    generalize (no_newline (ToolResult.call_id r)), (no_newline (ToolResult.name r)),
      (no_newline (dumps (ToolResult.result r))).
    intros [|] [|] [|]; reflexivity.
  - unfold completion_payload. rewrite !no_newline_app, !string_of_Z_no_newline.
    generalize (no_newline fr). intros [|]; reflexivity.
Qed.

(** The string of an event that has one is a single line exactly when the
    event is framed. *)
Lemma one_line_framed e :
  transmitted e = true -> one_line (format_event e) = framed e.
Proof.
  intros He. destruct (format_event_line e He) as (t & Ht & ->).
  change (String t (String ":" (payload_of e ++ newline)))
    with ((String t (String ":" (payload_of e))) ++ newline)%string.
  rewrite one_line_newline, <- payload_framed. unfold no_newline.
  cbn [list_ascii_of_string forallb].
  destruct e; try discriminate He; injection Ht as <-; reflexivity.
Qed.

Lemma lines_of_line body rest :
  no_newline body = true ->
  lines_of (body ++ newline ++ rest) = body :: lines_of rest.
Proof.
  unfold no_newline. induction body as [| c body IH]; intros Hb.
  - reflexivity.
  - cbn [list_ascii_of_string forallb] in Hb. apply andb_true_iff in Hb as [Hc Hb].
    apply negb_true_iff in Hc.
    cbn [String.append lines_of]. rewrite Hc, (IH Hb). reflexivity.
Qed.

Lemma truthy_line e : str_truthy (format_event e) = transmitted e.
Proof. now destruct e. Qed.

Lemma strings_of_events evs :
  filter str_truthy (map format_event evs) = map format_event (filter transmitted evs).
Proof.
  induction evs as [| e evs IH]; [reflexivity |].
  cbn [map filter]. rewrite truthy_line.
  destruct (transmitted e); cbn [map]; now rewrite IH.
Qed.

(** What the client reads of the line of one event. *)
Lemma line_text_event e :
  transmitted e = true ->
  exists line,
    format_event e = (line ++ newline)%string /\
    no_newline line = framed e /\
    line_text line = match e with TextDelta content => [py content] | _ => [] end.
Proof.
  intros He. destruct (format_event_line e He) as (t & Ht & Hf).
  exists (String t (String ":" (payload_of e))). split; [exact Hf |]. split.
  - rewrite <- payload_framed. unfold no_newline. cbn [list_ascii_of_string forallb].
    destruct e; try discriminate He; injection Ht as <-; reflexivity.
  - destruct e as [content | | | tc | r | fr u]; try discriminate He;
      injection Ht as <-; try reflexivity.
    cbn [line_text payload_of]. now rewrite loads_dumps_points by apply py_scalar.
Qed.

Lemma client_reads_events evs :
  Forall (fun e => framed e = true) evs ->
  flat_map line_text (lines_of (response_body (map format_event (filter transmitted evs)))) =
  flat_map (fun e => match e with TextDelta content => [py content] | _ => [] end) evs.
Proof.
  induction 1 as [| e evs He _ IH]; [reflexivity |].
  cbn [filter flat_map]. destruct (transmitted e) eqn:Ht.
  - destruct (line_text_event e Ht) as (line & Hf & Hn & Hl).
    cbn [map response_body fold_right]. rewrite Hf.
    fold (response_body (map format_event (filter transmitted evs))).
    rewrite append_assoc, lines_of_line by (now rewrite Hn).
    cbn [flat_map]. now rewrite Hl, IH.
  - rewrite IH. destruct e; try discriminate Ht; reflexivity.
Qed.

Lemma texts_of_events tr :
  flat_map (fun e => match e with TextDelta content => [py content] | _ => [] end)
           (events_of tr) =
  map py (texts_of tr).
Proof.
  induction tr as [| a tr IH]; [reflexivity |].
  destruct a as [e | tc]; [| exact IH].
  cbn [events_of flat_map]. destruct e; cbn [texts_of app map]; now rewrite IH.
Qed.

(** X12.  The line of a text event -- the tag, [json.dumps] of the content
    and a line feed -- is read back whatever the text: for every content
    made of Unicode scalar values (any code points but the surrogates, up
    to U+10FFFF), the encoded string holds no raw line feed, so that the
    line is one line, and decoding it gives the content back, code point
    for code point.  The contents of the events of this model are such
    texts, with their code points below 256, and [format_event] builds this
    line for them. *)
Theorem text_line_read_back :
  (forall content : pystr,
     forallb scalar content = true ->
     no_newline (dumps (JStr content)) = true /\
     one_line (text_line content) = true /\
     loads (dumps (JStr content)) = Some (JStr content) /\
     decode_line (text_line content) = Some (JStr content)) /\
  (forall content : string,
     format_event (TextDelta content) = text_line (py content) /\
     forallb scalar (py content) = true).
Proof.
  split.
  - intros content Hs.
    pose proof (dumps_points_no_newline content) as Hn.
    pose proof (loads_dumps_points content Hs) as Hl.
    split; [exact Hn |]. split; [| split; [exact Hl |]].
    + unfold text_line.
      change ("0:" ++ dumps (JStr content) ++ newline)%string
        with (("0:" ++ dumps (JStr content)) ++ newline)%string.
      rewrite one_line_newline, no_newline_app. now rewrite Hn.
    + unfold decode_line, text_line.
      change ("0:" ++ dumps (JStr content) ++ newline)%string
        with (String "0" (String ":" (dumps (JStr content) ++ newline))).
      now rewrite payload_line.
  - intros content. split; [reflexivity | apply py_scalar].
Qed.

(** X13.  The line of a tool result whose call id and tool name need no
    escaping is read back field by field, whenever the result is read back
    from its encoding. *)
Theorem tool_result_line_read_back r :
  plain (ToolResult.call_id r) = true ->
  plain (ToolResult.name r) = true ->
  reads_back (ToolResult.result r) ->
  decode_line (format_event (ToolResultAvailable r)) =
  Some (JObj [(py "toolCallId", JStr (py (ToolResult.call_id r)));
              (py "toolName", JStr (py (ToolResult.name r)));
              (py "result", ToolResult.result r)]).
Proof.
  intros Hid Hname [n Hres].
  unfold decode_line, loads.
  destruct (@format_event_line (ToolResultAvailable r) eq_refl) as (t & _ & ->).
  rewrite payload_line. cbn [payload_of].
  pose proof (@scan_tool_result_payload r n Hid Hname Hres) as Hs.
  assert (Hd : decode (tool_result_payload r) =
               Match (JObj [(py "toolCallId", JStr (py (ToolResult.call_id r)));
                            (py "toolName", JStr (py (ToolResult.name r)));
                            (py "result", ToolResult.result r)]) []).
  { apply decode_scan with (n := (4 + n)%nat) (r := []); [| reflexivity].
    rewrite (@scan_once_no_ws _ _ _ _ Hs). exact Hs. }
  now rewrite Hd.
Qed.

(** X14.  The line of a finished completion is read back for every pair
    of token counts, negative ones included: the finish reason, the prompt
    and completion counts and a constant flag.  The total of the usage
    statistics is not on the line. *)
Theorem completion_line_read_back fr u :
  plain fr = true ->
  decode_line (format_event (CompletionFinished fr u)) =
  Some (JObj [(py "finishReason", JStr (py fr));
              (py "usage",
               JObj [(py "promptTokens", JInt (UsageStats.prompt_tokens u));
                     (py "completionTokens", JInt (UsageStats.completion_tokens u))]);
              (py "isContinued", JBool false)]).
Proof.
  intros Hfr. unfold decode_line, loads.
  destruct (@format_event_line (CompletionFinished fr u) eq_refl) as (t & _ & ->).
  rewrite payload_line. cbn [payload_of].
  pose proof (@scan_completion_payload fr u Hfr) as Hs.
  assert (Hd : decode (completion_payload fr u) = Match (completion_value fr u) []).
  { apply decode_scan with (n := 7%nat) (r := []); [| reflexivity].
    rewrite (@scan_once_no_ws _ _ _ _ Hs). exact Hs. }
  now rewrite Hd.
Qed.

(** X15.  The router yields one string per event that has one, in the
    order of the events, and nothing for the start and chunk events of a
    tool call; no string is empty.  The string of an event is a single
    line, ending with its only line feed, exactly when no raw line feed
    sits in what the formatter copies or encodes: the call id, the tool
    name, the finish reason, the encoded arguments or result.  It always
    is for a text event; an event with a line feed in its call id is spread
    over several lines of the response. *)
Theorem router_sends_transmitted_events g :
  let out := fst (ChatRouter.stream_events g) in
  out = map format_event (filter transmitted (events_of (trace g))) /\
  Forall (fun s => str_truthy s = true) out /\
  (forall e, transmitted e = true -> one_line (format_event e) = framed e) /\
  (forall content, one_line (format_event (TextDelta content)) = true) /\
  (forall tc, no_newline (ToolCall.id tc) = false ->
              one_line (format_event (ToolCallCompleted tc)) = false).
Proof.
  cbn zeta. unfold ChatRouter.stream_events. cbn [fst].
  rewrite strings_of_events. split; [reflexivity |]. split; [| split; [| split]].
  - apply Forall_forall. intros line Hin.
    apply in_map_iff in Hin as (e & <- & He). apply filter_In in He as [_ He].
    now rewrite truthy_line.
  - exact one_line_framed.
  - intros content. now rewrite one_line_framed.
  - intros tc Hid. rewrite one_line_framed by reflexivity.
    cbn [framed]. now rewrite Hid.
Qed.

(** X16.  From the provider to the client: when a request is served to
    the end and every string yielded is a single line, a client that cuts
    the body of the response at the line feeds and decodes the lines of
    kind 0 reads the contents of the text fragments of the provider stream,
    in order and unchanged, whatever tool calls were interleaved.  A
    request the mapper rejects is answered with the mapper's exception and
    nothing is yielded. *)
Theorem text_reaches_client json_loads tools stream_completion request :
  (forall out,
     ChatRouter.handle_chat json_loads tools stream_completion request =
       Returned (out, Returned tt) ->
     Forall (fun s => one_line s = true) out ->
     exists messages,
       MessageMapper.to_domain request = Returned messages /\
       client_reads out =
       map py (texts_of_stream
                 (stream_completion messages (ToolExecutor.get_registered_tools tools)))) /\
  (forall e,
     MessageMapper.to_domain request = Raised e ->
     ChatRouter.handle_chat json_loads tools stream_completion request = Raised e).
Proof.
  unfold ChatRouter.handle_chat. split.
  - intros out. destruct (MessageMapper.to_domain request) as [messages | e];
      cbn [and_then]; [| discriminate].
    intros [= Hl Ho] Hone. exists messages. split; [reflexivity |].
    set (stream := stream_completion messages _) in *.
    set (g := execute json_loads (ToolExecutor.execute tools) stream) in *.
    rewrite strings_of_events in Hl. rewrite <- Hl in Hone |- *.
    unfold client_reads. rewrite client_reads_events.
    + rewrite texts_of_events. unfold g.
      rewrite (@execute_trace json_loads (ToolExecutor.execute tools)).
      apply (@execute_outcome json_loads (ToolExecutor.execute tools)) in Ho as [acc Ho].
      f_equal.
      exact (proj2 (run_texts_prefix json_loads (ToolExecutor.execute tools) stream [])
               acc Ho).
    + apply Forall_forall. intros e He.
      destruct (transmitted e) eqn:Ht; [| now destruct e].
      rewrite <- (one_line_framed e Ht).
      rewrite Forall_forall in Hone. apply Hone.
      apply in_map. apply filter_In. now split.
  - intros e ->. reflexivity.
Qed.
End WireFacts.

(* ================================================================== *)
(** * The message mapper and the provider adapter *)

Section MapperFacts.
Import MessageMapper.

Lemma and_then_returned {A B} (o : Outcome A) (k : A -> Outcome B) b :
  and_then o k = Returned b -> exists a, o = Returned a /\ k a = Returned b.
Proof. destruct o as [a | e]; [now exists a | discriminate]. Qed.

Lemma and_then_assoc {A B C} (o : Outcome A) (k : A -> Outcome B) (h : B -> Outcome C) :
  and_then (and_then o k) h = and_then o (fun a => and_then (k a) h).
Proof. now destruct o. Qed.

Lemma and_then_ret {A} (o : Outcome A) : and_then o (fun a => Returned a) = o.
Proof. now destruct o. Qed.

Lemma for_each_returned {A B} (f : A -> Outcome B) items ys :
  for_each f items = Returned ys -> Forall2 (fun x y => f x = Returned y) items ys.
Proof.
  revert ys. induction items as [| x items IH]; intros ys; cbn.
  - intros [= <-]. constructor.
  - intros H. apply and_then_returned in H as (y & Hy & H).
    apply and_then_returned in H as (ys' & Hys & [= <-]).
    constructor; [exact Hy | now apply IH].
Qed.

Lemma for_each_map {A B} (f : A -> Outcome B) (g : A -> B) items ys :
  (forall x y, f x = Returned y -> y = g x) ->
  for_each f items = Returned ys -> ys = map g items.
Proof.
  intros Hf H. apply for_each_returned in H.
  induction H as [| x y items ys Hxy _ IH]; [reflexivity |].
  cbn. now rewrite (Hf _ _ Hxy), IH.
Qed.

Lemma Attachment_new_returned ct url a :
  Attachment.new ct url = Returned a ->
  a = Attachment.mk ct url /\ ct <> EmptyString /\ url <> EmptyString.
Proof.
  unfold Attachment.new. destruct ct, url; cbn; try discriminate.
  intros [= <-]. repeat split; discriminate.
Qed.

Lemma Message_new_returned role content atts id calls m :
  Message.new role content atts id calls = Returned m ->
  m = Message.mk role content atts id calls /\
  (content <> EmptyString \/ role = MessageRole.ASSISTANT) /\
  (role = MessageRole.TOOL -> opt_truthy id = true).
Proof.
  unfold Message.new.
  destruct content, role, id as [[|] |]; cbn; try discriminate;
    intros [= <-]; repeat split; try (left; discriminate); try (now right);
    try discriminate; reflexivity.
Qed.

Lemma of_value_returned s role :
  MessageRole.of_value s = Returned role -> MessageRole.value role = s.
Proof.
  unfold MessageRole.of_value.
  repeat match goal with
         | |- context [String.eqb s ?c] => destruct (String.eqb_spec s c) as [-> | ?]
         end; try discriminate; now intros [= <-].
Qed.

Lemma attachments_of_returned cm atts :
  attachments_of cm = Returned atts ->
  atts = map attachment_of (items_of (ClientMessage.experimental_attachments cm)) /\
  Forall (fun a => Attachment.content_type a <> EmptyString /\
                   Attachment.url a <> EmptyString) atts.
Proof.
  unfold attachments_of. intros H. split.
  - revert H. apply for_each_map. intros x y Hy.
    now apply Attachment_new_returned in Hy as [-> _].
  - apply for_each_returned in H.
    induction H as [| x y items ys Hxy _ IH]; constructor; [| exact IH].
    apply Attachment_new_returned in Hxy as (-> & ? & ?). now split.
Qed.

Lemma tool_calls_of_returned cm calls :
  tool_calls_of cm = Returned calls ->
  calls =
    (if String.eqb (ClientMessage.role cm) "assistant" then
       match filter (fun inv => is_call_or_result (ToolInvocation.state inv))
                    (invocations_of cm) with
       | [] => None
       | invs => Some (map call_of invs)
       end
     else None) /\
  (forall l, calls = Some l ->
     ClientMessage.role cm = "assistant" /\ l <> [] /\
     Forall (fun tc => ToolCall.id tc <> EmptyString /\ ToolCall.name tc <> EmptyString) l).
Proof.
  unfold tool_calls_of, invocations_of.
  destruct (String.eqb_spec (ClientMessage.role cm) "assistant") as [Hr | Hr];
    rewrite ?andb_false_r, ?andb_true_r.
  - destruct (list_truthy (ClientMessage.toolInvocations cm)) eqn:Ht.
    + intros H. apply and_then_returned in H as (l & Hl & [= <-]).
      pose proof (for_each_returned _ _ Hl) as Hall.
      apply for_each_map with (g := call_of) in Hl;
        [| intros x y Hy; now apply ToolCall_new_inv in Hy as [-> _]].
      split.
      * rewrite Hl. now destruct (filter _ _).
      * intros l' Hl'. split; [exact Hr |].
        destruct l as [| tc l]; [discriminate |]. injection Hl' as <-.
        split; [discriminate |].
        clear Hl. induction Hall as [| x y items ys Hxy _ IH]; constructor; [| exact IH].
        apply ToolCall_new_inv in Hxy as (-> & ? & ?). now split.
    + intros [= <-]. split; [| discriminate].
      destruct (ClientMessage.toolInvocations cm) as [[| inv l] |]; try discriminate;
        reflexivity.
  - intros [= <-]. split; [reflexivity | discriminate].
Qed.

Lemma results_of_returned cm results :
  results_of cm = Returned results ->
  results = map tool_message
              (filter (fun inv => is_result (ToolInvocation.state inv)) (invocations_of cm)) /\
  Forall (fun inv => ToolInvocation.toolCallId inv <> EmptyString /\
                     Json.dumps (ToolInvocation.result inv) <> EmptyString)
         (filter (fun inv => is_result (ToolInvocation.state inv)) (invocations_of cm)).
Proof.
  unfold results_of, invocations_of. intros H. split.
  - revert H. apply for_each_map. intros x y Hy.
    now apply Message_new_returned in Hy as [-> _].
  - apply for_each_returned in H.
    induction H as [| x y items ys Hxy _ IH]; constructor; [| exact IH].
    apply Message_new_returned in Hxy as (_ & [Hc | Hc] & Hid); [| discriminate Hc].
    specialize (Hid eq_refl). cbn in Hid. split; [now apply str_truthy_true | exact Hc].
Qed.

(** What one client message becomes. *)
Lemma convert_one_returned cm ms :
  convert_one cm = Returned ms ->
  exists role atts calls,
    ms = Message.mk role (ClientMessage.content cm) atts None calls ::
         map tool_message
           (filter (fun inv => is_result (ToolInvocation.state inv)) (invocations_of cm)) /\
    MessageRole.value role = ClientMessage.role cm /\
    role <> MessageRole.TOOL /\
    (ClientMessage.content cm <> EmptyString \/ role = MessageRole.ASSISTANT) /\
    attachments_of cm = Returned atts /\
    tool_calls_of cm = Returned calls /\
    Forall (fun inv => ToolInvocation.toolCallId inv <> EmptyString /\
                       Json.dumps (ToolInvocation.result inv) <> EmptyString)
      (filter (fun inv => is_result (ToolInvocation.state inv)) (invocations_of cm)).
Proof.
  unfold convert_one. intros H.
  apply and_then_returned in H as (atts & Ha & H).
  apply and_then_returned in H as (calls & Hc & H).
  apply and_then_returned in H as (role & Hr & H).
  apply and_then_returned in H as (main & Hm & H).
  apply and_then_returned in H as (results & Hres & [= <-]).
  apply Message_new_returned in Hm as (-> & Hcontent & Hid).
  apply results_of_returned in Hres as [-> Hids].
  exists role, atts, calls. repeat split; try assumption.
  - now apply of_value_returned.
  - intros ->. specialize (Hid eq_refl). discriminate Hid.
Qed.

Lemma to_domain_cons cm cms ms :
  to_domain (cm :: cms) = Returned ms ->
  exists first rest,
    convert_one cm = Returned first /\ to_domain cms = Returned rest /\ ms = first ++ rest.
Proof.
  cbn [to_domain]. intros H.
  apply and_then_returned in H as (first & Hf & H).
  apply and_then_returned in H as (rest & Hr & [= <-]).
  now exists first, rest.
Qed.

Lemma tool_message_well_formed inv :
  ToolInvocation.toolCallId inv <> EmptyString ->
  Json.dumps (ToolInvocation.result inv) <> EmptyString ->
  well_formed (tool_message inv).
Proof.
  intros Hid Hc. unfold well_formed, tool_message; cbn. repeat split.
  - now left.
  - intros _. now exists (ToolInvocation.toolCallId inv).
  - intros H. now destruct H.
  - discriminate.
  - discriminate.
  - discriminate.
  - constructor.
Qed.

Lemma tool_messages_kept invs :
  filter Message.is_tool_response (map tool_message invs) = map tool_message invs.
Proof. induction invs as [| inv invs IH]; [reflexivity |]. cbn. now rewrite IH. Qed.

Lemma tool_messages_dropped invs :
  filter (fun m => negb (Message.is_tool_response m)) (map tool_message invs) = [].
Proof. induction invs as [| inv invs IH]; [reflexivity | exact IH]. Qed.

Lemma not_tool_response role content atts id calls :
  role <> MessageRole.TOOL ->
  Message.is_tool_response (Message.mk role content atts id calls) = false.
Proof. destruct role; cbn; congruence. Qed.

(** X17.  The conversion treats the client messages one by one: a
    request in two parts converts to the conversion of the first part
    followed by that of the second, and the first exception met, in order,
    is the one raised. *)
Theorem to_domain_app cms1 cms2 :
  to_domain (cms1 ++ cms2) =
  and_then (to_domain cms1) (fun ms1 =>
  and_then (to_domain cms2) (fun ms2 => Returned (ms1 ++ ms2))).
Proof.
  induction cms1 as [| cm cms1 IH]; cbn [app to_domain and_then].
  - now rewrite and_then_ret.
  - rewrite IH. destruct (convert_one cm) as [first | e]; cbn [and_then]; [| reflexivity].
    destruct (to_domain cms1) as [ms1 | e]; cbn [and_then]; [| reflexivity].
    destruct (to_domain cms2) as [ms2 | e]; cbn [and_then]; [| reflexivity].
    now rewrite app_assoc.
Qed.

(** X18.  An accepted request converts to one message per client message
    plus one tool message per invocation that carries a result, whatever
    the role of the message that carries the invocation: the tool messages
    are those of the results, in order, each with the encoded result as its
    content and the id of the call; the other messages have the roles and
    the contents of the client messages, in order. *)
Theorem to_domain_expands_results cms ms :
  to_domain cms = Returned ms ->
  List.length ms = (List.length cms + List.length (result_invocations cms))%nat /\
  filter Message.is_tool_response ms = map tool_message (result_invocations cms) /\
  map (fun m => (MessageRole.value (Message.role m), Message.content m))
      (filter (fun m => negb (Message.is_tool_response m)) ms) =
  map (fun cm => (ClientMessage.role cm, ClientMessage.content cm)) cms.
Proof.
  revert ms. induction cms as [| cm cms IH]; intros ms H.
  - injection H as <-. repeat split.
  - apply to_domain_cons in H as (first & rest & Hf & Hr & ->).
    destruct (IH rest Hr) as (Hlen & Htool & Hmain).
    apply convert_one_returned in Hf
      as (role & atts & calls & -> & Hrole & Hnt & _ & _ & _ & _).
    cbn [result_invocations flat_map app filter].
    rewrite (not_tool_response _ _ _ _ Hnt). cbn [negb map].
    rewrite !filter_app, tool_messages_kept, tool_messages_dropped.
    cbn [app List.length]. rewrite !length_app, length_map, map_app.
    fold (result_invocations cms). cbn [Message.role Message.content].
    rewrite Htool, Hmain, Hrole, Hlen. repeat split. lia.
Qed.

(** X19.  Every message of an accepted request is well formed: only an
    assistant message may have an empty content; a tool message has a
    non-empty call id, no attachment and no tool call, and no other message
    has a call id; tool calls sit on assistant messages only, are never an
    empty list, and have a non-empty id and name; every attachment has a
    non-empty content type and url. *)
Theorem to_domain_well_formed cms ms :
  to_domain cms = Returned ms -> Forall well_formed ms.
Proof.
  revert ms. induction cms as [| cm cms IH]; intros ms H.
  - injection H as <-. constructor.
  - apply to_domain_cons in H as (first & rest & Hf & Hr & ->).
    apply convert_one_returned in Hf
      as (role & atts & calls & -> & Hrole & Hnt & Hc & Ha & Htc & Hids).
    apply attachments_of_returned in Ha as [_ Ha].
    apply tool_calls_of_returned in Htc as [_ Htc].
    cbn [app]. constructor; [| apply Forall_app; split; [| now apply IH]].
    + unfold well_formed; cbn. repeat split; try assumption.
      * intros E. contradiction.
      * destruct (Htc _ H) as (Hr' & _). rewrite <- Hrole in Hr'. now destruct role.
      * now destruct (Htc _ H) as (_ & ? & _).
      * now destruct (Htc _ H) as (_ & _ & ?).
    + apply Forall_forall. intros m Hin. apply in_map_iff in Hin as (inv & <- & Hin).
      rewrite Forall_forall in Hids. destruct (Hids _ Hin).
      now apply tool_message_well_formed.
Qed.

(** X20.  A request is accepted only if every client message has the
    role of a user, an assistant or the system.  A client message with the
    role of a tool is never accepted, with or without content: tool
    messages come from invocation results only. *)
Theorem to_domain_accepts_three_roles cms ms :
  to_domain cms = Returned ms ->
  Forall (fun cm => In (ClientMessage.role cm) ["user"; "assistant"; "system"]) cms.
Proof.
  revert ms. induction cms as [| cm cms IH]; intros ms H; [constructor |].
  apply to_domain_cons in H as (first & rest & Hf & Hr & ->).
  constructor; [| now apply (IH rest)].
  apply convert_one_returned in Hf as (role & _ & _ & _ & Hrole & Hnt & _).
  rewrite <- Hrole. destruct role; cbn; tauto.
Qed.

(** X21.  The message made of one client message carries its attachments
    unchanged and in order, and the calls of its invocations in state call
    or result, in order, when its role is that of the assistant; a message
    of any other role carries no tool call, even when it has invocations.
    Invocations in state partial call leave no trace. *)
Theorem main_message_of_client_message cm ms :
  to_domain [cm] = Returned ms ->
  exists main,
    ms = main :: map tool_message
                   (filter (fun inv => is_result (ToolInvocation.state inv))
                           (invocations_of cm)) /\
    Message.attachments main =
      map attachment_of (items_of (ClientMessage.experimental_attachments cm)) /\
    Message.tool_calls main =
      (if String.eqb (ClientMessage.role cm) "assistant" then
         match filter (fun inv => is_call_or_result (ToolInvocation.state inv))
                      (invocations_of cm) with
         | [] => None
         | invs => Some (map call_of invs)
         end
       else None).
Proof.
  intros H. apply to_domain_cons in H as (first & rest & Hf & [= <-] & ->).
  apply convert_one_returned in Hf
    as (role & atts & calls & -> & _ & _ & _ & Ha & Htc & _).
  apply attachments_of_returned in Ha as [-> _].
  apply tool_calls_of_returned in Htc as [-> _].
  eexists. rewrite app_nil_r. split; [reflexivity |]. split; reflexivity.
Qed.
End MapperFacts.

Section AdapterFacts.
Import MessageMapper OpenAILLMAdapter.

Lemma filter_map_comm {A B} (f : B -> bool) (g : A -> B) l :
  filter f (map g l) = map g (filter (fun x => f (g x)) l).
Proof.
  induction l as [| x l IH]; [reflexivity |]. cbn.
  destruct (f (g x)); cbn; now rewrite IH.
Qed.

Lemma no_invocations cm :
  list_truthy (ClientMessage.toolInvocations cm) = false -> invocations_of cm = [].
Proof.
  unfold invocations_of.
  now destruct (ClientMessage.toolInvocations cm) as [[| inv l] |].
Qed.

Lemma convert_tool_messages invs :
  _convert_messages (map tool_message invs) = map provider_tool_message invs.
Proof. unfold _convert_messages. rewrite map_map. reflexivity. Qed.

Lemma convert_plain_message cm role :
  MessageRole.value role = ClientMessage.role cm ->
  role <> MessageRole.TOOL ->
  convert_message
    (Message.mk role (ClientMessage.content cm)
       (map attachment_of (items_of (ClientMessage.experimental_attachments cm)))
       None None) =
  provider_message cm.
Proof.
  intros Hrole Hnt. unfold convert_message, provider_message.
  cbn [Message.role Message.content Message.attachments Message.tool_calls list_truthy].
  rewrite andb_false_r, Hrole, filter_map_comm, map_map.
  destruct role; [reflexivity | reflexivity | reflexivity | contradiction].
Qed.

(** X22.  A conversation without tool invocations reaches the provider
    message for message: each accepted client message becomes one provider
    message with the same role and, as content, a text part with the same
    content followed by one image part per attachment whose content type
    starts with image, in order, with the url of the attachment.  Other
    attachments are not sent. *)
Theorem plain_conversation_reaches_provider cms ms :
  Forall (fun cm => list_truthy (ClientMessage.toolInvocations cm) = false) cms ->
  to_domain cms = Returned ms ->
  _convert_messages ms = map provider_message cms.
Proof.
  intros Hall. revert ms. induction Hall as [| cm cms Hcm _ IH]; intros ms H.
  - now injection H as <-.
  - apply to_domain_cons in H as (first & rest & Hf & Hr & ->).
    apply convert_one_returned in Hf
      as (role & atts & calls & -> & Hrole & Hnt & _ & Ha & Htc & _).
    apply attachments_of_returned in Ha as [-> _].
    apply tool_calls_of_returned in Htc as [-> _].
    rewrite (no_invocations cm Hcm). cbn [filter map app].
    unfold _convert_messages in *. cbn [map]. rewrite (IH rest Hr). f_equal.
    assert (Hnone : (if String.eqb (ClientMessage.role cm) "assistant"
                     then @None (list ToolCall.t) else None) = None)
      by now destruct (String.eqb _ _).
    rewrite Hnone. now apply convert_plain_message.
Qed.

(** X23.  The result of every invocation reaches the provider as a tool
    message: the tool messages of an accepted request are sent, in order,
    with the role of a tool, the id of the call and the encoded result as
    content. *)
Theorem results_reach_provider cms ms :
  to_domain cms = Returned ms ->
  _convert_messages (filter Message.is_tool_response ms) =
  map provider_tool_message (result_invocations cms).
Proof.
  revert ms. induction cms as [| cm cms IH]; intros ms H.
  - now injection H as <-.
  - apply to_domain_cons in H as (first & rest & Hf & Hr & ->).
    apply convert_one_returned in Hf
      as (role & atts & calls & -> & _ & Hnt & _).
    cbn [app filter]. rewrite (not_tool_response _ _ _ _ Hnt).
    rewrite filter_app, tool_messages_kept.
    unfold _convert_messages in *. rewrite map_app, (IH rest Hr).
    fold (_convert_messages (map tool_message
            (filter (fun inv => is_result (ToolInvocation.state inv)) (invocations_of cm)))).
    rewrite convert_tool_messages. cbn [result_invocations flat_map].
    now rewrite map_app.
Qed.
End AdapterFacts.

(* ================================================================== *)
(** * The theorems at work *)

Lemma argument_before_start_witness :
  let pre := [LLMTextDelta "Hi"] in
  (Forall (fun ev => is_terminal ev = false) pre /\
   run Json.loads Sample.executor [] pre = ([Yield (TextDelta "Hi")], Returned []) /\
   mem_Z 0 (first_starts pre) = false /\
   "{" <> EmptyString) /\
  execute Json.loads Sample.executor
    (pre ++ LLMToolCallDelta 0 None None (Some "{") :: [LLMFinished "stop" 1 1]) =
  ([Yield (TextDelta "Hi")], Raised (KeyError 0)).
Proof.
  intros pre.
  assert (H1 : Forall (fun ev => is_terminal ev = false) pre)
    by (repeat constructor).
  assert (H2 : run Json.loads Sample.executor [] pre =
               ([Yield (TextDelta "Hi")], Returned [])) by reflexivity.
  assert (H3 : mem_Z 0 (first_starts pre) = false) by reflexivity.
  assert (H4 : "{" <> EmptyString) by discriminate.
  split; [now repeat split |].
  exact (@argument_before_start Json.loads Sample.executor pre _ _ 0 None "{"
           [LLMFinished "stop" 1 1] H1 H2 H3 H4).
Defined.

Lemma longer_stream_extends_trace_witness :
  let s1 := [LLMToolCallDelta 0 None None (Some "{")] in
  let s2 := [LLMTextDelta "late"] in
  outcome (execute Json.loads Sample.executor s1) = Raised (KeyError 0) /\
  execute Json.loads Sample.executor (s1 ++ s2) = execute Json.loads Sample.executor s1.
Proof.
  intros s1 s2.
  assert (H : outcome (execute Json.loads Sample.executor s1) = Raised (KeyError 0))
    by reflexivity.
  split; [exact H |].
  exact (proj2 (longer_stream_extends_trace Json.loads Sample.executor s1 s2)
           (KeyError 0) H).
Defined.

Lemma entry_depends_on_own_fragments_witness :
  let acc' := [(0, ToolData.mk "call_1" "get_weather" EmptyString)] in
  outcome (run Json.loads Sample.executor [] Sample.start_only) = Returned acc' /\
  dict_get Z.eqb 0 acc' = entry_after 0 (dict_get Z.eqb 0 []) Sample.start_only.
Proof.
  intros acc'.
  assert (H : outcome (run Json.loads Sample.executor [] Sample.start_only) =
              Returned acc') by reflexivity.
  split; [exact H |].
  exact (@entry_depends_on_own_fragments Json.loads Sample.executor
           Sample.start_only [] acc' 0 H).
Defined.

Lemma text_is_forwarded_witness :
  let stream := [LLMTextDelta "Hello"; LLMFinished "stop" 1 2] in
  outcome (execute Json.loads Sample.executor stream) = Returned tt /\
  texts_of (trace (execute Json.loads Sample.executor stream)) = texts_of_stream stream.
Proof.
  intros stream.
  assert (H : outcome (execute Json.loads Sample.executor stream) = Returned tt)
    by reflexivity.
  split; [exact H |].
  exact (proj2 (text_is_forwarded Json.loads Sample.executor stream) H).
Defined.

Lemma second_terminal_resolves_again_witness :
  let acc := SampleRequest.one_entry in
  let resolved := resolve_all Json.loads Sample.executor (dict_values acc) in
  outcome resolved = Returned tt /\
  run Json.loads Sample.executor acc
      [LLMFinished "tool_calls" 1 2; LLMFinished "stop" 3 4] =
  (trace resolved ++
   [Yield (CompletionFinished "tool_calls" (UsageStats.mk 1 2 (1 + 2)))] ++
   trace resolved ++
   [Yield (CompletionFinished "stop" (UsageStats.mk 3 4 (3 + 4)))],
   Returned acc).
Proof.
  intros acc resolved.
  assert (H : outcome resolved = Returned tt) by (vm_compute; reflexivity).
  split; [exact H |].
  exact (@second_terminal_resolves_again Json.loads Sample.executor acc
           "tool_calls" 1 2 "stop" 3 4 H).
Defined.

Lemma start_without_name_fails_witness :
  ("call_1" <> EmptyString /\
   opt_truthy None = false /\
   Forall (fun ch => ch <> EmptyString) ["{}"] /\
   Json.loads (concat_chunks ["{}"]) = Some (JObj [])) /\
  execute Json.loads Sample.executor
    (LLMToolCallDelta 0 (Some "call_1") None None ::
     map (chunk_fragment 0) ["{}"] ++ [LLMFinished "tool_calls" 1 2]) =
  (Yield (ToolCallStarted "call_1" EmptyString) ::
   map (fun ch => Yield (ToolCallArgumentChunk "call_1" ch)) ["{}"],
   Raised (ValueError "ToolCall name cannot be empty")).
Proof.
  assert (H1 : "call_1" <> EmptyString) by discriminate.
  assert (H2 : opt_truthy None = false) by reflexivity.
  assert (H3 : Forall (fun ch => ch <> EmptyString) ["{}"])
    by (repeat constructor; discriminate).
  assert (H4 : Json.loads (concat_chunks ["{}"]) = Some (JObj []))
    by (vm_compute; reflexivity).
  split; [now repeat split |].
  exact (@start_without_name_fails Json.loads Sample.executor 0 "call_1" None ["{}"]
           (JObj []) "tool_calls" 1 2 H1 H2 H3 H4).
Defined.

Lemma last_registration_wins_witness :
  let ts := [Sample.get_weather; Sample.broken_tool] in
  last_named (ITool.name Sample.get_weather) ts = Some Sample.get_weather /\
  In Sample.get_weather (ToolExecutor.get_registered_tools (registry_of ts)).
Proof.
  intros ts.
  assert (H : last_named (ITool.name Sample.get_weather) ts = Some Sample.get_weather)
    by reflexivity.
  split; [exact H |].
  exact (proj2 (proj2 (proj2 (last_registration_wins ts)) Sample.get_weather) H).
Defined.

Lemma tool_result_line_read_back_witness :
  let r := ToolResult.mk "call_1" "get_weather" Sample.reading in
  (plain (ToolResult.call_id r) = true /\
   plain (ToolResult.name r) = true /\
   reads_back (ToolResult.result r)) /\
  VercelStreamProtocolAdapter.decode_line
    (VercelStreamProtocolAdapter.format_event (ToolResultAvailable r)) =
  Some (JObj [(py "toolCallId", JStr (py "call_1"));
              (py "toolName", JStr (py "get_weather"));
              (py "result", Sample.reading)]).
Proof.
  intros r.
  assert (H1 : plain (ToolResult.call_id r) = true) by reflexivity.
  assert (H2 : plain (ToolResult.name r) = true) by reflexivity.
  assert (H3 : reads_back (ToolResult.result r))
    by (exists 3%nat; vm_compute; reflexivity).
  split; [now repeat split |].
  exact (@tool_result_line_read_back r H1 H2 H3).
Defined.

Lemma completion_line_read_back_witness :
  plain "stop" = true /\
  VercelStreamProtocolAdapter.decode_line
    (VercelStreamProtocolAdapter.format_event
       (CompletionFinished "stop" (UsageStats.mk 10 (-5) 0))) =
  Some (JObj [(py "finishReason", JStr (py "stop"));
              (py "usage",
               JObj [(py "promptTokens", JInt 10); (py "completionTokens", JInt (-5))]);
              (py "isContinued", JBool false)]).
Proof.
  assert (H : plain "stop" = true) by reflexivity.
  split; [exact H |].
  exact (@completion_line_read_back "stop" (UsageStats.mk 10 (-5) 0) H).
Defined.

Lemma text_line_read_back_witness :
  let content := [72; 233; 10; 8364; 128512]%N in
  forallb scalar content = true /\
  no_newline (Json.dumps (JStr content)) = true /\
  one_line (text_line content) = true /\
  Json.loads (Json.dumps (JStr content)) = Some (JStr content) /\
  VercelStreamProtocolAdapter.decode_line (text_line content) = Some (JStr content).
Proof.
  intros content.
  assert (H : forallb scalar content = true) by reflexivity.
  split; [exact H |].
  exact (proj1 text_line_read_back content H).
Defined.

(** Why surrogates are left out: in the encoding a high surrogate followed
    by a low one reads as one code point. *)
Example surrogate_pair_merges :
  Json.loads (Json.dumps (JStr [55357; 56832]%N)) = Some (JStr [128512%N]).
Proof. vm_compute. reflexivity. Qed.

Lemma router_sends_transmitted_events_witness :
  let tc := ToolCall.mk ("a" ++ VercelStreamProtocolAdapter.newline ++ "b")
                        "get_weather" (JObj []) in
  (transmitted (ToolCallCompleted tc) = true /\
   no_newline (ToolCall.id tc) = false) /\
  one_line (VercelStreamProtocolAdapter.format_event (ToolCallCompleted tc)) =
    framed (ToolCallCompleted tc) /\
  one_line (VercelStreamProtocolAdapter.format_event (ToolCallCompleted tc)) = false.
Proof.
  intros tc.
  assert (H1 : transmitted (ToolCallCompleted tc) = true) by reflexivity.
  assert (H2 : no_newline (ToolCall.id tc) = false) by reflexivity.
  pose proof (router_sends_transmitted_events
                (execute Json.loads Sample.executor [])) as (_ & _ & Hf & _ & Hid).
  split; [now split |]. split; [exact (Hf _ H1) | exact (Hid tc H2)].
Defined.

Lemma text_reaches_client_witness :
  let out :=
    map VercelStreamProtocolAdapter.format_event
        [TextDelta "Hello"; CompletionFinished "stop" (UsageStats.mk 1 2 3)] in
  (ChatRouter.handle_chat Json.loads Sample.tools SampleRequest.greeting
     SampleRequest.conversation = Returned (out, Returned tt) /\
   Forall (fun s => one_line s = true) out) /\
  exists messages,
    MessageMapper.to_domain SampleRequest.conversation = Returned messages /\
    client_reads out =
    map py (texts_of_stream
              (SampleRequest.greeting messages
                 (ToolExecutor.get_registered_tools Sample.tools))).
Proof.
  intros out.
  assert (H1 : ChatRouter.handle_chat Json.loads Sample.tools SampleRequest.greeting
                 SampleRequest.conversation = Returned (out, Returned tt))
    by (vm_compute; reflexivity).
  assert (H2 : Forall (fun s => one_line s = true) out)
    by (repeat constructor).
  split; [now split |].
  exact (proj1 (text_reaches_client Json.loads Sample.tools SampleRequest.greeting
                  SampleRequest.conversation) out H1 H2).
Defined.

(** Without the premise on the strings the client can be made to read a
    text that no fragment carried: a call id with line feeds in it puts a
    line of kind 0 of its own into the response. *)
Example unframed_call_id_forges_text :
  let nl := VercelStreamProtocolAdapter.newline in
  let tc := ToolCall.mk ("a" ++ nl ++ q "0:'pwned'" ++ nl) "get_weather" (JObj []) in
  client_reads [VercelStreamProtocolAdapter.format_event (ToolCallCompleted tc)] =
  [py "pwned"].
Proof. vm_compute. reflexivity. Qed.

Lemma to_domain_expands_results_witness :
  MessageMapper.to_domain SampleRequest.conversation =
    Returned SampleRequest.messages /\
  List.length SampleRequest.messages =
    (List.length SampleRequest.conversation +
     List.length (result_invocations SampleRequest.conversation))%nat /\
  filter Message.is_tool_response SampleRequest.messages =
    map tool_message (result_invocations SampleRequest.conversation) /\
  map (fun m => (MessageRole.value (Message.role m), Message.content m))
      (filter (fun m => negb (Message.is_tool_response m)) SampleRequest.messages) =
  map (fun cm => (ClientMessage.role cm, ClientMessage.content cm))
      SampleRequest.conversation.
Proof.
  assert (H : MessageMapper.to_domain SampleRequest.conversation =
              Returned SampleRequest.messages) by (vm_compute; reflexivity).
  split; [exact H |].
  exact (@to_domain_expands_results SampleRequest.conversation SampleRequest.messages H).
Defined.

Lemma to_domain_well_formed_witness :
  MessageMapper.to_domain SampleRequest.conversation =
    Returned SampleRequest.messages /\
  Forall well_formed SampleRequest.messages.
Proof.
  assert (H : MessageMapper.to_domain SampleRequest.conversation =
              Returned SampleRequest.messages) by (vm_compute; reflexivity).
  split; [exact H |].
  exact (@to_domain_well_formed SampleRequest.conversation SampleRequest.messages H).
Defined.

Lemma to_domain_accepts_three_roles_witness :
  MessageMapper.to_domain SampleRequest.conversation =
    Returned SampleRequest.messages /\
  Forall (fun cm => In (ClientMessage.role cm) ["user"; "assistant"; "system"])
         SampleRequest.conversation.
Proof.
  assert (H : MessageMapper.to_domain SampleRequest.conversation =
              Returned SampleRequest.messages) by (vm_compute; reflexivity).
  split; [exact H |].
  exact (@to_domain_accepts_three_roles SampleRequest.conversation
           SampleRequest.messages H).
Defined.

Lemma main_message_of_client_message_witness :
  let ms :=
    [Message.mk MessageRole.ASSISTANT EmptyString [] None
                (Some [ToolCall.mk "call_1" "get_weather" Sample.sf]);
     Message.mk MessageRole.TOOL (Json.dumps Sample.reading) [] (Some "call_1") None] in
  MessageMapper.to_domain [SampleRequest.answer] = Returned ms /\
  exists main,
    ms = main :: map tool_message
                   (filter (fun inv => MessageMapper.is_result (ToolInvocation.state inv))
                           (invocations_of SampleRequest.answer)) /\
    Message.attachments main =
      map attachment_of
          (items_of (ClientMessage.experimental_attachments SampleRequest.answer)) /\
    Message.tool_calls main =
      (if String.eqb (ClientMessage.role SampleRequest.answer) "assistant" then
         match filter (fun inv =>
                         MessageMapper.is_call_or_result (ToolInvocation.state inv))
                      (invocations_of SampleRequest.answer) with
         | [] => None
         | invs => Some (map call_of invs)
         end
       else None).
Proof.
  intros ms.
  assert (H : MessageMapper.to_domain [SampleRequest.answer] = Returned ms)
    by (vm_compute; reflexivity).
  split; [exact H |].
  exact (@main_message_of_client_message SampleRequest.answer ms H).
Defined.

Lemma plain_conversation_reaches_provider_witness :
  let cms := [SampleRequest.question] in
  let ms := [Message.mk MessageRole.USER "What is the weather in SF?"
               [Attachment.mk "image/png" "https://example.com/sky.png";
                Attachment.mk "text/plain" "https://example.com/notes.txt"]
               None None] in
  (Forall (fun cm => list_truthy (ClientMessage.toolInvocations cm) = false) cms /\
   MessageMapper.to_domain cms = Returned ms) /\
  OpenAILLMAdapter._convert_messages ms = map provider_message cms.
Proof.
  intros cms ms.
  assert (H1 : Forall (fun cm => list_truthy (ClientMessage.toolInvocations cm) = false)
                      cms) by (repeat constructor).
  assert (H2 : MessageMapper.to_domain cms = Returned ms) by (vm_compute; reflexivity).
  split; [now split |].
  exact (@plain_conversation_reaches_provider cms ms H1 H2).
Defined.

Lemma results_reach_provider_witness :
  MessageMapper.to_domain SampleRequest.conversation =
    Returned SampleRequest.messages /\
  OpenAILLMAdapter._convert_messages
    (filter Message.is_tool_response SampleRequest.messages) =
  map provider_tool_message (result_invocations SampleRequest.conversation).
Proof.
  assert (H : MessageMapper.to_domain SampleRequest.conversation =
              Returned SampleRequest.messages) by (vm_compute; reflexivity).
  split; [exact H |].
  exact (@results_reach_provider SampleRequest.conversation SampleRequest.messages H).
Defined.
